(** * SC Controller, USB helper (src/daemon/usb_helper.c)

    A shallow embedding of the USB helper of the daemon: the device handle,
    the synchronous HID requests and the deferred interrupt-transfer
    scheduler, with the properties of its specification stated over it.

    The C code lives in one translation unit and talks to three outside
    parties: the C allocator, libusb and hidapi.  Their answers are read from
    an environment [Env], one answer per call, so that every theorem holds
    for every behaviour of the outside.  Memory is an explicit heap of
    blocks; dereferencing or freeing a dead pointer is undefined behaviour
    and makes a computation yield [None].

    Configuration modelled: [USE_HIDAPI] and [_WIN32] defined (the only
    configuration in which the file compiles with both backends). *)

From stdpp Require Import gmap strings list fin_maps.
From Stdlib Require Import HexString.

Open Scope Z_scope.

(** ** Machine integers and libusb constants *)

Definition uint8_t (x : Z) : Z := x mod 2 ^ 8.
Definition uint16_t (x : Z) : Z := x mod 2 ^ 16.

Definition LIBUSB_ENDPOINT_DIR_MASK : Z := 0x80.
Definition LIBUSB_ENDPOINT_IN : Z := 0x80.
Definition LIBUSB_ENDPOINT_OUT : Z := 0x00.
Definition BUFFER_MAX : Z := 256.

(** Pointers are addresses; [NULL] is address 0. *)
Definition NULL : N := 0%N.

(** ** Data model *)

(** [Subsystem] is declared in a header outside this file; the code names
    only [USB] and [HIDAPI] and prints any other value as a number. *)
Inductive Subsystem :=
| USB
| HIDAPI
| OtherSubsystem (i : Z).

#[global] Instance Subsystem_eq_dec : EqDecision Subsystem.
Proof. solve_decision. Defined.

(** [struct USBDevHandle]: the tag, the union of the two native connections
    (an opaque identity here) and the sub-interface index. *)
Record USBDevHandle_s := mkHandle {
  h_sys : Subsystem;
  h_dev : N;
  h_idx : Z
}.

(** [struct InputInterruptData]. *)
Record InputInterruptData := mkIdata {
  idata_cb : N;
  idata_hndl : N;
  idata_endpoint : Z;
  idata_buffer : N;
  idata_length : Z;
  idata_userdata : N
}.

(** The fields of [struct libusb_transfer] this file reads or fills.  The
    completion callback is always [input_interrupt_cb]. *)
Record libusb_transfer := mkTransfer {
  t_dev_handle : N;
  t_endpoint : Z;
  t_buffer : N;
  t_length : Z;
  t_actual_length : Z;
  t_user_data : N
}.

#[global] Instance InputInterruptData_eq_dec : EqDecision InputInterruptData.
Proof. solve_decision. Defined.
#[global] Instance USBDevHandle_s_eq_dec : EqDecision USBDevHandle_s.
Proof. solve_decision. Defined.
#[global] Instance libusb_transfer_eq_dec : EqDecision libusb_transfer.
Proof. solve_decision. Defined.

(** A live heap block. *)
Inductive block :=
| BBytes (bs : list Z)
| BIdata (d : InputInterruptData)
| BHandle (h : USBDevHandle_s)
| BTransfer (t : libusb_transfer).

#[global] Instance block_eq_dec : EqDecision block.
Proof. solve_decision. Defined.

(** What an allocation is for. *)
Inductive alloc_kind :=
| AllocBytes (size : Z)
| AllocIdata
| AllocHandle
| AllocTransfer.

(** Everything the code does that the outside can observe. *)
Inductive event :=
| EvAlloc (k : alloc_kind) (p : N)
| EvFree (p : N)
| EvListAllocate (n : Z) (ok : bool)
| EvLog (msg : string)
| EvCallback (cb : N) (hndl : N) (endpoint : Z) (buf : N)
    (data : option (list Z)) (userdata : N)
| EvSubmit (t : N) (tr : libusb_transfer) (err : Z)
| EvControl (dev : N) (request_type request value index : Z) (buf : N)
    (len timeout : Z) (err : Z)
| EvHidWrite (dev : N) (data : list Z) (len : Z)
| EvHidSend (dev : N) (report : list Z) (len : Z) (err : Z)
| EvHidGet (dev : N) (len : Z) (err : Z)
| EvHidRead (dev : N) (buf : N) (len timeout : Z) (r : Z)
| EvSchedule (delay : Z) (payload : N)
| EvOpen (sys : Subsystem) (which : string + Z * Z) (dev : N)
| EvClose (sys : Subsystem) (dev : N)
| EvSetAutoDetach (dev : N)
| EvGetDeviceList (count : Z)
| EvFreeDeviceList.

#[global] Instance alloc_kind_eq_dec : EqDecision alloc_kind.
Proof. solve_decision. Defined.
#[global] Instance event_eq_dec : EqDecision event.
Proof. solve_decision. Defined.

(** One transfer completion reported by libusb: the transfer and the bytes
    that arrived. *)
Record completion := mkCompletion {
  c_transfer : N;
  c_data : list Z
}.

(** One enumerated device of [libusb_get_device_list]. *)
Record libusb_device := mkDevice {
  d_bus : Z;
  d_address : Z
}.

(** ** The outside world

    Every call that leaves the translation unit takes the next call number
    and reads its answer at that number. *)
Record Env := mkEnv {
  (** does the allocation made by call [n] succeed *)
  env_alloc : nat -> bool;
  (** the uninitialised contents [malloc] hands out *)
  env_junk_idata : nat -> InputInterruptData;
  env_junk_byte : nat -> nat -> Z;
  (** the integer a libusb or hidapi call returns *)
  env_ret : nat -> Z;
  (** the bytes a device hands over at call [n] *)
  env_bytes : nat -> list Z;
  (** the native connection an open call yields *)
  env_native : nat -> N;
  (** the transfers libusb completes while handling events *)
  env_completions : nat -> list completion;
  (** the devices currently enumerated *)
  env_devices : nat -> list libusb_device;
  (** [read_long_from_file path 10] *)
  env_read_long_from_file : string -> Z;
  (** [strtol s NULL 16]: the value and the number of characters consumed *)
  env_strtol16 : string -> Z * nat;
  (** [scc_path_break_slashes] *)
  env_path_break_slashes : string -> string
}.

Record World := mkWorld {
  env : Env;
  clock : nat;
  heap : gmap N block;
  (** the file-level list [scheduled_interupts], a list of pointers *)
  scheduled_interupts : list N;
  trace : list event
}.

Definition set_clock (c : nat) (w : World) : World :=
  mkWorld (env w) c (heap w) (scheduled_interupts w) (trace w).
Definition set_heap (h : gmap N block) (w : World) : World :=
  mkWorld (env w) (clock w) h (scheduled_interupts w) (trace w).
Definition set_scheduled (q : list N) (w : World) : World :=
  mkWorld (env w) (clock w) (heap w) q (trace w).
Definition set_trace (tr : list event) (w : World) : World :=
  mkWorld (env w) (clock w) (heap w) (scheduled_interupts w) tr.

(** ** The monad: state, with [None] for undefined behaviour *)

Definition M (A : Type) : Type := World -> option (A * World).

Definition ret {A} (a : A) : M A := fun w => Some (a, w).
Definition bind {A B} (m : M A) (k : A -> M B) : M B :=
  fun w => match m w with
           | Some (a, w') => k a w'
           | None => None
           end.
Definition undefined {A} : M A := fun _ => None.

Notation "x <- m ;; k" := (bind m (fun x => k))
  (at level 100, m at next level, right associativity).
Notation "m ;; k" := (bind m (fun _ => k))
  (at level 100, right associativity).

(** The next call number. *)
Definition call_ext : M nat :=
  fun w => Some (clock w, set_clock (S (clock w)) w).
Definition oracle {A} (f : Env -> A) : M A := fun w => Some (f (env w), w).
Definition emit (e : event) : M unit :=
  fun w => Some (tt, set_trace (trace w ++ [e]) w).

(** Modelled from the spec: logging is an outside collaborator; a call of
    the logging macros is recorded with its format string. *)
Definition LERROR (msg : string) : M unit := emit (EvLog msg).
Definition WARN (msg : string) : M unit := emit (EvLog msg).

(** ** The heap *)

Definition fresh_ptr (h : gmap N block) : N := fresh ({[NULL]} ∪ dom h).

Definition get_heap : M (gmap N block) := fun w => Some (heap w, w).
Definition put_heap (h : gmap N block) : M unit :=
  fun w => Some (tt, set_heap h w).

(** An allocation: a fresh non-null address on success, [NULL] otherwise. *)
Definition alloc (k : alloc_kind) (ok : bool) (b : block) : M N :=
  if ok then
    h <- get_heap ;;
    put_heap (<[fresh_ptr h := b]> h) ;;
    emit (EvAlloc k (fresh_ptr h)) ;;
    ret (fresh_ptr h)
  else
    emit (EvAlloc k NULL) ;;
    ret NULL.

(** [malloc(size)] for a byte buffer; the block holds garbage.  The
    argument is a [size_t]: a negative [int] converts to a size beyond every
    object, which no allocator grants. *)
Definition malloc (size : Z) : M N :=
  n <- call_ext ;;
  ok <- oracle (fun e => env_alloc e n) ;;
  junk <- oracle (fun e => map (env_junk_byte e n) (seq 0 (Z.to_nat size))) ;;
  alloc (AllocBytes size) (ok && bool_decide (0 <= size)) (BBytes junk).

(** [malloc(sizeof(InputInterruptData))]. *)
Definition malloc_idata : M N :=
  n <- call_ext ;;
  ok <- oracle (fun e => env_alloc e n) ;;
  junk <- oracle (fun e => env_junk_idata e n) ;;
  alloc AllocIdata ok (BIdata junk).

(** [sizeof(USBDevHandle)].  [USBDevHandle] names the pointer type
    [struct USBDevHandle*], so this is the size of a pointer, 8 bytes on a
    64-bit target.  [struct USBDevHandle] itself holds the tag [sys] at
    offset 0, the native handle at offset 8 and [idx] at offset 16, 24
    bytes in all.  (On a 32-bit target the sizes are 4 and 12: the pointer
    is smaller than the struct there as well.) *)
Definition sizeof_USBDevHandle : Z := 8.
Definition sizeof_struct_USBDevHandle : Z := 24.
Definition offsetof_idx : Z := 16.

(** [malloc(sizeof(USBDevHandle))]: a block of the size of a pointer,
    holding garbage. *)
Definition malloc_handle : M N :=
  n <- call_ext ;;
  ok <- oracle (fun e => env_alloc e n) ;;
  junk <- oracle (fun e => map (env_junk_byte e n)
                             (seq 0 (Z.to_nat sizeof_USBDevHandle))) ;;
  alloc AllocHandle ok (BBytes junk).

(** [free(p)]: nothing for [NULL], undefined for a dead pointer. *)
Definition free (p : N) : M unit :=
  if decide (p = NULL) then ret tt
  else
    h <- get_heap ;;
    match h !! p with
    | Some _ => put_heap (delete p h) ;; emit (EvFree p)
    | None => undefined
    end.

Definition load_bytes (p : N) : M (list Z) :=
  fun w => match heap w !! p with
           | Some (BBytes bs) => Some (bs, w)
           | _ => None
           end.
Definition load_idata (p : N) : M InputInterruptData :=
  fun w => match heap w !! p with
           | Some (BIdata d) => Some (d, w)
           | _ => None
           end.
Definition load_handle (p : N) : M USBDevHandle_s :=
  fun w => match heap w !! p with
           | Some (BHandle h) => Some (h, w)
           | _ => None
           end.
Definition load_transfer (p : N) : M libusb_transfer :=
  fun w => match heap w !! p with
           | Some (BTransfer t) => Some (t, w)
           | _ => None
           end.

(** A store through a live pointer. *)
Definition store (p : N) (b : block) : M unit :=
  h <- get_heap ;;
  match h !! p with
  | Some _ => put_heap (<[p := b]> h)
  | None => undefined
  end.

(** The [int] held by the four bytes at [offset], least significant byte
    first. *)
Definition int32_at (offset : Z) (bs : list Z) : Z :=
  let u := foldr (fun b acc => b mod 256 + 256 * acc) 0
             (take 4 (drop (Z.to_nat offset) bs)) in
  if decide (u < 2 ^ 31) then u else u - 2 ^ 32.

(** The stores [hndl->sys = sys; hndl->usb = dev;] (the union member [hid]
    lies at the same place) and, where the code has it, [hndl->idx = idx];
    [None] leaves that field as it is.  The block behind [hndl] has to
    hold a [struct USBDevHandle]: in a block of fewer bytes the store of
    the native handle lies outside the block, which is undefined. *)
Definition store_handle (hndl : N) (sys : Subsystem) (dev : N) (idx : option Z)
  : M unit :=
  h <- get_heap ;;
  match h !! hndl with
  | Some (BHandle old) =>
      put_heap (<[hndl := BHandle (mkHandle sys dev (default (h_idx old) idx))]> h)
  | Some (BBytes bs) =>
      if decide (sizeof_struct_USBDevHandle <= Z.of_nat (length bs)) then
        put_heap
          (<[hndl := BHandle (mkHandle sys dev
                                (default (int32_at offsetof_idx bs) idx))]> h)
      else undefined
  | _ => undefined
  end.

(** [hndl->idx = idx] on a handle. *)
Definition store_handle_idx (hndl : N) (idx : Z) : M unit :=
  h <- load_handle hndl ;;
  store hndl (BHandle (mkHandle (h_sys h) (h_dev h) idx)).

(** [memcpy(dst, src, n)] between byte buffers, [src] given by value:
    overwrites the first [n] bytes of [dst]; undefined when either side is
    shorter than [n]. *)
Definition memcpy (dst : N) (src : list Z) (n : Z) : M unit :=
  old <- load_bytes dst ;;
  if decide (0 <= n /\ n <= Z.of_nat (length src) /\ n <= Z.of_nat (length old))
  then store dst (BBytes (take (Z.to_nat n) src ++ drop (Z.to_nat n) old))
  else undefined.

(** ** The list utility (scc/utils/list.h) on [scheduled_interupts] *)

Definition get_scheduled : M (list N) :=
  fun w => Some (scheduled_interupts w, w).
Definition put_scheduled (q : list N) : M unit :=
  fun w => Some (tt, set_scheduled q w).

(** Modelled from the spec: the dynamic list utility is an outside
    collaborator used as a growable FIFO queue.  [list_allocate] reserves
    room for [n] more items and reports whether that worked. *)
Definition list_allocate (n : Z) : M bool :=
  k <- call_ext ;;
  ok <- oracle (fun e => env_alloc e k) ;;
  emit (EvListAllocate n ok) ;;
  ret ok.

(** Modelled from the spec: [list_add] appends at the end; the code calls
    it only after [list_allocate] has reserved the room. *)
Definition list_add (item : N) : M unit :=
  q <- get_scheduled ;;
  put_scheduled (q ++ [item]).

(** Modelled from the spec: [list_len] is the number of queued items. *)
Definition list_len : M Z :=
  q <- get_scheduled ;;
  ret (Z.of_nat (length q)).

(** Modelled from the spec: [list_clear] empties the list. *)
Definition list_clear : M unit := put_scheduled [].

(** Modelled from the spec: [list_filter] calls the filter on each item in
    order and keeps the items for which it answers true. *)
Fixpoint list_filter_items (f : N -> M bool) (q : list N) : M (list N) :=
  match q with
  | [] => ret []
  | item :: rest =>
      keep <- f item ;;
      rest' <- list_filter_items f rest ;;
      ret (if keep then item :: rest' else rest')
  end.

Definition list_filter (f : N -> M bool) : M unit :=
  q <- get_scheduled ;;
  q' <- list_filter_items f q ;;
  put_scheduled q'.

(** Modelled from the spec: [FOREACH_IN] visits the items in order. *)
Fixpoint FOREACH_IN {A} (q : list A) (body : A -> M unit) : M unit :=
  match q with
  | [] => ret tt
  | item :: rest => body item ;; FOREACH_IN rest body
  end.

(** ** The user callback

    The callback is the caller's code; its invocation is recorded with its
    arguments and, for a non-null buffer, the bytes the buffer holds at
    that moment.  Handing it a dead buffer is undefined. *)
Definition call_cb (cb : N) (hndl : N) (endpoint : Z) (buf : N) (userdata : N)
  : M unit :=
  if decide (buf = NULL) then
    emit (EvCallback cb hndl endpoint buf None userdata)
  else
    bs <- load_bytes buf ;;
    emit (EvCallback cb hndl endpoint buf (Some bs) userdata).

(** ** libusb transfers *)

Definition libusb_alloc_transfer : M N :=
  n <- call_ext ;;
  ok <- oracle (fun e => env_alloc e n) ;;
  alloc AllocTransfer ok (BTransfer (mkTransfer 0%N 0 NULL 0 0 NULL)).

Definition libusb_free_transfer (t : N) : M unit :=
  _ <- load_transfer t ;;
  free t.

Definition libusb_submit_transfer (t : N) : M Z :=
  tr <- load_transfer t ;;
  n <- call_ext ;;
  err <- oracle (fun e => env_ret e n) ;;
  emit (EvSubmit t tr err) ;;
  ret err.

(** ** The interrupt scheduler, event-driven backend *)

(** Helper function used when input_interrupt_cb runs out of memory. *)
Definition remove_si_by_device (item : N) (hndl : N) : M bool :=
  d <- load_idata item ;;
  if decide (idata_hndl d = hndl) then
    free item ;;
    ret false
  else ret true.

(** Label [input_interrupt_cb_error]. *)
Definition input_interrupt_cb_error (idata : N) (t : N) : M unit :=
  d <- load_idata idata ;;
  free (idata_buffer d) ;;
  free idata ;;
  libusb_free_transfer t.

(** Label [input_interrupt_cb_oom], falling through to the error label. *)
Definition input_interrupt_cb_oom (scheduled buffer_copy : N) (idata : N) (t : N)
  : M unit :=
  free scheduled ;;
  free buffer_copy ;;
  LERROR "input_interrupt_cb: out of memory" ;;
  d <- load_idata idata ;;
  list_filter (fun item => remove_si_by_device item (idata_hndl d)) ;;
  tr <- load_transfer t ;;
  call_cb (idata_cb d) (idata_hndl d) (t_endpoint tr) NULL (idata_userdata d) ;;
  input_interrupt_cb_error idata t.

(** The record queued for a completed read: a copy of the request record
    with the copied bytes and the endpoint, direction bit cleared. *)
Definition scheduled_record (d : InputInterruptData) (tr : libusb_transfer)
    (buffer_copy : N) : InputInterruptData :=
  mkIdata (idata_cb d) (idata_hndl d)
    (uint8_t (Z.land (t_endpoint tr) (Z.lnot LIBUSB_ENDPOINT_DIR_MASK)))
    buffer_copy (idata_length d) (idata_userdata d).

(** The record queued when the transfer could not be submitted again: a
    copy of the request record with a null buffer. *)
Definition failure_record (d : InputInterruptData) : InputInterruptData :=
  mkIdata (idata_cb d) (idata_hndl d) (idata_endpoint d) NULL (idata_length d)
    (idata_userdata d).

(** The block of [input_interrupt_cb] taken when [libusb_submit_transfer]
    reports an error. *)
Definition input_interrupt_cb_resubmit_failed (idata : N) (t : N) : M unit :=
  LERROR "input_interrupt_cb: %s" ;;
  scheduled <- malloc_idata ;;
  if decide (scheduled = NULL)
  then input_interrupt_cb_oom scheduled NULL idata t
  else
    d <- load_idata idata ;;
    store scheduled (BIdata (failure_record d)) ;;
    list_add scheduled ;;
    input_interrupt_cb_error idata t.

Definition input_interrupt_cb (t : N) : M unit :=
  tr <- load_transfer t ;;
  let idata := t_user_data tr in
  ok <- list_allocate 2 ;;
  if negb ok then input_interrupt_cb_oom NULL NULL idata t
  else
    scheduled <- malloc_idata ;;
    buffer_copy <- malloc (t_actual_length tr) ;;
    if decide (scheduled = NULL \/ buffer_copy = NULL)
    then input_interrupt_cb_oom scheduled buffer_copy idata t
    else
      d <- load_idata idata ;;
      store scheduled (BIdata d) ;;
      received <- load_bytes (t_buffer tr) ;;
      memcpy buffer_copy received (t_actual_length tr) ;;
      store scheduled (BIdata (scheduled_record d tr buffer_copy)) ;;
      list_add scheduled ;;
      err <- libusb_submit_transfer t ;;
      if decide (err <> 0)
      then input_interrupt_cb_resubmit_failed idata t
      else ret tt.

(** [libusb_handle_events_timeout_completed]: for every transfer the
    environment reports complete, libusb writes the bytes that arrived into
    the transfer's buffer, records their number and runs the completion
    callback. *)
Definition complete_transfer (c : completion) : M unit :=
  tr <- load_transfer (c_transfer c) ;;
  let n := Z.min (Z.of_nat (length (c_data c))) (t_length tr) in
  memcpy (t_buffer tr) (c_data c) n ;;
  store (c_transfer c)
    (BTransfer (mkTransfer (t_dev_handle tr) (t_endpoint tr) (t_buffer tr)
                  (t_length tr) n (t_user_data tr))) ;;
  input_interrupt_cb (c_transfer c).

Definition libusb_handle_events_timeout_completed : M unit :=
  n <- call_ext ;;
  cs <- oracle (fun e => env_completions e n) ;;
  FOREACH_IN cs complete_transfer.

(** The body of the [FOREACH_IN] loop of [sccd_usb_helper_mainloop]. *)
Definition deliver_scheduled (item : N) : M unit :=
  idata <- load_idata item ;;
  call_cb (idata_cb idata) (idata_hndl idata) (idata_endpoint idata)
    (idata_buffer idata) (idata_userdata idata) ;;
  free (idata_buffer idata) ;;
  free item.

(** Lines 114 to 122 of [sccd_usb_helper_mainloop]: the drain. *)
Definition drain_scheduled_interupts : M unit :=
  len <- list_len ;;
  if decide (len > 0) then
    q <- get_scheduled ;;
    FOREACH_IN q deliver_scheduled ;;
    list_clear
  else ret tt.

Definition sccd_usb_helper_mainloop : M unit :=
  libusb_handle_events_timeout_completed ;;
  drain_scheduled_interupts.

(** The value of the local [length] of [sccd_usb_dev_hid_request]: the
    magnitude of the argument, narrowed to 16 bits. *)
Definition transfer_length (_length : Z) : Z :=
  if decide (_length < 0) then uint16_t (- _length) else uint16_t _length.

(** ** Device handles: open and close *)

(** [get_usb_address]: the bus and device number behind a syspath. *)
Definition get_usb_address (syspath : string) : M (bool * Z * Z) :=
  if String.prefix "/win32/usb/" syspath then
    let s_bus := String.substring 11 (String.length syspath - 11) syspath in
    match String.index 0 "/" s_bus with
    | None => undefined
    | Some i =>
        let s_dev := String.substring (S i) (String.length s_bus - S i) s_bus in
        l_bus <- oracle (fun e => fst (env_strtol16 e s_bus)) ;;
        l_dev <- oracle (fun e => fst (env_strtol16 e s_dev)) ;;
        ret (true, uint8_t l_bus, uint8_t l_dev)
    end
  else if decide (Z.of_nat (String.length syspath) + 7 >= 4096) then
    ret (false, 0, 0)
  else
    i <- oracle (fun e => env_read_long_from_file e (syspath +:+ "/busnum")) ;;
    if decide (i < 0) then ret (false, 0, 0)
    else
      j <- oracle (fun e => env_read_long_from_file e (syspath +:+ "/devnum")) ;;
      if decide (j < 0) then ret (false, uint8_t i, 0)
      else ret (true, uint8_t i, uint8_t j).

Definition hid_open_path (device_path : string) : M N :=
  n <- call_ext ;;
  hid <- oracle (fun e => env_native e n) ;;
  emit (EvOpen HIDAPI (inl device_path) hid) ;;
  ret hid.

Definition libusb_open (d : libusb_device) : M (Z * N) :=
  n <- call_ext ;;
  err <- oracle (fun e => env_ret e n) ;;
  usb <- oracle (fun e => env_native e n) ;;
  emit (EvOpen USB (inr (d_bus d, d_address d)) (if decide (err = 0) then usb else NULL)) ;;
  ret (err, if decide (err = 0) then usb else NULL).

(** [libusb_get_device_list]: the count (negative on error) and the list
    ([None] for the null list). *)
Definition libusb_get_device_list : M (Z * option (list libusb_device)) :=
  n <- call_ext ;;
  err <- oracle (fun e => env_ret e n) ;;
  devs <- oracle (fun e => env_devices e n) ;;
  if decide (err < 0) then
    emit (EvGetDeviceList err) ;;
    ret (err, None)
  else
    emit (EvGetDeviceList (Z.of_nat (length devs))) ;;
    ret (Z.of_nat (length devs), Some devs).

(** The [for] loop of [sccd_usb_dev_open_by_syspath] over the device list.
    [Some hndl]: the loop left through [goto] with that value of [hndl];
    [None]: the loop ran to its end. *)
Fixpoint open_by_syspath_scan (devs : list libusb_device) (syspath_bus syspath_dev : Z)
  : M (option N) :=
  match devs with
  | [] => ret None
  | d :: rest =>
      if decide (uint8_t (d_bus d) = syspath_bus /\ uint8_t (d_address d) = syspath_dev)
      then
        hndl <- malloc_handle ;;
        if decide (hndl = NULL) then
          LERROR "Failed to open device %u on bus %u: out fo memory" ;;
          ret (Some hndl)
        else
          r <- libusb_open d ;;
          let '(err, usb) := r in
          if decide (err <> 0) then
            LERROR "Failed to open device %u on bus %u: %s" ;;
            free hndl ;;
            ret (Some hndl)
          else
            emit (EvSetAutoDetach usb) ;;
            store_handle hndl USB usb None ;;
            ret (Some hndl)
      else open_by_syspath_scan rest syspath_bus syspath_dev
  end.

(** The sub-interface index behind the marker [&mi_] of a device path. *)
Definition parse_interface_component (device_path : string) : M Z :=
  match String.index 0 "&mi_" device_path with
  | None => ret (-1)
  | Some i =>
      let hex_str :=
        String.substring (i + 4) (String.length device_path - (i + 4)) device_path in
      r <- oracle (fun e => env_strtol16 e hex_str) ;;
      let '(v, consumed) := r in
      if decide (consumed = 0%nat) then ret (-1) else ret v
  end.

Definition sccd_usb_dev_open_by_syspath (syspath : string) : M N :=
  if String.prefix "/hidapi/" syspath then
    let tail := String.substring 7 (String.length syspath - 7) syspath in
    if decide (1023 <= String.length tail)%nat then undefined
    else
      device_path <- oracle (fun e => env_path_break_slashes e tail) ;;
      hndl <- malloc_handle ;;
      if decide (hndl = NULL) then
        LERROR "Failed to open device %s: out of memory" ;;
        ret NULL
      else
        hid <- hid_open_path device_path ;;
        if decide (hid = NULL) then
          LERROR "Failed to open device %s: hid_open_path failed" ;;
          free hndl ;;
          ret NULL
        else
          store_handle hndl HIDAPI hid (Some (-1)) ;;
          match String.index 0 "&mi_" device_path with
          | Some _ =>
              idx <- parse_interface_component device_path ;;
              store_handle_idx hndl idx
          | None => ret tt
          end ;;
          ret hndl
  else
    a <- get_usb_address syspath ;;
    let '(ok, syspath_bus, syspath_dev) := a in
    if negb ok then
      LERROR "Failed to determine device address for '%s'" ;;
      ret NULL
    else
      l <- libusb_get_device_list ;;
      let '(count, list) := l in
      found <- open_by_syspath_scan (default [] list) syspath_bus syspath_dev ;;
      hndl <- match found with
              | Some hndl => ret hndl
              | None => LERROR "Device %u on bus %u not found" ;; ret NULL
              end ;;
      (if list is Some _ then emit EvFreeDeviceList else ret tt) ;;
      ret hndl.

Definition sccd_usb_dev_close (hndl : N) : M unit :=
  h <- load_handle hndl ;;
  match h_sys h with
  | USB => emit (EvClose USB (h_dev h))
  | HIDAPI => emit (EvClose HIDAPI (h_dev h))
  | OtherSubsystem _ => WARN "sccd_usb_dev_close called on device of subsystem %i"
  end ;;
  free hndl.

(** ** The synchronous transfer engine *)

(** [libusb_control_transfer]: the direction is bit 7 of the request type.
    An outgoing transfer reads [wLength] bytes of [data]; an incoming one
    overwrites at most that many.  A buffer shorter than [wLength] is
    undefined. *)
Definition libusb_control_transfer (dev : N) (request_type request value index : Z)
    (data : N) (wLength : Z) (timeout : Z) : M Z :=
  n <- call_ext ;;
  err <- oracle (fun e => env_ret e n) ;;
  answer <- oracle (fun e => env_bytes e n) ;;
  bs <- load_bytes data ;;
  if decide (Z.of_nat (length bs) < wLength) then undefined
  else
    emit (EvControl dev request_type request value index data wLength timeout err) ;;
    (if decide (Z.land request_type LIBUSB_ENDPOINT_DIR_MASK <> 0 /\ 0 < err)
     then memcpy data answer
            (Z.min (Z.min err wLength) (Z.of_nat (length answer)))
     else ret tt) ;;
    ret err.

Definition hid_write (hid : N) (data : N) (len : Z) : M unit :=
  bs <- load_bytes data ;;
  if decide (Z.of_nat (length bs) < len) then undefined
  else emit (EvHidWrite hid (take (Z.to_nat len) bs) len).

(** [hid_send_feature_report] on the stack buffer, given by value. *)
Definition hid_send_feature_report (hid : N) (report : list Z) (len : Z) : M Z :=
  n <- call_ext ;;
  err <- oracle (fun e => env_ret e n) ;;
  emit (EvHidSend hid (take (Z.to_nat len) report) len err) ;;
  ret err.

(** [hid_get_feature_report]: the result and the stack buffer afterwards,
    its front overwritten by what the device answered. *)
Definition hid_get_feature_report (hid : N) (report : list Z) (len : Z)
  : M (Z * list Z) :=
  n <- call_ext ;;
  err <- oracle (fun e => env_ret e n) ;;
  answer <- oracle (fun e => take (Z.to_nat (Z.min err len)) (env_bytes e n)) ;;
  emit (EvHidGet hid len err) ;;
  ret (err, answer ++ drop (length answer) report).

Definition sccd_usb_dev_hid_write (hndl : N) (idx : Z) (data : N) (len : Z) : M unit :=
  let request_type :=
    uint8_t (Z.lor (Z.land 0x21 (Z.lnot LIBUSB_ENDPOINT_DIR_MASK)) LIBUSB_ENDPOINT_OUT) in
  let request := 0x09 in
  let value := 0x0300 in
  h <- load_handle hndl ;;
  match h_sys h with
  | USB =>
      err <- libusb_control_transfer (h_dev h) request_type request value idx data len 0 ;;
      if decide (err < 0) then LERROR "sccd_usb_dev_hid_write: out: %s" else ret tt
  | HIDAPI => hid_write (h_dev h) data len
  | OtherSubsystem _ =>
      LERROR "sccd_usb_dev_hid_write called on device of subsystem %i"
  end.

(** Label [sccd_usb_dev_hid_request_fail]. *)
Definition sccd_usb_dev_hid_request_fail (use_same_buffer : bool) (out_buffer : N)
  : M N :=
  (if negb use_same_buffer then free out_buffer else ret tt) ;;
  ret NULL.

(** The [switch] of [sccd_usb_dev_hid_request], entered once [length],
    [use_same_buffer] and [out_buffer] are set. *)
Definition sccd_usb_dev_hid_request_switch (hndl : N) (idx : Z) (data : N)
    (len : Z) (use_same_buffer : bool) (out_buffer : N) : M N :=
  h <- load_handle hndl ;;
  match h_sys h with
  | USB =>
      let request_type :=
        uint8_t (Z.lor (Z.land 0x21 (Z.lnot LIBUSB_ENDPOINT_DIR_MASK)) LIBUSB_ENDPOINT_OUT) in
      let request := 0x09 in
      let value := 0x0300 in
      err <- libusb_control_transfer (h_dev h) request_type request value idx data len 500 ;;
      if decide (err < 0) then
        LERROR "sccd_usb_dev_hid_request: out: %s" ;;
        sccd_usb_dev_hid_request_fail use_same_buffer out_buffer
      else
        let request_type :=
          uint8_t (Z.lor (Z.land 0xa1 (Z.lnot LIBUSB_ENDPOINT_DIR_MASK)) LIBUSB_ENDPOINT_IN) in
        let request := 0x01 in
        err <- libusb_control_transfer (h_dev h) request_type request value idx
                 out_buffer len 500 ;;
        if decide (err < 0) then
          LERROR "sccd_usb_dev_hid_request: in: %s" ;;
          sccd_usb_dev_hid_request_fail use_same_buffer out_buffer
        else ret out_buffer
  | HIDAPI =>
      if decide (len > BUFFER_MAX) then
        LERROR "sccd_usb_dev_hid_request/hidapi: called with length larger than supported. Changing BUFFER_MAX will fix this issue" ;;
        ret NULL
      else
        payload <- load_bytes data ;;
        if decide (Z.of_nat (length payload) < len) then undefined
        else
          let buffer := 0 :: take (Z.to_nat len) payload in
          if decide (h_idx h <> idx) then
            LERROR "sccd_usb_dev_hid_request/hidapi: trying to send request to different idx than device was originally opened for (%i != %i)" ;;
            ret NULL
          else
            err <- hid_send_feature_report (h_dev h) buffer (len + 1) ;;
            if decide (err < 0) then
              LERROR "sccd_usb_dev_hid_request: hid_send_feature_report failed: %s" ;;
              sccd_usb_dev_hid_request_fail use_same_buffer out_buffer
            else
              r <- hid_get_feature_report (h_dev h) buffer (len + 1) ;;
              let '(err, buffer) := r in
              if decide (err < 0) then
                LERROR "sccd_usb_dev_hid_request: hid_get_feautre_report failed: %s" ;;
                sccd_usb_dev_hid_request_fail use_same_buffer out_buffer
              else
                memcpy out_buffer (drop 1 buffer) len ;;
                ret out_buffer
  | OtherSubsystem _ =>
      LERROR "sccd_usb_dev_hid_request called on device of subsystem %i" ;;
      sccd_usb_dev_hid_request_fail use_same_buffer out_buffer
  end.

Definition sccd_usb_dev_hid_request (hndl : N) (idx : Z) (data : N) (_length : Z)
  : M N :=
  if decide (_length < 0) then
    let use_same_buffer := true in
    let len := uint16_t (- _length) in
    let out_buffer := data in
    sccd_usb_dev_hid_request_switch hndl idx data len use_same_buffer out_buffer
  else
    let use_same_buffer := false in
    let len := uint16_t _length in
    out_buffer <- malloc len ;;
    if decide (out_buffer = NULL) then
      LERROR "sccd_usb_dev_hid_request: OOM Error" ;;
      ret NULL
    else
      sccd_usb_dev_hid_request_switch hndl idx data len use_same_buffer out_buffer.

(** ** The interrupt scheduler: starting a read loop *)

(** Modelled from the spec: the mainloop's one-shot delayed callback,
    invoked no sooner than the requested number of ticks later with its
    payload. *)
Definition schedule (delay : Z) (payload : N) : M unit :=
  emit (EvSchedule delay payload).

(** [hid_read_timeout]: the device hands over the bytes of this call, cut to
    [len]; a negative answer of the environment is an error. *)
Definition hid_read_timeout (hid : N) (buf : N) (len : Z) (timeout : Z) : M Z :=
  n <- call_ext ;;
  err <- oracle (fun e => env_ret e n) ;;
  chunk <- oracle (fun e => take (Z.to_nat len) (env_bytes e n)) ;;
  let r := if decide (err < 0) then err else Z.of_nat (length chunk) in
  emit (EvHidRead hid buf len timeout r) ;;
  (if decide (0 < r) then memcpy buf chunk r else ret tt) ;;
  ret r.

(** The [while] loop of [sccd_hidapi_dev_interupt_cb].  The loop runs for
    as long as the device has data; [fuel] bounds the number of reads, and
    the result says whether the loop came to its end within it. *)
Fixpoint hidapi_read_while (fuel : nat) (userdata : N) : M bool :=
  match fuel with
  | O => ret false
  | S fuel' =>
      idata <- load_idata userdata ;;
      h <- load_handle (idata_hndl idata) ;;
      r <- hid_read_timeout (h_dev h) (idata_buffer idata) (idata_length idata) 0 ;;
      if decide (r > 0) then
        call_cb (idata_cb idata) (idata_hndl idata) (idata_endpoint idata)
          (idata_buffer idata) (idata_userdata idata) ;;
        hidapi_read_while fuel' userdata
      else ret true
  end.

Definition sccd_hidapi_dev_interupt_cb (fuel : nat) (userdata : N) : M bool :=
  finished <- hidapi_read_while fuel userdata ;;
  if finished then
    schedule 1 userdata ;;
    ret true
  else ret false.

Definition sccd_hidapi_dev_interupt_read_loop (hndl : N) (endpoint : Z) (len : Z)
    (cb : N) (userdata : N) : M bool :=
  idata <- malloc_idata ;;
  buffer <- malloc len ;;
  if decide (idata = NULL \/ buffer = NULL) then
    free idata ;;
    free buffer ;;
    ret false
  else
    d <- load_idata idata ;;
    store idata
      (BIdata (mkIdata cb hndl (idata_endpoint d) buffer (idata_length d) userdata)) ;;
    schedule 1 idata ;;
    ret true.

Definition libusb_fill_interrupt_transfer (t : N) (dev_handle : N) (endpoint : Z)
    (buffer : N) (len : Z) (user_data : N) : M unit :=
  tr <- load_transfer t ;;
  store t (BTransfer (mkTransfer dev_handle endpoint buffer len
                        (t_actual_length tr) user_data)).

(** Label [sccd_usb_dev_interupt_read_loop_fail]. *)
Definition sccd_usb_dev_interupt_read_loop_fail (idata buffer t : N) : M bool :=
  free idata ;;
  free buffer ;;
  (if decide (t <> NULL) then libusb_free_transfer t else ret tt) ;;
  ret false.

Definition sccd_usb_dev_interupt_read_loop (hndl : N) (endpoint : Z) (len : Z)
    (cb : N) (userdata : N) : M bool :=
  h <- load_handle hndl ;;
  if decide (h_sys h = HIDAPI) then
    sccd_hidapi_dev_interupt_read_loop hndl endpoint len cb userdata
  else if decide (h_sys h <> USB) then
    LERROR "sccd_usb_dev_interupt_read_loop called on device of subsystem %i" ;;
    ret false
  else
    buffer <- malloc len ;;
    idata <- malloc_idata ;;
    t <- libusb_alloc_transfer ;;
    if decide (buffer = NULL \/ t = NULL \/ idata = NULL) then
      sccd_usb_dev_interupt_read_loop_fail idata buffer t
    else
      d <- load_idata idata ;;
      store idata
        (BIdata (mkIdata cb hndl (idata_endpoint d) buffer (idata_length d) userdata)) ;;
      libusb_fill_interrupt_transfer t (h_dev h)
        (uint8_t (Z.lor (Z.land endpoint (Z.lnot LIBUSB_ENDPOINT_DIR_MASK))
                    LIBUSB_ENDPOINT_IN))
        buffer len idata ;;
      err <- libusb_submit_transfer t ;;
      if decide (err <> 0) then
        LERROR "sccd_usb_dev_interupt_read_loop: libusb_submit_transfer: %s" ;;
        sccd_usb_dev_interupt_read_loop_fail idata buffer t
      else ret true.

(** ** Vocabulary of the statements *)

(** The events of a trace that are invocations of the user callback. *)
Definition is_callback (e : event) : bool :=
  match e with
  | EvCallback _ _ _ _ _ _ => true
  | _ => false
  end.
Definition callbacks (tr : list event) : list event := filter is_callback tr.

(** An allocation that failed. *)
Definition is_alloc_failure (e : event) : bool :=
  match e with
  | EvAlloc _ p => bool_decide (p = NULL)
  | EvListAllocate _ ok => negb ok
  | _ => false
  end.

Definition is_alloc (e : event) : bool :=
  match e with
  | EvAlloc _ _ => true
  | EvListAllocate _ _ => true
  | _ => false
  end.

(** Events that talk to a device. *)
Definition is_io (e : event) : bool :=
  match e with
  | EvSubmit _ _ _ => true
  | EvControl _ _ _ _ _ _ _ _ _ => true
  | EvHidWrite _ _ _ => true
  | EvHidSend _ _ _ _ => true
  | EvHidGet _ _ _ => true
  | EvHidRead _ _ _ _ _ => true
  | _ => false
  end.

Definition is_bytes (h : gmap N block) (p : N) : Prop :=
  match h !! p with
  | Some (BBytes _) => True
  | _ => False
  end.

(** The bytes a callback sees behind its buffer argument. *)
Definition buffer_contents (h : gmap N block) (p : N) : option (list Z) :=
  if decide (p = NULL) then None
  else match h !! p with
       | Some (BBytes bs) => Some bs
       | _ => None
       end.

(** A queued delivery record the drain can deliver: a live record whose
    buffer is null or a live byte buffer. *)
Definition item_ok (h : gmap N block) (item : N) : Prop :=
  match h !! item with
  | Some (BIdata d) => idata_buffer d = NULL \/ is_bytes h (idata_buffer d)
  | _ => False
  end.

Definition record_at (h : gmap N block) (item : N) : option InputInterruptData :=
  match h !! item with
  | Some (BIdata d) => Some d
  | _ => None
  end.

(** The non-null buffers of the queued records. *)
Definition queue_buffers (h : gmap N block) (q : list N) : list N :=
  filter (fun p => p <> NULL) (omap (fun item => idata_buffer <$> record_at h item) q).

(** The queue owns its records and their buffers: all live, no record and
    no buffer queued twice. *)
Definition queue_wf (h : gmap N block) (q : list N) : Prop :=
  Forall (item_ok h) q /\ NoDup q /\ NoDup (queue_buffers h q).

(** The callback invocation the drain owes to a queued record. *)
Definition callback_of (h : gmap N block) (item : N) : list event :=
  match record_at h item with
  | Some d =>
      [EvCallback (idata_cb d) (idata_hndl d) (idata_endpoint d) (idata_buffer d)
         (buffer_contents h (idata_buffer d)) (idata_userdata d)]
  | None => []
  end.

(** What the drain does for one queued record: the callback, then the
    release of the buffer and of the record. *)
Definition delivery (h : gmap N block) (item : N) : list event :=
  match record_at h item with
  | Some d =>
      callback_of h item
      ++ (if decide (idata_buffer d = NULL) then [] else [EvFree (idata_buffer d)])
      ++ [EvFree item]
  | None => []
  end.

(** The handle a queued record routes to. *)
Definition hndl_of (h : gmap N block) (item : N) : option N :=
  idata_hndl <$> record_at h item.

(** The queued records of a handle, and those of the other handles. *)
Definition queued_for (hndl : N) (h : gmap N block) (q : list N) : list N :=
  filter (fun item => hndl_of h item = Some hndl) q.
Definition queued_for_others (hndl : N) (h : gmap N block) (q : list N) : list N :=
  filter (fun item => hndl_of h item <> Some hndl) q.

Definition heap_wf (h : gmap N block) : Prop := h !! NULL = None.

#[global] Instance is_bytes_dec h p : Decision (is_bytes h p).
Proof. unfold is_bytes. destruct (h !! p) as [[]|]; apply _. Defined.
#[global] Instance item_ok_dec h item : Decision (item_ok h item).
Proof. unfold item_ok. destruct (h !! item) as [[]|]; apply _. Defined.
#[global] Instance queue_wf_dec h q : Decision (queue_wf h q).
Proof. unfold queue_wf. apply _. Defined.
#[global] Instance heap_wf_dec h : Decision (heap_wf h).
Proof. unfold heap_wf. apply _. Defined.

(** The buffer a request record owns, if it has one. *)
Definition own_buffer (d : InputInterruptData) : list N :=
  if decide (idata_buffer d = NULL) then [] else [idata_buffer d].

(** What libusb guarantees when it runs the completion callback on [t]:
    the transfer, its request record and its buffer are live, the buffer
    holds the bytes that arrived, and the queue owns its records. *)
Record completion_ready (w : World) (t : N) (tr : libusb_transfer)
    (d : InputInterruptData) (received : list Z) : Prop := {
  cr_heap : heap_wf (heap w);
  cr_transfer : heap w !! t = Some (BTransfer tr);
  cr_idata : heap w !! t_user_data tr = Some (BIdata d);
  cr_buffer : heap w !! t_buffer tr = Some (BBytes received);
  cr_actual : 0 <= t_actual_length tr <= Z.of_nat (length received);
  cr_own_buffer : idata_buffer d = NULL \/ is_bytes (heap w) (idata_buffer d);
  cr_queue : queue_wf (heap w) (scheduled_interupts w);
  cr_not_queued : t_user_data tr ∉ scheduled_interupts w;
  cr_buffer_private :
    idata_buffer d ∉ queue_buffers (heap w) (scheduled_interupts w)
}.

(** The world the out-of-memory path leaves behind, entered in world [w]
    with nothing of its own left to free: the records queued for the handle
    are dropped and freed, the callback runs once with a null buffer and
    the transfer's raw endpoint, and the request is torn down. *)
Definition oom_outcome (w : World) (t : N) (tr : libusb_transfer)
    (d : InputInterruptData) : World :=
  let gone := queued_for (idata_hndl d) (heap w) (scheduled_interupts w) in
  mkWorld (env w) (clock w)
    (foldr delete (heap w) ([t; t_user_data tr] ++ own_buffer d ++ gone))
    (queued_for_others (idata_hndl d) (heap w) (scheduled_interupts w))
    (trace w
     ++ [EvLog "input_interrupt_cb: out of memory"]
     ++ map EvFree gone
     ++ [EvCallback (idata_cb d) (idata_hndl d) (t_endpoint tr) NULL None
           (idata_userdata d)]
     ++ map EvFree (own_buffer d ++ [t_user_data tr; t])).

(** The addresses the completion handler gets for the delivery record and
    for the copy of the bytes when both allocations succeed. *)
Definition record_ptr (w : World) : N := fresh_ptr (heap w).
Definition copy_ptr (w : World) : N :=
  fresh_ptr (<[record_ptr w := BIdata (env_junk_idata (env w) (S (clock w)))]> (heap w)).

(** The world right after the completion handler has queued the copy of
    the received bytes and has tried to submit the transfer again. *)
Definition queued_world (w : World) (t : N) (tr : libusb_transfer)
    (d : InputInterruptData) (received : list Z) : World :=
  mkWorld (env w) (4 + clock w)
    (<[record_ptr w := BIdata (scheduled_record d tr (copy_ptr w))]>
       (<[copy_ptr w := BBytes (take (Z.to_nat (t_actual_length tr)) received)]>
          (heap w)))
    (scheduled_interupts w ++ [record_ptr w])
    (trace w ++ [EvListAllocate 2 true;
                 EvAlloc AllocIdata (record_ptr w);
                 EvAlloc (AllocBytes (t_actual_length tr)) (copy_ptr w);
                 EvSubmit t tr (env_ret (env w) (3 + clock w))]).

(** The address of the null-buffer record queued after a failed
    resubmission. *)
Definition failure_ptr (w : World) (t : N) (tr : libusb_transfer)
    (d : InputInterruptData) (received : list Z) : N :=
  fresh_ptr (heap (queued_world w t tr d received)).

(** The world after a failed resubmission whose null-buffer record was
    granted: that record is queued behind the copy, and the request record,
    its buffer and the transfer are released. *)
Definition resubmit_failed_world (w : World) (t : N) (tr : libusb_transfer)
    (d : InputInterruptData) (received : list Z) : World :=
  let w1 := queued_world w t tr d received in
  let p3 := failure_ptr w t tr d received in
  mkWorld (env w) (5 + clock w)
    (foldr delete (<[p3 := BIdata (failure_record d)]> (heap w1))
       ([t; t_user_data tr] ++ own_buffer d))
    (scheduled_interupts w1 ++ [p3])
    (trace w1 ++ [EvLog "input_interrupt_cb: %s"; EvAlloc AllocIdata p3]
              ++ map EvFree (own_buffer d ++ [t_user_data tr; t])).

Definition is_free (e : event) : bool :=
  match e with
  | EvFree _ => true
  | _ => false
  end.

(** The buffer an I/O event reads from or writes to, where it takes one by
    address. *)
Definition io_buffer (e : event) : option N :=
  match e with
  | EvControl _ _ _ _ _ buf _ _ _ => Some buf
  | EvHidRead _ buf _ _ _ => Some buf
  | _ => None
  end.

(** The heap with block [b] at [p], or unchanged when [p] is null. *)
Definition with_block (p : N) (b : block) (h : gmap N block) : gmap N block :=
  if decide (p = NULL) then h else <[p := b]> h.

(** ** Example worlds *)

(** An environment whose allocations, return codes and completions are
    given and whose other answers are fixed: a freshly allocated request
    record holds the garbage endpoint [0xC3] and the garbage length 2,
    every device answer is the bytes 1, 2, 3, one device is enumerated, at
    bus 1 and address 2, and the files of the syspath
    [/sys/bus/usb/devices/1-2] name that bus and address. *)
Definition example_env (alloc : nat -> bool) (ret : nat -> Z)
    (completions : nat -> list completion) : Env :=
  mkEnv alloc
    (fun _ => mkIdata 0 0 0xC3 0 2 0)
    (fun _ _ => 0xAA)
    ret
    (fun _ => [1; 2; 3])
    (fun _ => 7%N)
    completions
    (fun _ => [mkDevice 1 2])
    (fun path =>
       if String.eqb path "/sys/bus/usb/devices/1-2/busnum" then 1
       else if String.eqb path "/sys/bus/usb/devices/1-2/devnum" then 2
       else -1)
    (fun _ => (0, 0%nat))
    (fun s => s).

(** Handle 1 has a read loop running: request record 3 with buffer 2 and
    transfer 4, which has just received three bytes.  Three deliveries are
    queued: records 10 and 14 for handle 1, record 12 for handle 6.  Handle
    5 is a blocking-read handle opened for sub-interface 5. *)
Definition example_transfer : libusb_transfer := mkTransfer 7 0x81 2 4 3 3.
Definition example_request : InputInterruptData := mkIdata 100 1 0x55 2 0 200.

Definition example_heap : gmap N block :=
  <[1%N := BHandle (mkHandle USB 7 0)]>
  (<[2%N := BBytes [10; 20; 30; 40]]>
  (<[3%N := BIdata example_request]>
  (<[4%N := BTransfer example_transfer]>
  (<[5%N := BHandle (mkHandle HIDAPI 9 5)]>
  (<[6%N := BHandle (mkHandle USB 8 0)]>
  (<[10%N := BIdata (mkIdata 100 1 1 11 0 200)]>
  (<[11%N := BBytes [1; 2]]>
  (<[12%N := BIdata (mkIdata 101 6 2 13 0 201)]>
  (<[13%N := BBytes [9]]>
  (<[14%N := BIdata (mkIdata 100 1 1 NULL 0 200)]> ∅)))))))))).

Definition example_world (alloc : nat -> bool) (ret : nat -> Z) : World :=
  mkWorld (example_env alloc ret (fun _ => [])) 0 example_heap [10; 12; 14]%N [].

(** A world with nothing but the event-driven handle 1. *)
Definition fresh_world (alloc : nat -> bool) (ret : nat -> Z)
    (completions : nat -> list completion) : World :=
  mkWorld (example_env alloc ret completions) 0
    (<[1%N := BHandle (mkHandle USB 7 0)]> ∅) [] [].

(** Every call succeeds except the one with the given number. *)
Definition fails_at (n : nat) (err : Z) : nat -> Z :=
  fun k => if decide (k = n) then err else 0.

(** ** More vocabulary: opening, closing and the blocking-read tick *)

Definition is_device_list (e : event) : bool :=
  match e with
  | EvGetDeviceList _ => true
  | EvFreeDeviceList => true
  | _ => false
  end.


Definition is_log (e : event) : bool :=
  match e with
  | EvLog _ => true
  | _ => false
  end.

(** The device sits at this bus number and address, both 8 bits wide. *)
Definition at_address (bus address : Z) (d : libusb_device) : Prop :=
  uint8_t (d_bus d) = bus /\ uint8_t (d_address d) = address.

(** The libusb branch of [sccd_usb_dev_open_by_syspath] gets as far as
    its stores into the handle: the device list is obtained and holds a
    device at [bus] and [address], the block for the handle is granted and
    the native open succeeds. *)
Definition open_reaches_stores (w : World) (bus address : Z) : Prop :=
  ~ env_ret (env w) (clock w) < 0 /\
  Exists (at_address bus address) (env_devices (env w) (clock w)) /\
  env_alloc (env w) (1 + clock w) = true /\
  env_ret (env w) (2 + clock w) = 0.

(** What [sccd_usb_dev_open_by_syspath] has done when it returns [r] after
    looking for the device at [bus] and [address]: the device list is freed
    if it was obtained and the heap is as it was; a result that is not
    null is the address of the block that was obtained for a device at
    that bus and address and freed again when the native open failed. *)
Definition open_outcome (bus address : Z) (w : World) (r : N) (w' : World)
    (delta : list event) : Prop :=
  (filter is_device_list delta = [] \/
   (exists err, err < 0 /\ filter is_device_list delta = [EvGetDeviceList err]) \/
   (exists n, 0 <= n /\
      filter is_device_list delta = [EvGetDeviceList n; EvFreeDeviceList])) /\
  heap w' = heap w /\
  (r <> NULL ->
   heap w !! r = None /\
   exists d,
     at_address bus address d /\
     EvOpen USB (inr (d_bus d, d_address d)) NULL ∈ delta /\
     EvFree r ∈ delta).



(** Nothing happened but calls to the outside and log entries. *)
Definition quiet (w w' : World) : Prop :=
  env w' = env w /\ heap w' = heap w /\ scheduled_interupts w' = scheduled_interupts w /\
  exists delta, trace w' = trace w ++ delta /\ Forall is_log delta.

(** ** Descriptors, interface claims and the device monitor

    The calls of this part go to libusb's descriptor and claim functions,
    to hidapi's enumeration and to the daemon's device monitor.  They are
    recorded in a journal of their own, threaded through the code. *)

Definition LIBUSB_ERROR_NOT_FOUND : Z := -5.

(** The fields of [struct libusb_interface_descriptor] the code reads. *)
Record libusb_interface_descriptor := mkAltsetting {
  bInterfaceNumber : Z;
  bInterfaceClass : Z;
  bInterfaceSubClass : Z;
  bInterfaceProtocol : Z
}.

(** [struct libusb_interface]: the array of alternate settings and its
    count, an [int]. *)
Record libusb_interface := mkInterface {
  altsetting : list libusb_interface_descriptor;
  num_altsetting : Z
}.

(** [struct libusb_config_descriptor]: the count of interfaces, a
    [uint8_t], and their array. *)
Record libusb_config_descriptor := mkConfig {
  bNumInterfaces : Z;
  interface : list libusb_interface
}.

(** The fields of [struct libusb_device_descriptor] the code reads. *)
Record libusb_device_descriptor := mkDeviceDescriptor {
  idVendor : Z;
  idProduct : Z
}.

(** One entry of the list [hid_enumerate] returns. *)
Record hid_device_info := mkHidDeviceInfo {
  hid_path : string;
  vendor_id : Z;
  product_id : Z;
  interface_number : Z
}.

(** What the host knows of its devices without asking them again: for a
    device and a configuration index the result of
    [libusb_get_config_descriptor] with the descriptor it hands out, for
    an enumerated device the result of [libusb_get_device_descriptor],
    and the devices [hid_enumerate] lists.  The last field is
    [scc_path_fix_slashes] of the string utilities, a function from
    strings to strings of which nothing else is assumed. *)
Record Host := mkHost {
  host_config_descriptor : N -> Z -> Z * libusb_config_descriptor;
  host_device_descriptor : libusb_device -> Z * libusb_device_descriptor;
  host_hid_enumerate : list hid_device_info;
  host_path_fix_slashes : string -> string
}.

(** The calls the journal records. *)
Inductive call :=
| CallGetConfigDescriptor (dev : N) (config_index : Z) (err : Z)
| CallFreeConfigDescriptor (dev : N) (config_index : Z)
| CallClaimInterface (usb : N) (interface_number : Z) (err : Z)
| CallNewDevice (syspath : string) (sys : Subsystem) (vendor product : Z) (idx : Z)
| CallHidEnumerate (vendor product : Z)
| CallHidFreeEnumeration.

#[global] Instance call_eq_dec : EqDecision call.
Proof. solve_decision. Defined.

(** The journal monad: [M] with the journal of calls threaded through. *)
Definition J (A : Type) : Type := list call -> M (A * list call).

Definition jret {A} (a : A) : J A := fun j => ret (a, j).
Definition jbind {A B} (m : J A) (k : A -> J B) : J B :=
  fun j => r <- m j ;; k (fst r) (snd r).
Definition lift {A} (m : M A) : J A := fun j => a <- m ;; ret (a, j).
Definition record (c : call) : J unit := fun j => ret (tt, j ++ [c]).

Notation "x <~ m ;; k" := (jbind m (fun x => k))
  (at level 100, m at next level, right associativity).
Notation "m ;;; k" := (jbind m (fun _ => k))
  (at level 100, right associativity).

Definition libusb_get_config_descriptor (host : Host) (dev : N) (config_index : Z)
  : J (Z * libusb_config_descriptor) :=
  let r := host_config_descriptor host dev config_index in
  record (CallGetConfigDescriptor dev config_index (fst r)) ;;;
  jret r.

Definition libusb_free_config_descriptor (dev : N) (config_index : Z) : J unit :=
  record (CallFreeConfigDescriptor dev config_index).

Definition libusb_claim_interface (usb : N) (interface_number : Z) : J Z :=
  n <~ lift call_ext ;;
  err <~ lift (oracle (fun e => env_ret e n)) ;;
  record (CallClaimInterface usb interface_number err) ;;;
  jret err.

(** The innermost loop of [sccd_usb_dev_claim_interfaces_by],
    [for (uint8_t m=0; m<ifc->num_altsetting; m++)], entered with counter
    [m] and the claims counted so far.  [fuel] bounds the iterations;
    [None] says the loop did not end within it. *)
Fixpoint claim_altsettings (fuel : nat) (usb : N) (ifc : libusb_interface)
    (cls subclass protocol : Z) (m : Z) (count : Z) : J (option Z) :=
  match fuel with
  | O => jret None
  | S fuel' =>
      if decide (m < num_altsetting ifc) then
        match altsetting ifc !! Z.to_nat m with
        | None => lift undefined
        | Some alt =>
            count' <~
              (if decide (bInterfaceClass alt = cls /\ bInterfaceSubClass alt = subclass /\
                          bInterfaceProtocol alt = protocol)
               then
                 err <~ libusb_claim_interface usb (bInterfaceNumber alt) ;;
                 if decide (err <> 0) then
                   lift (LERROR "libusb_claim_interface: %s") ;;;
                   jret count
                 else jret (count + 1)
               else jret count) ;;
            claim_altsettings fuel' usb ifc cls subclass protocol (uint8_t (m + 1)) count'
        end
      else jret (Some count)
  end.

(** [for (uint8_t n=0; n<desc->bNumInterfaces; n++)]. *)
Fixpoint claim_interfaces (fuel inner : nat) (usb : N) (desc : libusb_config_descriptor)
    (cls subclass protocol : Z) (n : Z) (count : Z) : J (option Z) :=
  match fuel with
  | O => jret None
  | S fuel' =>
      if decide (n < bNumInterfaces desc) then
        match interface desc !! Z.to_nat n with
        | None => lift undefined
        | Some ifc =>
            r <~ claim_altsettings inner usb ifc cls subclass protocol 0 count ;;
            match r with
            | None => jret None
            | Some count' =>
                claim_interfaces fuel' inner usb desc cls subclass protocol
                  (uint8_t (n + 1)) count'
            end
        end
      else jret (Some count)
  end.

(** [for (uint8_t i=0; ; i++)]: the result is the value the function
    returns, the count at the [break] or 0 after a failed read. *)
Fixpoint claim_configurations (fuel inner : nat) (host : Host) (usb : N)
    (cls subclass protocol : Z) (i : Z) (count : Z) : J (option Z) :=
  match fuel with
  | O => jret None
  | S fuel' =>
      r <~ libusb_get_config_descriptor host usb i ;;
      let '(err, desc) := r in
      if decide (err = LIBUSB_ERROR_NOT_FOUND) then jret (Some count)
      else if decide (err <> 0) then
        lift (LERROR "libusb_get_config_descriptor: %s") ;;;
        jret (Some 0)
      else
        r <~ claim_interfaces inner inner usb desc cls subclass protocol 0 count ;;
        match r with
        | None => jret None
        | Some count' =>
            libusb_free_config_descriptor usb i ;;;
            claim_configurations fuel' inner host usb cls subclass protocol
              (uint8_t (i + 1)) count'
        end
  end.

Definition sccd_usb_dev_claim_interfaces_by (fuel : nat) (host : Host) (hndl : N)
    (cls subclass protocol : Z) : J (option Z) :=
  h <~ lift (load_handle hndl) ;;
  if decide (h_sys h = HIDAPI) then jret (Some 1)
  else if decide (h_sys h <> USB) then
    lift (LERROR "not implemented: sccd_usb_dev_claim_interfaces_by called on device of subsystem %i") ;;;
    jret (Some 0)
  else claim_configurations fuel fuel host (h_dev h) cls subclass protocol 0 0.

(** *** Rescanning, on Windows *)

(** The conversion [%x] of [printf], for the values the code prints. *)
Definition printf_x (n : Z) : string :=
  match n with
  | Zpos p => HexString.Raw.of_pos p EmptyString
  | _ => "0"
  end.

(** [snprintf] into a buffer of [size] bytes keeps [size - 1]
    characters. *)
Definition snprintf (size : nat) (text : string) : string :=
  String.substring 0 (size - 1) text.

(** Modelled from the spec: device discovery is an outside collaborator; a
    call of [sccd_device_monitor_new_device] is recorded with its
    arguments. *)
Definition sccd_device_monitor_new_device (syspath : string) (sys : Subsystem)
    (vendor product idx : Z) : J unit :=
  record (CallNewDevice syspath sys vendor product idx).

Definition libusb_get_device_descriptor (host : Host) (d : libusb_device)
  : J (Z * libusb_device_descriptor) :=
  jret (host_device_descriptor host d).

(** The syspath [sccd_usb_rescan] makes up for a device. *)
Definition fake_usb_syspath (d : libusb_device) : string :=
  snprintf 1024 ("/win32/usb/" +:+ printf_x (uint8_t (d_bus d)) +:+ "/"
                 +:+ printf_x (uint8_t (d_address d))).

(** The [for] loop of [sccd_usb_rescan] over the device list. *)
Fixpoint usb_rescan_devices (host : Host) (devs : list libusb_device) : J unit :=
  match devs with
  | [] => jret tt
  | d :: rest =>
      r <~ libusb_get_device_descriptor host d ;;
      let '(err, desc) := r in
      (if decide (0 <> err) then jret tt
       else
         sccd_device_monitor_new_device (fake_usb_syspath d) USB
           (idVendor desc) (idProduct desc) 0) ;;;
      usb_rescan_devices host rest
  end.

Definition sccd_usb_rescan (host : Host) : J unit :=
  l <~ lift libusb_get_device_list ;;
  let '(count, list) := l in
  usb_rescan_devices host (default [] list) ;;;
  lift (emit EvFreeDeviceList).

(** The [while] loop of [sccd_hidapi_rescan] over the enumeration. *)
Fixpoint hidapi_rescan_devices (host : Host) (devs : list hid_device_info) : J unit :=
  match devs with
  | [] => jret tt
  | dev :: rest =>
      let fake_syspath_buffer :=
        host_path_fix_slashes host (snprintf 1024 ("/hidapi" +:+ hid_path dev)) in
      sccd_device_monitor_new_device fake_syspath_buffer HIDAPI
        (vendor_id dev) (product_id dev) (interface_number dev) ;;;
      hidapi_rescan_devices host rest
  end.

Definition sccd_hidapi_rescan (host : Host) : J unit :=
  record (CallHidEnumerate 0 0) ;;;
  hidapi_rescan_devices host (host_hid_enumerate host) ;;;
  record CallHidFreeEnumeration.

(** *** [strtol] with base 16, as the C standard describes it

    White space is skipped, a sign and the prefix [0x] are optional, the
    longest run of hexadecimal digits is the value, and a value out of
    the range of [long], 32 bits in this configuration, is clamped.  The
    second component is the number of characters consumed, 0 when there
    is no digit. *)

Definition isspace (a : Ascii.ascii) : bool :=
  bool_decide (Ascii.N_of_ascii a ∈ [32; 9; 10; 11; 12; 13]%N).

Fixpoint skip_space (s : string) : string * nat :=
  match s with
  | String a s' =>
      if isspace a then let '(r, n) := skip_space s' in (r, S n) else (s, 0%nat)
  | EmptyString => (s, 0%nat)
  end.

Fixpoint hex_value (s : string) (acc : Z) (n : nat) : Z * nat :=
  match s with
  | String a s' =>
      match HexString.ascii_to_digit a with
      | Some v => hex_value s' (16 * acc + Z.of_N v) (S n)
      | None => (acc, n)
      end
  | EmptyString => (acc, n)
  end.

Definition LONG_MAX : Z := 2 ^ 31 - 1.
Definition LONG_MIN : Z := - 2 ^ 31.

Definition is_char (code : nat) (a : Ascii.ascii) : bool :=
  bool_decide (a = Ascii.ascii_of_nat code).

Definition strtol16 (s : string) : Z * nat :=
  let '(s1, n1) := skip_space s in
  let '(negative, s2, n2) :=
    match s1 with
    | String a r =>
        if is_char 45 a then (true, r, 1%nat)
        else if is_char 43 a then (false, r, 1%nat)
        else (false, s1, 0%nat)
    | EmptyString => (false, s1, 0%nat)
    end in
  let '(s3, n3) :=
    match s2 with
    | String z (String x r) =>
        if is_char 48 z && (is_char 120 x || is_char 88 x) then
          match r with
          | String a _ =>
              if bool_decide (is_Some (HexString.ascii_to_digit a)) then (r, 2%nat)
              else (s2, 0%nat)
          | EmptyString => (s2, 0%nat)
          end
        else (s2, 0%nat)
    | _ => (s2, 0%nat)
    end in
  let '(v, digits) := hex_value s3 0 0 in
  if decide (digits = 0%nat) then (0, 0%nat)
  else (Z.max LONG_MIN (Z.min LONG_MAX (if negative : bool then - v else v)),
        (n1 + n2 + n3 + digits)%nat).

(** A string of hexadecimal digits. *)
Fixpoint all_hex (s : string) : bool :=
  match s with
  | String a s' => bool_decide (is_Some (HexString.ascii_to_digit a)) && all_hex s'
  | EmptyString => true
  end.

(** What may follow a number for [strtol] to stop there: nothing, or a
    character that is neither a digit nor the [x] of a prefix. *)
Definition stops (t : string) : Prop :=
  match t with
  | String c _ =>
      HexString.ascii_to_digit c = None /\ is_char 120 c = false /\ is_char 88 c = false
  | EmptyString => True
  end.

(** *** Vocabulary *)

Definition matches (cls subclass protocol : Z) (alt : libusb_interface_descriptor) : Prop :=
  bInterfaceClass alt = cls /\ bInterfaceSubClass alt = subclass /\
  bInterfaceProtocol alt = protocol.

#[global] Instance matches_dec cls subclass protocol alt :
  Decision (matches cls subclass protocol alt).
Proof. unfold matches. apply _. Defined.

(** The interface numbers of the matching alternate settings of a
    configuration, interface by interface. *)
Definition matching_altsettings (cls subclass protocol : Z)
    (desc : libusb_config_descriptor) : list Z :=
  bInterfaceNumber <$>
    filter (matches cls subclass protocol) (concat (altsetting <$> interface desc)).

(** The descriptors libusb hands out: the counts are the lengths of the
    arrays, and they fit the 8-bit loop counters. *)
Definition interface_ok (ifc : libusb_interface) : Prop :=
  num_altsetting ifc = Z.of_nat (length (altsetting ifc)) /\ num_altsetting ifc <= 255.
Definition config_ok (desc : libusb_config_descriptor) : Prop :=
  bNumInterfaces desc = Z.of_nat (length (interface desc)) /\ bNumInterfaces desc <= 255 /\
  Forall interface_ok (interface desc).

(** The configurations a device shows to the walk from index [i0] on:
    readable for [k] indices, then the read fails. *)
Definition readable_until (host : Host) (usb : N) (i0 k : nat) : Prop :=
  (forall i, (i0 <= i < i0 + k)%nat ->
     fst (host_config_descriptor host usb (Z.of_nat i)) = 0 /\
     config_ok (snd (host_config_descriptor host usb (Z.of_nat i)))) /\
  fst (host_config_descriptor host usb (Z.of_nat (i0 + k))) <> 0.

Definition claim_attempt (c : call) : option Z :=
  match c with
  | CallClaimInterface _ n _ => Some n
  | _ => None
  end.
Definition is_claimed (c : call) : bool :=
  match c with
  | CallClaimInterface _ _ err => bool_decide (err = 0)
  | _ => false
  end.
Definition successful_claims (calls : list call) : Z :=
  Z.of_nat (length (filter is_claimed calls)).
Definition descriptor_obtained (c : call) : option Z :=
  match c with
  | CallGetConfigDescriptor _ i err => if decide (err = 0) then Some i else None
  | _ => None
  end.
Definition descriptor_freed (c : call) : option Z :=
  match c with
  | CallFreeConfigDescriptor _ i => Some i
  | _ => None
  end.

(** The check that [printf_x] of a value gives one or two hexadecimal
    digits that read back as the value. *)
Definition printf_x_check (b : Z) : bool :=
  all_hex (printf_x b) && negb (String.eqb (printf_x b) EmptyString)
  && bool_decide (hex_value (printf_x b) 0 0 = (b, String.length (printf_x b)))
  && bool_decide (String.length (printf_x b) <= 2)%nat.

(** The devices [libusb_get_device_list] hands out at the next call to the
    outside: none when it fails. *)
Definition enumerated (w : World) : list libusb_device :=
  if decide (env_ret (env w) (clock w) < 0) then [] else env_devices (env w) (clock w).

(** The device descriptor of the device can be read. *)
Definition readable (host : Host) (d : libusb_device) : Prop :=
  fst (host_device_descriptor host d) = 0.

#[global] Instance readable_dec host d : Decision (readable host d).
Proof. unfold readable. apply _. Defined.

(** The report [sccd_usb_rescan] makes of a device whose descriptor it
    could read. *)
Definition usb_report (host : Host) (d : libusb_device) : call :=
  CallNewDevice (fake_usb_syspath d) USB
    (idVendor (snd (host_device_descriptor host d)))
    (idProduct (snd (host_device_descriptor host d))) 0.

Definition hidapi_report (host : Host) (dev : hid_device_info) : call :=
  CallNewDevice (host_path_fix_slashes host (snprintf 1024 ("/hidapi" +:+ hid_path dev)))
    HIDAPI (vendor_id dev) (product_id dev) (interface_number dev).

(** *** The state of the event backend between calls *)

(** A read loop is pending on transfer [t]: the transfer, its request
    record and its buffer are live, the record owns the buffer of the
    transfer, the buffer has room for the length asked for, and neither
    the record nor the buffer is in the queue. *)
Definition pending (h : gmap N block) (q : list N) (t : N) : Prop :=
  exists tr d bs,
    h !! t = Some (BTransfer tr) /\
    h !! t_user_data tr = Some (BIdata d) /\
    h !! t_buffer tr = Some (BBytes bs) /\
    idata_buffer d = t_buffer tr /\
    0 <= t_length tr <= Z.of_nat (length bs) /\
    (t_user_data tr ∉ q) /\
    (t_buffer tr ∉ queue_buffers h q).

(** Two transfers share neither their request record nor their buffer. *)
Definition apart (h : gmap N block) (t1 t2 : N) : Prop :=
  forall tr1 tr2,
    h !! t1 = Some (BTransfer tr1) -> h !! t2 = Some (BTransfer tr2) ->
    t_user_data tr1 <> t_user_data tr2 /\ t_buffer tr1 <> t_buffer tr2.

(** The state the event backend keeps between calls, with read loops
    pending on the transfers [P]. *)
Definition loops_wf (w : World) (P : list N) : Prop :=
  heap_wf (heap w) /\
  queue_wf (heap w) (scheduled_interupts w) /\
  NoDup P /\
  Forall (pending (heap w) (scheduled_interupts w)) P /\
  (forall t1 t2, t1 ∈ P -> t2 ∈ P -> t1 <> t2 -> apart (heap w) t1 t2).


(** *** More example worlds *)

(** The example heap with nothing queued. *)
Definition idle_world (alloc : nat -> bool) (ret : nat -> Z)
    (completions : nat -> list completion) : World :=
  mkWorld (example_env alloc ret completions) 0 example_heap [] [].

(** A blocking-read loop is registered on handle 5: request record 20,
    reading up to 4 bytes into buffer 2. *)
Definition example_loop : InputInterruptData := mkIdata 100 5 3 2 4 200.
Definition reading_world (ret : nat -> Z) : World :=
  mkWorld (example_env (fun _ => true) ret (fun _ => [])) 0
    (<[20%N := BIdata example_loop]> example_heap) [] [].

(** An environment whose [strtol] is the C library's. *)
Definition with_libc (e : Env) : Env :=
  mkEnv (env_alloc e) (env_junk_idata e) (env_junk_byte e) (env_ret e)
    (env_bytes e) (env_native e) (env_completions e) (env_devices e)
    (env_read_long_from_file e) strtol16 (env_path_break_slashes e).

Definition windows_world (devs : list libusb_device) : World :=
  mkWorld (with_libc (mkEnv (fun _ => true) (fun _ => mkIdata 0 0 0xC3 0 2 0)
                        (fun _ _ => 0xAA)
                        (fun _ => 0) (fun _ => [1; 2; 3]) (fun _ => 7%N) (fun _ => [])
                        (fun _ => devs) (fun _ => -1) (fun _ => (0, 0%nat)) (fun s => s)))
    0 ∅ [] [].

(** Device 7 has one configuration with two interfaces; the first has two
    alternate settings of class 3, the second one of class 255. *)
Definition example_config : libusb_config_descriptor :=
  mkConfig 2
    [mkInterface [mkAltsetting 0 3 0 0; mkAltsetting 0 3 0 0] 2;
     mkInterface [mkAltsetting 1 255 93 1] 1].

Definition example_host : Host :=
  mkHost
    (fun dev i =>
       if decide (dev = 7%N /\ i = 0) then (0, example_config)
       else (LIBUSB_ERROR_NOT_FOUND, mkConfig 0 []))
    (fun d => if decide (d_bus d = 3) then (-1, mkDeviceDescriptor 0 0)
              else (0, mkDeviceDescriptor 0x28de 0x1142))
    [mkHidDeviceInfo "\\?\hid#vid_28de&pid_1142&mi_02" 0x28de 0x1142 2]
    (fun s => s).

(** * Properties *)

(** ** Running the primitives *)

Create HintDb run discriminated.
#[local] Hint Unfold bind ret undefined call_ext oracle emit LERROR WARN
  get_heap put_heap get_scheduled put_scheduled schedule
  load_bytes load_idata load_handle load_transfer store memcpy
  store_handle store_handle_idx
  alloc malloc malloc_idata malloc_handle
  list_allocate list_add list_len list_clear
  set_clock set_heap set_scheduled set_trace : run.

Ltac run :=
  repeat (progress (autounfold with run in *;
      cbn [negb andb orb env clock heap scheduled_interupts trace fst snd
           t_dev_handle t_endpoint t_buffer t_length t_actual_length t_user_data
           h_sys h_dev h_idx] in *)).

Ltac map_lookup :=
  repeat first [ rewrite lookup_insert_eq
               | rewrite lookup_insert_ne by congruence
               | rewrite lookup_delete_eq
               | rewrite lookup_delete_ne by congruence ].

(** Two heaps built by inserts at the listed addresses agree. *)
Ltac map_eq_cases ps :=
  let a := fresh "a" in
  apply map_eq; intros a;
  let rec go ps :=
    lazymatch ps with
    | nil => idtac
    | cons ?p ?ps' =>
        destruct (decide (a = p)) as [->|?]; [map_lookup; try done | go ps']
    end in
  go ps; map_lookup; try done.

Ltac failure_found :=
  simpl; rewrite ?(bool_decide_true (NULL = NULL)) by done; simpl;
  rewrite ?orb_true_r; done.

Ltac each_event :=
  repeat (apply Forall_cons_2; [simpl; first [by left | by right | done]|]);
  apply Forall_nil_2.

Lemma bind_run {A B} (m : M A) (k : A -> M B) w a w' :
  m w = Some (a, w') -> bind m k w = k a w'.
Proof. intros H. unfold bind. now rewrite H. Qed.

Lemma free_null w : free NULL w = Some (tt, w).
Proof. reflexivity. Qed.

Lemma free_live p b w :
  p <> NULL -> heap w !! p = Some b ->
  free p w = Some (tt, set_trace (trace w ++ [EvFree p]) (set_heap (delete p (heap w)) w)).
Proof.
  intros Hp Hb. destruct w as [e c h q tr]; simpl in *.
  unfold free. destruct (decide (p = NULL)); [done|].
  run. now rewrite Hb.
Qed.

Lemma live_not_null (h : gmap N block) p b :
  h !! NULL = None -> h !! p = Some b -> p <> NULL.
Proof. intros H0 Hp ->. congruence. Qed.

(** ** The drain *)

(** The heap once a queued record and its buffer are released. *)
Definition release (h : gmap N block) (item : N) : gmap N block :=
  match record_at h item with
  | Some d =>
      delete item (if decide (idata_buffer d = NULL) then h
                   else delete (idata_buffer d) h)
  | None => h
  end.

Lemma item_ok_inv h item :
  item_ok h item ->
  exists d, h !! item = Some (BIdata d) /\
    (idata_buffer d = NULL \/ exists bs, h !! idata_buffer d = Some (BBytes bs)).
Proof.
  unfold item_ok, is_bytes. destruct (h !! item) as [[]|] eqn:E; try done.
  intros [H|H]; eexists; split; eauto.
  destruct (h !! idata_buffer d) as [[]|] eqn:E'; try done. eauto.
Qed.

Lemma deliver_scheduled_run w item :
  heap_wf (heap w) -> item_ok (heap w) item ->
  deliver_scheduled item w =
    Some (tt, set_trace (trace w ++ delivery (heap w) item)
                (set_heap (release (heap w) item) w)).
Proof.
  intros Hwf (d & Hd & Hb)%item_ok_inv. destruct w as [e c h q tr]; simpl in *.
  assert (Hne : item <> NULL) by (eapply live_not_null; eauto).
  unfold deliver_scheduled, delivery, callback_of, release, record_at,
    buffer_contents, load_idata, call_cb.
  run. rewrite Hd. run.
  destruct (decide (idata_buffer d = NULL)) as [E|E].
  - run. rewrite E, free_null. run.
    erewrite free_live by (simpl; eauto). run.
    now rewrite <- !app_assoc.
  - destruct Hb as [Hb|[bs Hb]]; [done|].
    unfold load_bytes. run. rewrite Hb. run.
    erewrite free_live by (simpl; eauto). run.
    assert (idata_buffer d <> item) by congruence.
    erewrite free_live; [|done|simpl; rewrite lookup_delete_ne; eauto].
    run. now rewrite <- !app_assoc.
Qed.

Lemma release_lookup_other h item a :
  a <> item ->
  (forall d, record_at h item = Some d -> idata_buffer d <> NULL ->
     a <> idata_buffer d) ->
  release h item !! a = h !! a.
Proof.
  intros Ha Hb. unfold release. destruct (record_at h item) as [d|]; [|done].
  rewrite lookup_delete_ne by done.
  destruct (decide (idata_buffer d = NULL)); [done|].
  rewrite lookup_delete_ne; [done|]. intros E. now apply (Hb d).
Qed.

Lemma release_lookup_gone h item a d :
  h !! item = Some (BIdata d) ->
  a = item \/ (a = idata_buffer d /\ a <> NULL) ->
  release h item !! a = None.
Proof.
  intros Hd Ha. unfold release, record_at. rewrite Hd.
  destruct (decide (a = item)) as [->|Hne]; [apply lookup_delete_eq|].
  rewrite lookup_delete_ne by done. destruct Ha as [|[-> Hn]]; [done|].
  destruct (decide (idata_buffer d = NULL)); [done|]. apply lookup_delete_eq.
Qed.

Lemma queue_buffers_cons h item q :
  queue_buffers h (item :: q) =
    match record_at h item with
    | Some d => if decide (idata_buffer d = NULL) then queue_buffers h q
                else idata_buffer d :: queue_buffers h q
    | None => queue_buffers h q
    end.
Proof.
  unfold queue_buffers. simpl. destruct (record_at h item) as [d|]; simpl; [|done].
  rewrite filter_cons. destruct (decide (idata_buffer d <> NULL)) as [E|E];
    destruct (decide (idata_buffer d = NULL)); done.
Qed.

Lemma elem_of_queue_buffers h q b :
  b ∈ queue_buffers h q <->
  b <> NULL /\ exists item d, item ∈ q /\ record_at h item = Some d /\ idata_buffer d = b.
Proof.
  unfold queue_buffers. rewrite list_elem_of_filter, list_elem_of_omap.
  split.
  - intros [Hb (item & Hi & Hr)]. split; [done|].
    destruct (record_at h item) as [d|] eqn:E; simplify_eq/=. eauto.
  - intros [Hb (item & d & Hi & Hr & <-)]. split; [done|].
    exists item. split; [done|]. now rewrite Hr.
Qed.

(** Releasing the head of a well-formed queue leaves the rest as it was. *)
Lemma queue_wf_tail h item q :
  queue_wf h (item :: q) ->
  queue_wf (release h item) q /\
  (forall item', item' ∈ q -> record_at (release h item) item' = record_at h item') /\
  (forall item' d', item' ∈ q -> record_at h item' = Some d' ->
     buffer_contents (release h item) (idata_buffer d') = buffer_contents h (idata_buffer d')).
Proof.
  intros (Hall & Hnd & Hbuf).
  apply Forall_cons in Hall as [Hitem Hall]. apply NoDup_cons in Hnd as [Hnin Hnd].
  apply item_ok_inv in Hitem as (d & Hd & Hb).
  assert (Hrec : record_at h item = Some d) by (unfold record_at; now rewrite Hd).
  rewrite queue_buffers_cons, Hrec in Hbuf.
  assert (Hother : forall item', item' ∈ q ->
            release h item !! item' = h !! item').
  { intros item' Hin. apply release_lookup_other.
    - intros ->. done.
    - intros d0 Hd0 Hn E. assert (d0 = d) as -> by congruence.
      rewrite Forall_forall in Hall. apply Hall, item_ok_inv in Hin as (d' & Hd' & _).
      destruct Hb as [Hb|[bs Hb]]; congruence. }
  assert (Hrecs : forall item', item' ∈ q ->
            record_at (release h item) item' = record_at h item').
  { intros item' Hin. unfold record_at. now rewrite Hother. }
  assert (Hbufs : forall item' d', item' ∈ q -> record_at h item' = Some d' ->
            idata_buffer d' <> NULL ->
            release h item !! idata_buffer d' = h !! idata_buffer d').
  { intros item' d' Hin Hd' Hn. apply release_lookup_other.
    - intros E. rewrite Forall_forall in Hall.
      apply Hall, item_ok_inv in Hin as (d2 & Hd2 & [Hb2|[bs2 Hb2]]);
        unfold record_at in Hd'; rewrite Hd2 in Hd'; simplify_eq; congruence.
    - intros d0 Hd0 En E. assert (d0 = d) as -> by congruence.
      destruct (decide (idata_buffer d = NULL)); [done|].
      apply NoDup_cons in Hbuf as [Hnb _]. apply Hnb. rewrite <- E.
      apply elem_of_queue_buffers. split; [done|]. eauto. }
  split; [|split].
  - split; [|split].
    + rewrite Forall_forall in *. intros item' Hin.
      specialize (Hall _ Hin). unfold item_ok, is_bytes in *.
      rewrite Hother by done.
      destruct (h !! item') as [[| d' | |]|] eqn:E; try done.
      destruct Hall as [Hn|Hl]; [now left|].
      destruct (decide (idata_buffer d' = NULL)) as [En|En]; [now left|right].
      rewrite (Hbufs item' d'); [done|done| |done].
      unfold record_at. now rewrite E.
    + done.
    + assert (queue_buffers (release h item) q = queue_buffers h q) as ->.
      { unfold queue_buffers. f_equal. apply list_omap_ext, Forall_Forall2_diag.
        apply Forall_forall. intros item' Hin. now rewrite Hrecs. }
      destruct (decide (idata_buffer d = NULL)); [done|].
      now apply NoDup_cons in Hbuf as [_ ?].
  - done.
  - intros item' d' Hin Hd'. unfold buffer_contents.
    destruct (decide (idata_buffer d' = NULL)); [done|].
    now rewrite (Hbufs item' d').
Qed.

Lemma foreach_deliver q : forall w,
  heap_wf (heap w) -> queue_wf (heap w) q ->
  exists h',
    FOREACH_IN q deliver_scheduled w =
      Some (tt, set_trace (trace w ++ concat (map (delivery (heap w)) q)) (set_heap h' w)) /\
    heap_wf h' /\
    h' = foldr delete (heap w) (q ++ queue_buffers (heap w) q).
Proof.
  induction q as [|item q IH]; intros w Hwf Hq.
  - exists (heap w). destruct w; simpl. rewrite app_nil_r. done.
  - destruct (queue_wf_tail _ _ _ Hq) as (Hq' & Hrecs & Hbufs).
    destruct Hq as (Hall & Hnd & Hbuf). apply Forall_cons in Hall as [Hitem Hall].
    pose proof (deliver_scheduled_run w item Hwf Hitem) as Hrun.
    apply item_ok_inv in Hitem as (d & Hd & Hb).
    set (w1 := set_trace (trace w ++ delivery (heap w) item)
                 (set_heap (release (heap w) item) w)) in *.
    assert (Hwf1 : heap_wf (heap w1)).
    { unfold heap_wf. simpl. unfold release, record_at. rewrite Hd.
      unfold heap_wf in Hwf.
      destruct (decide (idata_buffer d = NULL));
        rewrite ?lookup_delete_None; tauto. }
    destruct (IH w1 Hwf1 Hq') as (h' & Hrest & Hwf' & Hh').
    exists h'. split; [|split; [done|]].
    + simpl. erewrite bind_run by exact Hrun. rewrite Hrest.
      assert (map (delivery (heap w1)) q = map (delivery (heap w)) q) as ->.
      { apply map_ext_in. intros item' Hin%list_elem_of_In.
        unfold delivery, callback_of. simpl heap. rewrite Hrecs by done.
        destruct (record_at _ item') as [d'|] eqn:E; [|done].
        now rewrite (Hbufs item' d'). }
      destruct w; simpl. now rewrite <- app_assoc.
    + rewrite Hh'. simpl heap.
      assert (queue_buffers (release (heap w) item) q = queue_buffers (heap w) q) as ->.
      { unfold queue_buffers. f_equal. apply list_omap_ext, Forall_Forall2_diag.
        apply Forall_forall. intros item' Hin. now rewrite Hrecs. }
      apply map_eq. intros a.
      assert (Hrec : record_at (heap w) item = Some d)
        by (unfold record_at; now rewrite Hd).
      rewrite queue_buffers_cons, Hrec.
      destruct (decide (a ∈ q ++ queue_buffers (heap w) q)) as [Hin|Hnin].
      * rewrite !lookup_foldr_delete; [done| |done].
        destruct (decide (idata_buffer d = NULL)); set_solver.
      * rewrite lookup_foldr_delete_not_elem_of by done.
        destruct (decide (a = item)) as [->|Hai].
        { rewrite lookup_foldr_delete by set_solver.
          eapply release_lookup_gone; eauto. }
        destruct (decide (idata_buffer d = NULL)) as [En|En].
        { rewrite lookup_foldr_delete_not_elem_of by set_solver.
          apply release_lookup_other; [done|]. intros d0 ? ?. congruence. }
        destruct (decide (a = idata_buffer d)) as [->|Hab].
        { rewrite lookup_foldr_delete by set_solver.
          eapply release_lookup_gone; eauto. }
        rewrite lookup_foldr_delete_not_elem_of by set_solver.
        apply release_lookup_other; [done|]. intros d0 ? ?. congruence.
Qed.

Lemma callbacks_app tr1 tr2 : callbacks (tr1 ++ tr2) = callbacks tr1 ++ callbacks tr2.
Proof. apply filter_app. Qed.

Lemma callbacks_deliveries h q :
  Forall (item_ok h) q ->
  exists records,
    Forall2 (fun item d => h !! item = Some (BIdata d)) q records /\
    callbacks (concat (map (delivery h) q)) =
      map (fun d => EvCallback (idata_cb d) (idata_hndl d) (idata_endpoint d)
                      (idata_buffer d) (buffer_contents h (idata_buffer d))
                      (idata_userdata d)) records.
Proof.
  induction 1 as [|item q Hitem _ (records & Hrec & Hcb)].
  - exists []. split; [constructor|done].
  - apply item_ok_inv in Hitem as (d & Hd & _).
    exists (d :: records). split; [now constructor|].
    simpl. rewrite callbacks_app, Hcb.
    unfold delivery, callback_of, record_at. rewrite Hd.
    unfold callbacks. simpl. now destruct (decide (idata_buffer d = NULL)).
Qed.

(** C3.  The per-tick drain invokes the user callback once for each queued
    delivery record, in FIFO arrival order, each time followed by the
    release of the record's buffer and of the record; afterwards the queue
    is empty and every record and buffer it held is gone from the heap. *)
Theorem drain_delivers_each_record_in_order (w : World) :
  heap_wf (heap w) ->
  queue_wf (heap w) (scheduled_interupts w) ->
  exists w' records,
    drain_scheduled_interupts w = Some (tt, w') /\
    scheduled_interupts w' = [] /\
    Forall2 (fun item d => heap w !! item = Some (BIdata d))
      (scheduled_interupts w) records /\
    callbacks (trace w') =
      callbacks (trace w) ++
      map (fun d => EvCallback (idata_cb d) (idata_hndl d) (idata_endpoint d)
                      (idata_buffer d) (buffer_contents (heap w) (idata_buffer d))
                      (idata_userdata d)) records /\
    trace w' = trace w ++ concat (map (delivery (heap w)) (scheduled_interupts w)) /\
    heap w' = foldr delete (heap w)
                (scheduled_interupts w ++ queue_buffers (heap w) (scheduled_interupts w)).
Proof.
  intros Hwf Hq.
  destruct (foreach_deliver _ w Hwf Hq) as (h' & Hrun & _ & Hh').
  destruct (callbacks_deliveries (heap w) (scheduled_interupts w)) as (records & Hrec & Hcb);
    [apply Hq|].
  destruct w as [e c h q tr]; simpl in *.
  destruct q as [|item q].
  - exists (mkWorld e c h [] tr), []. unfold drain_scheduled_interupts, list_len. run.
    simpl. rewrite !app_nil_r. repeat split; try done.
  - exists (mkWorld e c h' [] (tr ++ concat (map (delivery h) (item :: q)))), records.
    unfold drain_scheduled_interupts, list_len, list_clear. run.
    destruct (decide _) as [_|Hlen]; [|simpl in Hlen; lia].
    run. rewrite Hrun. run.
    repeat split; try done.
    now rewrite callbacks_app, Hcb.
Qed.

Lemma drain_witness :
  exists w' records,
    drain_scheduled_interupts (example_world (fun _ => true) (fun _ => 0)) = Some (tt, w') /\
    scheduled_interupts w' = [] /\
    Forall2 (fun item d => example_heap !! item = Some (BIdata d)) [10; 12; 14]%N records /\
    callbacks (trace w') =
      map (fun d => EvCallback (idata_cb d) (idata_hndl d) (idata_endpoint d)
                      (idata_buffer d) (buffer_contents example_heap (idata_buffer d))
                      (idata_userdata d)) records /\
    trace w' = concat (map (delivery example_heap) [10; 12; 14]%N) /\
    heap w' = foldr delete example_heap
                ([10; 12; 14]%N ++ queue_buffers example_heap [10; 12; 14]%N).
Proof.
  apply (drain_delivers_each_record_in_order (example_world (fun _ => true) (fun _ => 0)));
    compute_done.
Defined.

(** ** The completion handler *)

Lemma fresh_ptr_spec (h : gmap N block) :
  fresh_ptr h <> NULL /\ h !! fresh_ptr h = None.
Proof.
  unfold fresh_ptr.
  pose proof (is_fresh ({[NULL]} ∪ dom h)) as Hf.
  split.
  - intros E. apply Hf. rewrite E. set_solver.
  - apply not_elem_of_dom. set_solver.
Qed.

Lemma filter_ext_elem {A} (P1 P2 : A -> Prop)
    `{!forall x, Decision (P1 x), !forall x, Decision (P2 x)} (l : list A) :
  (forall x, x ∈ l -> P1 x <-> P2 x) -> filter P1 l = filter P2 l.
Proof.
  induction l as [|x l IH]; intros Hext; [done|].
  rewrite !filter_cons, IH by (intros; apply Hext; set_solver).
  destruct (decide (P1 x)) as [H1|H1], (decide (P2 x)) as [H2|H2]; try done;
    exfalso; apply (Hext x) in H1 || apply (Hext x) in H2; set_solver.
Qed.

(** The out-of-memory path drops the records of the handle from the queue,
    frees them, and leaves every other record where it was. *)
Lemma list_filter_items_run hndl q : forall w,
  Forall (fun item => is_Some (record_at (heap w) item)) q -> NoDup q ->
  heap_wf (heap w) ->
  list_filter_items (fun item => remove_si_by_device item hndl) q w =
    Some (queued_for_others hndl (heap w) q,
          set_trace (trace w ++ map EvFree (queued_for hndl (heap w) q))
            (set_heap (foldr delete (heap w) (queued_for hndl (heap w) q)) w)).
Proof.
  induction q as [|item q IH]; intros [e c h q0 tr] Hall Hnd Hwf; simpl in *.
  - run. now rewrite app_nil_r.
  - apply Forall_cons in Hall as [[d Hd] Hall]. apply NoDup_cons in Hnd as [Hnin Hnd].
    assert (Hh : hndl_of h item = Some (idata_hndl d))
      by (unfold hndl_of; now rewrite Hd).
    unfold queued_for_others, queued_for. rewrite !filter_cons.
    unfold record_at in Hd. destruct (h !! item) as [[]|] eqn:Hi; simplify_eq.
    assert (item <> NULL) by (eapply live_not_null; eauto).
    unfold remove_si_by_device, load_idata. run. rewrite Hi.
    destruct (decide (idata_hndl d = hndl)) as [E|E].
    + erewrite free_live by (simpl; eauto). run.
      rewrite IH; simpl; try done.
      * assert (Hsame : forall item', item' ∈ q ->
                  hndl_of (delete item h) item' = hndl_of h item').
        { intros item' Hin. unfold hndl_of, record_at.
          rewrite lookup_delete_ne; [done|]. intros ->. done. }
        rewrite (decide_True (P := hndl_of h item = Some _)) by congruence.
        rewrite (decide_False (P := hndl_of h item <> Some _)) by (intros ?; congruence).
        assert (queued_for hndl (delete item h) q = queued_for hndl h q) as Hq1.
        { apply filter_ext_elem. intros x Hx. now rewrite Hsame. }
        assert (queued_for_others hndl (delete item h) q = queued_for_others hndl h q) as Hq2.
        { apply filter_ext_elem. intros x Hx. now rewrite Hsame. }
        unfold queued_for, queued_for_others in *. rewrite Hq1, Hq2. simpl.
        rewrite <- app_assoc. simpl.
        assert (foldr delete (delete item h)
                  (filter (λ item0 : N, hndl_of h item0 = Some hndl) q) =
                delete item (foldr delete h
                  (filter (λ item0 : N, hndl_of h item0 = Some hndl) q))) as ->; [|done].
        apply map_eq. intros a. destruct (decide (a = item)) as [->|Ha].
        { rewrite lookup_delete_eq. rewrite lookup_foldr_delete_not_elem_of.
          - apply lookup_delete_eq.
          - rewrite list_elem_of_filter. tauto. }
        rewrite lookup_delete_ne by done.
        destruct (decide (a ∈ filter (λ item0 : N, hndl_of h item0 = Some hndl) q)).
        { now rewrite !lookup_foldr_delete. }
        rewrite !lookup_foldr_delete_not_elem_of by done.
        now rewrite lookup_delete_ne.
      * rewrite Forall_forall in *. intros item' Hin. unfold record_at.
        rewrite lookup_delete_ne; [now apply Hall|]. intros ->. done.
      * unfold heap_wf in *. rewrite lookup_delete_ne; done.
    + run. rewrite IH; simpl; try done.
      rewrite (decide_False (P := hndl_of h item = Some _)) by congruence.
      rewrite (decide_True (P := hndl_of h item <> Some _)) by congruence.
      done.
Qed.

Lemma is_bytes_inv h p : is_bytes h p -> exists bs, h !! p = Some (BBytes bs).
Proof. unfold is_bytes. destruct (h !! p) as [[]|]; try done. eauto. Qed.

Lemma queued_for_records hndl h q item :
  item ∈ queued_for hndl h q -> exists d, h !! item = Some (BIdata d).
Proof.
  unfold queued_for. rewrite list_elem_of_filter. intros [Hh _].
  unfold hndl_of, record_at in Hh. destruct (h !! item) as [[]|]; try done. eauto.
Qed.

Lemma input_interrupt_cb_oom_run (w : World) t tr d :
  heap_wf (heap w) ->
  heap w !! t = Some (BTransfer tr) ->
  heap w !! t_user_data tr = Some (BIdata d) ->
  idata_buffer d = NULL \/ is_bytes (heap w) (idata_buffer d) ->
  Forall (fun item => is_Some (record_at (heap w) item)) (scheduled_interupts w) ->
  NoDup (scheduled_interupts w) ->
  t_user_data tr ∉ scheduled_interupts w ->
  input_interrupt_cb_oom NULL NULL (t_user_data tr) t w = Some (tt, oom_outcome w t tr d).
Proof.
  intros Hwf Ht Hd Hb Hall Hnd Hnq.
  destruct w as [e c h q tr0]; simpl in *.
  set (gone := queued_for (idata_hndl d) h q) in *.
  assert (Hgone : forall a, a ∈ gone -> exists d', h !! a = Some (BIdata d'))
    by (intros a; apply queued_for_records).
  assert (Ht_ne : t <> NULL) by (eapply live_not_null; eauto).
  assert (Hi_ne : t_user_data tr <> NULL) by (eapply live_not_null; eauto).
  assert (Hi_in : t_user_data tr ∉ gone).
  { unfold gone, queued_for. rewrite list_elem_of_filter. tauto. }
  assert (Ht_in : t ∉ gone).
  { intros (d' & Hd')%Hgone. congruence. }
  unfold input_interrupt_cb_oom, input_interrupt_cb_error, list_filter, call_cb,
    libusb_free_transfer, load_idata, load_transfer.
  run. rewrite !free_null. run. rewrite Hd. run.
  rewrite list_filter_items_run by done. run. fold gone.
  rewrite lookup_foldr_delete_not_elem_of by done. rewrite Ht. run.
  rewrite (decide_True (P := NULL = NULL)) by done. run.
  rewrite lookup_foldr_delete_not_elem_of by done. rewrite Hd. run.
  unfold oom_outcome, own_buffer. simpl. fold gone.
  destruct (decide (idata_buffer d = NULL)) as [E|E].
  - rewrite E, free_null. run.
    erewrite free_live;
      [|done|simpl; rewrite lookup_foldr_delete_not_elem_of by done; eauto].
    run. rewrite lookup_delete_ne by congruence.
    rewrite lookup_foldr_delete_not_elem_of by done. rewrite Ht.
    erewrite free_live;
      [|done|simpl; rewrite lookup_delete_ne by congruence;
             rewrite lookup_foldr_delete_not_elem_of by done; eauto].
    run. simpl. repeat rewrite <- app_assoc. simpl. done.
  - destruct Hb as [Hb|(bs & Hb)%is_bytes_inv]; [done|].
    assert (Hb_in : idata_buffer d ∉ gone).
    { intros (d' & Hd')%Hgone. congruence. }
    erewrite free_live;
      [|done|simpl; rewrite lookup_foldr_delete_not_elem_of by done; eauto].
    run.
    erewrite free_live;
      [|done|simpl; rewrite lookup_delete_ne by congruence;
             rewrite lookup_foldr_delete_not_elem_of by done; eauto].
    run. rewrite !lookup_delete_ne by congruence.
    rewrite lookup_foldr_delete_not_elem_of by done. rewrite Ht.
    erewrite free_live;
      [|done|simpl; rewrite !lookup_delete_ne by congruence;
             rewrite lookup_foldr_delete_not_elem_of by done; eauto].
    run. simpl. repeat rewrite <- app_assoc. simpl. done.
Qed.

Lemma drop_junk {A} (f : nat -> A) n : drop n (map f (seq 0 n)) = [].
Proof. apply drop_ge. now rewrite length_map, length_seq. Qed.

Lemma copy_ptrs_spec (w : World) :
  record_ptr w <> NULL /\ heap w !! record_ptr w = None /\
  copy_ptr w <> NULL /\ heap w !! copy_ptr w = None /\
  copy_ptr w <> record_ptr w.
Proof.
  unfold copy_ptr, record_ptr.
  destruct (fresh_ptr_spec (heap w)) as [H1 H2].
  destruct (fresh_ptr_spec
    (<[fresh_ptr (heap w) := BIdata (env_junk_idata (env w) (S (clock w)))]> (heap w)))
    as [H3 H4].
  apply lookup_insert_None in H4 as [H4 H5]. repeat split; congruence.
Qed.

(** Up to the second submission: with room in the list and both
    allocations granted, the handler queues the copy and submits again. *)
Lemma input_interrupt_cb_queues (w : World) t tr d received :
  completion_ready w t tr d received ->
  env_alloc (env w) (clock w) = true ->
  env_alloc (env w) (1 + clock w) = true ->
  env_alloc (env w) (2 + clock w) = true ->
  input_interrupt_cb t w =
    (if decide (env_ret (env w) (3 + clock w) <> 0)
     then input_interrupt_cb_resubmit_failed (t_user_data tr) t
     else ret tt) (queued_world w t tr d received).
Proof.
  intros [Hwf Ht Hd Hbuf Hact Hown Hq Hnq Hpriv] Ha0 Ha1 Ha2.
  destruct (copy_ptrs_spec w) as (Hp1 & Hf1 & Hp2 & Hf2 & Hp12).
  unfold queued_world. unfold copy_ptr, record_ptr in *.
  destruct w as [e c h q tr0]; simpl in *.
  set (p1 := fresh_ptr h) in *.
  set (p2 := fresh_ptr (<[p1 := BIdata (env_junk_idata e (S c))]> h)) in *.
  assert (t <> p1 /\ t <> p2 /\ t_user_data tr <> p1 /\ t_user_data tr <> p2 /\
          t_buffer tr <> p1 /\ t_buffer tr <> p2) as (?&?&?&?&?&?)
    by (repeat split; congruence).
  unfold input_interrupt_cb, list_allocate, malloc_idata, malloc, alloc, load_transfer,
    load_idata, load_bytes, store, memcpy, list_add, libusb_submit_transfer.
  run. rewrite Ht. run. rewrite Ha0. run. rewrite Ha1. run. rewrite Ha2.
  rewrite bool_decide_true by lia. run. fold p1. fold p2.
  rewrite (decide_False (P := p1 = NULL \/ p2 = NULL)) by (intros [?|?]; done). run.
  rewrite !lookup_insert_ne by done. rewrite Hd. run.
  rewrite lookup_insert_ne, lookup_insert_eq by done. run.
  rewrite !lookup_insert_ne by done. rewrite Hbuf. run.
  rewrite lookup_insert_ne, lookup_insert_eq by done. run.
  rewrite length_map, length_seq, drop_junk, app_nil_r.
  rewrite decide_True by lia. run.
  rewrite lookup_insert_ne, lookup_insert_eq by done. run.
  rewrite lookup_insert_ne, lookup_insert_eq by done. run.
  rewrite !lookup_insert_ne by done. rewrite Ht. run.
  f_equal. f_equal.
  - map_eq_cases [p1; p2].
  - now repeat rewrite <- app_assoc.
Qed.

Lemma queue_wf_records h q :
  queue_wf h q -> Forall (fun item => is_Some (record_at h item)) q.
Proof.
  intros (Hall & _). eapply Forall_impl; [exact Hall|].
  intros item (d & Hd & _)%item_ok_inv. unfold record_at. rewrite Hd. eauto.
Qed.

(** No room in the list: straight to the out-of-memory path. *)
Lemma input_interrupt_cb_no_room (w : World) t tr d received :
  completion_ready w t tr d received ->
  env_alloc (env w) (clock w) = false ->
  input_interrupt_cb t w =
    Some (tt, oom_outcome
                (mkWorld (env w) (S (clock w)) (heap w) (scheduled_interupts w)
                   (trace w ++ [EvListAllocate 2 false])) t tr d).
Proof.
  intros [Hwf Ht Hd Hbuf Hact Hown Hq Hnq Hpriv] Ha0.
  destruct w as [e c h q tr0]; simpl in *.
  unfold input_interrupt_cb. run. rewrite Ht. run. rewrite Ha0. run.
  apply (input_interrupt_cb_oom_run (mkWorld e (S c) h q _)); simpl; try done.
  - now apply queue_wf_records.
  - apply Hq.
Qed.

Lemma input_interrupt_cb_oom_frees scheduled buffer_copy idata t w w1 :
  (free scheduled ;; free buffer_copy) w = Some (tt, w1) ->
  input_interrupt_cb_oom scheduled buffer_copy idata t w =
    input_interrupt_cb_oom NULL NULL idata t w1.
Proof.
  unfold input_interrupt_cb_oom. change (free NULL) with (ret tt : M unit).
  unfold bind, ret.
  destruct (free scheduled w) as [[[] w2]|]; [|done].
  destruct (free buffer_copy w2) as [[[] w3]|]; [|done].
  now intros [= ->].
Qed.

(** A refused allocation of the record or of the copy: whatever was
    granted is handed back, then the out-of-memory path runs. *)
Lemma input_interrupt_cb_copy_refused (w : World) t tr d received :
  completion_ready w t tr d received ->
  env_alloc (env w) (clock w) = true ->
  env_alloc (env w) (1 + clock w) && env_alloc (env w) (2 + clock w) = false ->
  exists pre,
    input_interrupt_cb t w =
      Some (tt, oom_outcome
                  (mkWorld (env w) (3 + clock w) (heap w) (scheduled_interupts w)
                     (trace w ++ pre)) t tr d) /\
    callbacks pre = [] /\ existsb is_alloc_failure pre = true.
Proof.
  intros [Hwf Ht Hd Hbuf Hact Hown Hq Hnq Hpriv] Ha0 Ha12.
  destruct (copy_ptrs_spec w) as (Hp1 & Hf1 & Hp2 & Hf2 & Hp12).
  destruct (fresh_ptr_spec (heap w)) as [_ Hf].
  unfold copy_ptr, record_ptr in *.
  destruct w as [e c h q tr0]; simpl in *.
  set (p1 := fresh_ptr h) in *.
  set (p2 := fresh_ptr (<[p1 := BIdata (env_junk_idata e (S c))]> h)) in *.
  pose proof (queue_wf_records _ _ Hq) as Hrec. destruct Hq as (_ & Hnd & _).
  unfold input_interrupt_cb. run. rewrite Ht. run. rewrite Ha0. run.
  destruct (env_alloc e (S c)) eqn:Ha1; simpl in Ha12; run;
    rewrite bool_decide_true by lia; rewrite andb_true_r.
  - rewrite Ha12. run. fold p1.
    rewrite (decide_True (P := p1 = NULL \/ NULL = NULL)) by (now right).
    erewrite input_interrupt_cb_oom_frees.
    2:{ erewrite bind_run by (eapply free_live; simpl; [done|apply lookup_insert_eq]).
        rewrite free_null. run. rewrite delete_insert_eq, delete_id by done.
        repeat rewrite <- app_assoc. simpl. reflexivity. }
    eexists. split; [|split].
    + apply (input_interrupt_cb_oom_run (mkWorld e _ h q (tr0 ++ _))); simpl; done.
    + reflexivity.
    + failure_found.
  - fold p1. destruct (env_alloc e (S (S c))) eqn:Ha2; run.
    + rewrite (decide_True (P := NULL = NULL \/ p1 = NULL)) by (now left).
      erewrite input_interrupt_cb_oom_frees.
      2:{ rewrite (bind_run _ _ _ _ _ (free_null _)).
          erewrite free_live; [|done|simpl; apply lookup_insert_eq].
          run. rewrite delete_insert_eq, delete_id by done.
          repeat rewrite <- app_assoc. simpl. reflexivity. }
      eexists. split; [|split].
      * apply (input_interrupt_cb_oom_run (mkWorld e _ h q (tr0 ++ _))); simpl; done.
      * reflexivity.
      * failure_found.
    + rewrite (decide_True (P := NULL = NULL \/ NULL = NULL)) by (now left).
      eexists. split; [|split].
      * repeat rewrite <- app_assoc.
        apply (input_interrupt_cb_oom_run (mkWorld e _ h q (tr0 ++ _))); simpl; done.
      * reflexivity.
      * failure_found.
Qed.

(** The block for a failed resubmission, second record granted: the null
    record is queued behind whatever is queued and the request is torn
    down. *)
Lemma input_interrupt_cb_resubmit_failed_queues (w : World) t tr d :
  heap_wf (heap w) ->
  heap w !! t = Some (BTransfer tr) ->
  heap w !! t_user_data tr = Some (BIdata d) ->
  idata_buffer d = NULL \/ is_bytes (heap w) (idata_buffer d) ->
  env_alloc (env w) (clock w) = true ->
  input_interrupt_cb_resubmit_failed (t_user_data tr) t w =
    Some (tt,
      mkWorld (env w) (S (clock w))
        (foldr delete (<[fresh_ptr (heap w) := BIdata (failure_record d)]> (heap w))
           ([t; t_user_data tr] ++ own_buffer d))
        (scheduled_interupts w ++ [fresh_ptr (heap w)])
        (trace w ++ [EvLog "input_interrupt_cb: %s";
                     EvAlloc AllocIdata (fresh_ptr (heap w))]
                 ++ map EvFree (own_buffer d ++ [t_user_data tr; t]))).
Proof.
  intros Hwf Ht Hd Hown Ha.
  destruct (fresh_ptr_spec (heap w)) as [Hp3 Hf3].
  destruct w as [e c h q tr0]; simpl in *.
  set (p3 := fresh_ptr h) in *.
  assert (Ht_ne : t <> NULL) by (eapply live_not_null; eauto).
  assert (Hi_ne : t_user_data tr <> NULL) by (eapply live_not_null; eauto).
  assert (t <> p3 /\ t_user_data tr <> p3) as [? ?] by (split; congruence).
  unfold input_interrupt_cb_resubmit_failed, input_interrupt_cb_error,
    libusb_free_transfer.
  run. rewrite Ha. run. fold p3. rewrite (decide_False (P := p3 = NULL)) by done.
  run. map_lookup. rewrite Hd. run. map_lookup. run. map_lookup. rewrite Hd. run.
  unfold own_buffer. destruct (decide (idata_buffer d = NULL)) as [E|E].
  - rewrite E, free_null. run.
    erewrite free_live; [|done|simpl; map_lookup; eauto]. run.
    map_lookup. rewrite Ht.
    erewrite free_live; [|done|simpl; map_lookup; eauto]. run.
    simpl. rewrite insert_insert_eq. now repeat rewrite <- app_assoc.
  - destruct Hown as [?|(bs & Hb)%is_bytes_inv]; [done|].
    assert (idata_buffer d <> p3 /\ idata_buffer d <> t /\
            idata_buffer d <> t_user_data tr) as (?&?&?) by (repeat split; congruence).
    erewrite free_live; [|done|simpl; map_lookup; eauto]. run.
    erewrite free_live; [|done|simpl; map_lookup; eauto]. run.
    map_lookup. rewrite Ht.
    erewrite free_live; [|done|simpl; map_lookup; eauto]. run.
    simpl. rewrite insert_insert_eq. now repeat rewrite <- app_assoc.
Qed.

(** The block for a failed resubmission, second record refused: the
    out-of-memory path. *)
Lemma input_interrupt_cb_resubmit_failed_oom (w : World) t tr d :
  heap_wf (heap w) ->
  heap w !! t = Some (BTransfer tr) ->
  heap w !! t_user_data tr = Some (BIdata d) ->
  idata_buffer d = NULL \/ is_bytes (heap w) (idata_buffer d) ->
  Forall (fun item => is_Some (record_at (heap w) item)) (scheduled_interupts w) ->
  NoDup (scheduled_interupts w) ->
  t_user_data tr ∉ scheduled_interupts w ->
  env_alloc (env w) (clock w) = false ->
  input_interrupt_cb_resubmit_failed (t_user_data tr) t w =
    Some (tt, oom_outcome
                (mkWorld (env w) (S (clock w)) (heap w) (scheduled_interupts w)
                   (trace w ++ [EvLog "input_interrupt_cb: %s";
                                EvAlloc AllocIdata NULL])) t tr d).
Proof.
  intros Hwf Ht Hd Hown Hrec Hnd Hnq Ha.
  destruct w as [e c h q tr0]; simpl in *.
  unfold input_interrupt_cb_resubmit_failed.
  run. rewrite Ha. run. rewrite (decide_True (P := NULL = NULL)) by done.
  repeat rewrite <- app_assoc. simpl.
  apply (input_interrupt_cb_oom_run (mkWorld e _ h q (tr0 ++ _))); simpl; done.
Qed.

(** In the world with the copy queued, the request and its transfer are
    as they were and the queue still owns live, distinct records. *)
Lemma queued_world_ready (w : World) t tr d received :
  completion_ready w t tr d received ->
  let w1 := queued_world w t tr d received in
  heap_wf (heap w1) /\
  heap w1 !! t = Some (BTransfer tr) /\
  heap w1 !! t_user_data tr = Some (BIdata d) /\
  (idata_buffer d = NULL \/ is_bytes (heap w1) (idata_buffer d)) /\
  Forall (fun item => is_Some (record_at (heap w1) item)) (scheduled_interupts w1) /\
  NoDup (scheduled_interupts w1) /\
  (t_user_data tr ∉ scheduled_interupts w1) /\
  (forall a b, heap w !! a = Some b -> heap w1 !! a = Some b).
Proof.
  intros [Hwf Ht Hd Hbuf Hact Hown Hq Hnq Hpriv].
  destruct (copy_ptrs_spec w) as (Hp1 & Hf1 & Hp2 & Hf2 & Hp12).
  unfold queued_world. simpl.
  set (p1 := record_ptr w) in *. set (p2 := copy_ptr w) in *.
  assert (Hsub : forall a b, heap w !! a = Some b ->
            <[p1 := BIdata (scheduled_record d tr p2)]>
              (<[p2 := BBytes (take (Z.to_nat (t_actual_length tr)) received)]> (heap w))
            !! a = Some b).
  { intros a b Hab. map_lookup. done. }
  pose proof (queue_wf_records _ _ Hq) as Hrec. destruct Hq as (_ & Hnd & _).
  repeat split; eauto.
  - unfold heap_wf in *. map_lookup. done.
  - destruct Hown as [?|(bs & Hb)%is_bytes_inv]; [now left|right].
    unfold is_bytes. now rewrite (Hsub _ _ Hb).
  - apply Forall_app. split.
    + eapply Forall_impl; [exact Hrec|]. intros item [d' Hd'].
      unfold record_at in *. destruct (heap w !! item) as [b|] eqn:E; [|done].
      rewrite (Hsub _ _ E). eauto.
    + apply Forall_singleton. unfold record_at. map_lookup. eauto.
  - apply NoDup_app. split; [done|]. split; [|apply NoDup_singleton].
    intros item Hin ->%list_elem_of_singleton.
    rewrite Forall_forall in Hrec. destruct (Hrec _ Hin) as [d' Hd'].
    unfold record_at in Hd'. now rewrite Hf1 in Hd'.
  - rewrite elem_of_app, list_elem_of_singleton. intros [?|E]; [done|]. congruence.
Qed.

(** What the out-of-memory path amounts to, seen from the world [w] in
    which the handler started: [mid] is the world in which the path is
    entered, with the same live blocks as [w] and possibly more records,
    all for the same handle, queued behind those of [w]. *)
Lemma oom_outcome_teardown (w mid : World) t tr d received extra pre :
  completion_ready w t tr d received ->
  (forall a b, heap w !! a = Some b -> heap mid !! a = Some b) ->
  scheduled_interupts mid = scheduled_interupts w ++ extra ->
  Forall (fun item => hndl_of (heap mid) item = Some (idata_hndl d) /\
                      heap w !! item = None) extra ->
  trace mid = trace w ++ pre ->
  callbacks pre = [] ->
  let w' := oom_outcome mid t tr d in
  scheduled_interupts w' =
    queued_for_others (idata_hndl d) (heap w) (scheduled_interupts w) /\
  (forall item, item ∈ queued_for (idata_hndl d) (heap w) (scheduled_interupts w) ->
     heap w' !! item = None) /\
  (forall item d',
     item ∈ queued_for_others (idata_hndl d) (heap w) (scheduled_interupts w) ->
     heap w !! item = Some (BIdata d') ->
     heap w' !! item = Some (BIdata d') /\
     forall bs, heap w !! idata_buffer d' = Some (BBytes bs) ->
                heap w' !! idata_buffer d' = Some (BBytes bs)) /\
  exists delta,
    trace w' = trace w ++ delta /\
    callbacks delta =
      [EvCallback (idata_cb d) (idata_hndl d) (t_endpoint tr) NULL None
         (idata_userdata d)].
Proof.
  intros [Hwf Ht Hd Hbuf Hact Hown Hq Hnq Hpriv] Hsub Hqm Hextra Htr Hpre.
  pose proof (queue_wf_records _ _ Hq) as Hrec.
  rewrite Forall_forall in Hrec, Hextra.
  assert (Hsame : forall item, item ∈ scheduled_interupts w ->
            hndl_of (heap mid) item = hndl_of (heap w) item).
  { intros item [d' Hd']%Hrec. unfold hndl_of, record_at in *.
    destruct (heap w !! item) as [b|] eqn:E; [|done]. now rewrite (Hsub _ _ E). }
  assert (Hgone : queued_for (idata_hndl d) (heap mid) (scheduled_interupts mid) =
            queued_for (idata_hndl d) (heap w) (scheduled_interupts w) ++ extra).
  { unfold queued_for. rewrite Hqm, filter_app. f_equal.
    - apply filter_ext_elem. intros x Hx. now rewrite Hsame.
    - clear -Hextra. induction extra as [|x l IH]; [done|].
      rewrite filter_cons_True by (apply Hextra; set_solver).
      f_equal. apply IH. intros y Hy. apply Hextra. set_solver. }
  assert (Hkept : queued_for_others (idata_hndl d) (heap mid) (scheduled_interupts mid) =
            queued_for_others (idata_hndl d) (heap w) (scheduled_interupts w)).
  { unfold queued_for_others. rewrite Hqm, filter_app.
    assert (filter (λ item, hndl_of (heap mid) item ≠ Some (idata_hndl d)) extra = [])
      as ->.
    { clear -Hextra. induction extra as [|x l IH]; [done|].
      rewrite filter_cons_False.
      + apply IH. intros y Hy. apply Hextra. set_solver.
      + intros Hn. apply Hn, Hextra. set_solver. }
    rewrite app_nil_r. apply filter_ext_elem. intros x Hx. now rewrite Hsame. }
  unfold oom_outcome. cbn [scheduled_interupts heap trace]. rewrite Hgone, Hkept.
  split; [done|]. split; [|split].
  - intros item Hin. apply lookup_foldr_delete. set_solver.
  - intros item d' Hin Hitem.
    assert (Hin' := Hin). unfold queued_for_others in Hin'.
    apply list_elem_of_filter in Hin' as [Hh Hinq].
    assert (Hkeep : forall a b, heap w !! a = Some b ->
              a <> t -> a <> t_user_data tr -> a ∉ own_buffer d ->
              a ∉ queued_for (idata_hndl d) (heap w) (scheduled_interupts w) ->
              foldr delete (heap mid)
                ([t; t_user_data tr] ++ own_buffer d ++
                 queued_for (idata_hndl d) (heap w) (scheduled_interupts w) ++ extra)
              !! a = Some b).
    { intros a b Hab ? ? ? ?. rewrite lookup_foldr_delete_not_elem_of; [eauto|].
      rewrite !elem_of_app, !elem_of_cons. intros [[?|[?|?%elem_of_nil]]|[?|[?|Hx]]]; try done.
      apply Hextra in Hx as [_ Hx]. congruence. }
    assert (Hown' : forall a, a ∈ own_buffer d -> is_bytes (heap w) a /\ a = idata_buffer d).
    { unfold own_buffer. intros a. destruct (decide (idata_buffer d = NULL)); [set_solver|].
      intros ->%list_elem_of_singleton. destruct Hown; done. }
    split.
    + apply Hkeep; try done; try congruence.
      * intros [(bs & Hb)%is_bytes_inv _]%Hown'. congruence.
      * unfold queued_for. rewrite list_elem_of_filter. tauto.
    + intros bs Hb. apply Hkeep; try done; try congruence.
      * intros [_ E]%Hown'. apply Hpriv. rewrite <- E.
        apply elem_of_queue_buffers. split; [eapply live_not_null; eauto|].
        exists item, d'. unfold record_at. rewrite Hitem. done.
      * intros (d2 & Hd2)%queued_for_records. congruence.
  - rewrite Htr. eexists. split; [now rewrite <- app_assoc|].
    assert (Hfree : forall l, callbacks (map EvFree l) = []).
    { induction l; [done|]. simpl. unfold callbacks in *.
      now rewrite filter_cons_False by (simpl; tauto). }
    rewrite !callbacks_app, Hpre, !Hfree. reflexivity.
Qed.

(** Every run of the completion handler ends in one of three ways. *)
Lemma input_interrupt_cb_outcomes (w : World) t tr d received :
  completion_ready w t tr d received ->
  (env_ret (env w) (3 + clock w) = 0 /\
   input_interrupt_cb t w = Some (tt, queued_world w t tr d received))
  \/
  (env_ret (env w) (3 + clock w) <> 0 /\
   input_interrupt_cb t w = Some (tt, resubmit_failed_world w t tr d received))
  \/
  (exists mid extra pre,
     input_interrupt_cb t w = Some (tt, oom_outcome mid t tr d) /\
     (forall a b, heap w !! a = Some b -> heap mid !! a = Some b) /\
     scheduled_interupts mid = scheduled_interupts w ++ extra /\
     Forall (fun item => hndl_of (heap mid) item = Some (idata_hndl d) /\
                         heap w !! item = None) extra /\
     trace mid = trace w ++ pre /\
     callbacks pre = [] /\
     existsb is_alloc_failure pre = true /\
     heap_wf (heap mid)).
Proof.
  intros Hready. pose proof (cr_heap _ _ _ _ _ Hready) as Hwf.
  destruct (env_alloc (env w) (clock w)) eqn:Ha0.
  2:{ right; right. eexists _, [], _. split.
      - now apply (input_interrupt_cb_no_room w t tr d received).
      - simpl. rewrite app_nil_r. repeat split; eauto. }
  destruct (env_alloc (env w) (1 + clock w) && env_alloc (env w) (2 + clock w)) eqn:Ha12.
  2:{ right; right.
      destruct (input_interrupt_cb_copy_refused w t tr d received Hready Ha0 Ha12)
        as (pre & Hrun & Hcb & Hfail).
      eexists _, [], pre. split; [exact Hrun|].
      simpl. rewrite app_nil_r. repeat split; eauto. }
  apply andb_true_iff in Ha12 as [Ha1 Ha2].
  pose proof (input_interrupt_cb_queues w t tr d received Hready Ha0 Ha1 Ha2) as Hrun.
  destruct (queued_world_ready w t tr d received Hready)
    as (Hwf1 & Ht1 & Hd1 & Hown1 & Hrec1 & Hnd1 & Hnq1 & Hsub).
  destruct (decide (env_ret (env w) (3 + clock w) <> 0)) as [Herr|Herr].
  2:{ left. split; [lia|done]. }
  destruct (env_alloc (env w) (4 + clock w)) eqn:Ha4.
  - right; left. split; [done|]. rewrite Hrun.
    now rewrite (input_interrupt_cb_resubmit_failed_queues _ t tr d).
  - right; right. rewrite Hrun.
    rewrite (input_interrupt_cb_resubmit_failed_oom _ t tr d) by done.
    eexists _, [record_ptr w], _. split; [reflexivity|].
    destruct (copy_ptrs_spec w) as (Hp1 & Hf1 & Hp2 & Hf2 & Hp12).
    cbn [heap scheduled_interupts trace queued_world]. repeat split; try done.
    + apply Forall_singleton. split; [|done].
      unfold hndl_of, record_at. now rewrite lookup_insert_eq.
    + rewrite <- app_assoc. reflexivity.
    + reflexivity.
    + failure_found.
Qed.

Lemma no_failure_in_frees l : existsb is_alloc_failure (map EvFree l) = false.
Proof. induction l; [done|]. simpl. done. Qed.

Lemma callbacks_frees l : callbacks (map EvFree l) = [].
Proof.
  induction l; [done|]. simpl. unfold callbacks in *.
  now rewrite filter_cons_False by (simpl; tauto).
Qed.

Lemma io_frees l : filter is_io (map EvFree l) = [].
Proof.
  induction l; [done|]. simpl. now rewrite filter_cons_False by (simpl; tauto).
Qed.

Lemma failure_ptr_spec (w : World) t tr d received :
  let w1 := queued_world w t tr d received in
  failure_ptr w t tr d received <> NULL /\
  heap w1 !! failure_ptr w t tr d received = None.
Proof. apply fresh_ptr_spec. Qed.


(** C2.  When an allocation fails inside the completion handler of a
    request for handle [H], every queued delivery record for [H] leaves the
    queue and is freed, the records of the other handles stay queued in
    their order with their contents and buffers as they were, and the user
    callback of the request runs exactly once within the handler itself,
    with a null buffer. *)
Theorem alloc_failure_tears_down_handle (w : World) t tr d received :
  completion_ready w t tr d received ->
  exists w' delta,
    input_interrupt_cb t w = Some (tt, w') /\
    trace w' = trace w ++ delta /\
    (existsb is_alloc_failure delta = true ->
     scheduled_interupts w' =
       queued_for_others (idata_hndl d) (heap w) (scheduled_interupts w) /\
     (forall item,
        item ∈ queued_for (idata_hndl d) (heap w) (scheduled_interupts w) ->
        heap w' !! item = None) /\
     (forall item d',
        item ∈ queued_for_others (idata_hndl d) (heap w) (scheduled_interupts w) ->
        heap w !! item = Some (BIdata d') ->
        heap w' !! item = Some (BIdata d') /\
        forall bs, heap w !! idata_buffer d' = Some (BBytes bs) ->
                   heap w' !! idata_buffer d' = Some (BBytes bs)) /\
     callbacks delta =
       [EvCallback (idata_cb d) (idata_hndl d) (t_endpoint tr) NULL None
          (idata_userdata d)]).
Proof.
  intros Hready.
  destruct (copy_ptrs_spec w) as (Hp1 & Hf1 & Hp2 & Hf2 & Hp12).
  destruct (failure_ptr_spec w t tr d received) as [Hp3 _].
  destruct (input_interrupt_cb_outcomes w t tr d received Hready)
    as [[Herr Hrun]|[[Herr Hrun]|(mid & extra & pre & Hrun & Hsub & Hq & Hextra & Htr & Hpre & Hfail & Hmid)]].
  - eexists _, _. split; [exact Hrun|]. split; [reflexivity|].
    simpl. rewrite !bool_decide_false by done. done.
  - eexists _, _. split; [exact Hrun|]. split.
    + unfold resubmit_failed_world, queued_world. cbn [trace].
      rewrite <- !app_assoc. reflexivity.
    + rewrite !existsb_app, no_failure_in_frees. simpl.
      rewrite !bool_decide_false by done. done.
  - destruct (oom_outcome_teardown w mid t tr d received extra pre)
      as (H1 & H2 & H3 & delta & H4 & H5); try done.
    exists (oom_outcome mid t tr d), delta. split; [exact Hrun|]. split; [exact H4|].
    intros _. done.
Qed.


Lemma example_world_ready alloc ret :
  completion_ready (example_world alloc ret) 4 example_transfer example_request
    [10; 20; 30; 40].
Proof. constructor; compute_done. Qed.

Lemma alloc_failure_tears_down_handle_witness :
  exists w' delta,
    input_interrupt_cb 4 (example_world (fun _ => false) (fun _ => 0)) = Some (tt, w') /\
    trace w' = [] ++ delta /\
    (existsb is_alloc_failure delta = true ->
     scheduled_interupts w' = queued_for_others 1 example_heap [10; 12; 14]%N /\
     (forall item, item ∈ queued_for 1 example_heap [10; 12; 14]%N ->
                   heap w' !! item = None) /\
     (forall item d',
        item ∈ queued_for_others 1 example_heap [10; 12; 14]%N ->
        example_heap !! item = Some (BIdata d') ->
        heap w' !! item = Some (BIdata d') /\
        forall bs, example_heap !! idata_buffer d' = Some (BBytes bs) ->
                   heap w' !! idata_buffer d' = Some (BBytes bs)) /\
     callbacks delta = [EvCallback 100 1 0x81 NULL None 200]).
Proof.
  apply (alloc_failure_tears_down_handle (example_world (fun _ => false) (fun _ => 0))
           4 example_transfer example_request [10; 20; 30; 40]).
  constructor; compute_done.
Defined.

(** The scenario of the specification, run: an allocation fails while
    handle 1 has two deliveries queued and handle 6 has one. *)
Example alloc_failure_scenario :
  exists w',
    input_interrupt_cb 4 (example_world (fun _ => false) (fun _ => 0)) = Some (tt, w') /\
    scheduled_interupts w' = [12%N] /\
    callbacks (trace w') = [EvCallback 100 1 0x81 NULL None 200] /\
    existsb is_alloc_failure (trace w') = true.
Proof. eexists. split_and!; vm_compute; reflexivity. Qed.



(** ** The queue invariant

    The drain needs a queue that owns its records and buffers.  The queue
    starts empty, the drain empties it, and the completion handler keeps
    the invariant on each of its paths. *)

Lemma queue_wf_nil h : queue_wf h [].
Proof. split; [constructor|]. split; constructor. Qed.

Lemma queue_buffers_live h q b :
  queue_wf h q -> b ∈ queue_buffers h q -> is_bytes h b.
Proof.
  intros (Hall & _) (Hn & item & d & Hin & Hrec & <-)%elem_of_queue_buffers.
  rewrite Forall_forall in Hall. apply Hall, item_ok_inv in Hin as (d' & Hd' & Hb).
  unfold record_at in Hrec. rewrite Hd' in Hrec. injection Hrec as ->.
  destruct Hb as [?|[bs Hb]]; [done|]. unfold is_bytes. now rewrite Hb.
Qed.

(** A heap that agrees with [h] on the queued records and their buffers
    keeps the queue well formed. *)
Lemma queue_wf_agree h h' q :
  queue_wf h q ->
  (forall a, a ∈ q \/ a ∈ queue_buffers h q -> h' !! a = h !! a) ->
  queue_wf h' q /\ queue_buffers h' q = queue_buffers h q.
Proof.
  intros Hq Hagree.
  assert (Hrec : forall item, item ∈ q -> record_at h' item = record_at h item).
  { intros item Hin. unfold record_at. rewrite Hagree by (now left). done. }
  assert (Hbufs : queue_buffers h' q = queue_buffers h q).
  { unfold queue_buffers. f_equal. apply list_omap_ext, Forall_Forall2_diag.
    apply Forall_forall. intros item Hin. now rewrite Hrec. }
  split; [|exact Hbufs]. destruct Hq as (Hall & Hnd & Hnb).
  split; [|split; [done|now rewrite Hbufs]].
  rewrite Forall_forall in *. intros item Hin.
  pose proof (Hall _ Hin) as Hitem. apply item_ok_inv in Hitem as (d & Hd & Hb).
  unfold item_ok. rewrite Hagree, Hd by (now left).
  destruct Hb as [?|[bs Hb]]; [now left|].
  destruct (decide (idata_buffer d = NULL)); [now left|right].
  unfold is_bytes. rewrite Hagree, Hb; [done|]. right.
  apply elem_of_queue_buffers. split; [done|]. exists item, d.
  unfold record_at. rewrite Hd. done.
Qed.

Lemma queue_buffers_app h q1 q2 :
  queue_buffers h (q1 ++ q2) = queue_buffers h q1 ++ queue_buffers h q2.
Proof. unfold queue_buffers. now rewrite omap_app, filter_app. Qed.

(** A live record that is not queued, with no buffer or with a live buffer
    no queued record has, can be appended. *)
Lemma queue_wf_snoc h q item d :
  queue_wf h q ->
  h !! item = Some (BIdata d) ->
  item ∉ q ->
  idata_buffer d = NULL \/
    (is_bytes h (idata_buffer d) /\ idata_buffer d ∉ queue_buffers h q) ->
  queue_wf h (q ++ [item]).
Proof.
  intros (Hall & Hnd & Hnb) Hd Hnin Hb.
  assert (Hrec : record_at h item = Some d) by (unfold record_at; now rewrite Hd).
  split; [|split].
  - apply Forall_app. split; [done|]. apply Forall_singleton.
    unfold item_ok. rewrite Hd. tauto.
  - apply NoDup_app. split; [done|]. split; [|apply NoDup_singleton].
    intros x Hx ->%list_elem_of_singleton. done.
  - rewrite queue_buffers_app, (queue_buffers_cons h item []), Hrec.
    destruct (decide (idata_buffer d = NULL)).
    + unfold queue_buffers at 2. simpl. now rewrite app_nil_r.
    + destruct Hb as [?|[_ Hfresh]]; [done|].
      apply NoDup_app. split; [done|]. split; [|apply NoDup_singleton].
      intros x Hx ->%list_elem_of_singleton. done.
Qed.

(** Dropping records from the queue keeps it well formed. *)
Lemma queue_wf_filter h q (P : N -> Prop) `{!forall x, Decision (P x)} :
  queue_wf h q -> queue_wf h (filter P q).
Proof.
  intros (Hall & Hnd & Hnb). split; [|split].
  - rewrite Forall_forall in *. intros x [_ Hx]%list_elem_of_filter. now apply Hall.
  - now apply NoDup_filter.
  - clear Hall Hnd. induction q as [|item q IH]; [done|].
    rewrite queue_buffers_cons in Hnb. rewrite filter_cons.
    assert (Hsub : forall b, b ∈ queue_buffers h (filter P q) -> b ∈ queue_buffers h q).
    { intros b. rewrite !elem_of_queue_buffers.
      intros (? & x & d & Hx%list_elem_of_filter & ?). split; [done|].
      exists x, d. tauto. }
    destruct (record_at h item) as [d|] eqn:Hrec.
    + destruct (decide (idata_buffer d = NULL)) as [E|E].
      * destruct (decide (P item)); [|now apply IH].
        rewrite queue_buffers_cons, Hrec, decide_True by done. now apply IH.
      * apply NoDup_cons in Hnb as [Hnin Hnb].
        destruct (decide (P item)); [|now apply IH].
        rewrite queue_buffers_cons, Hrec, decide_False by done.
        apply NoDup_cons. split; [|now apply IH].
        intros Hin. now apply Hnin, Hsub.
    + destruct (decide (P item)); [|now apply IH].
      rewrite queue_buffers_cons, Hrec. now apply IH.
Qed.

Lemma heap_wf_foldr_delete h dels : heap_wf h -> heap_wf (foldr delete h dels).
Proof.
  unfold heap_wf. intros Hwf. destruct (decide (NULL ∈ dels)).
  - now apply lookup_foldr_delete.
  - now rewrite lookup_foldr_delete_not_elem_of.
Qed.

Lemma queued_for_others_buffers hndl h q b :
  b ∈ queue_buffers h (queued_for_others hndl h q) -> b ∈ queue_buffers h q.
Proof.
  rewrite !elem_of_queue_buffers. unfold queued_for_others.
  intros (? & x & d & Hx%list_elem_of_filter & ?). split; [done|].
  exists x, d. tauto.
Qed.

(** The out-of-memory path keeps the invariant. *)
Lemma oom_outcome_queue_wf (mid : World) t tr d :
  heap_wf (heap mid) ->
  heap mid !! t = Some (BTransfer tr) ->
  heap mid !! t_user_data tr = Some (BIdata d) ->
  idata_buffer d = NULL \/ is_bytes (heap mid) (idata_buffer d) ->
  queue_wf (heap mid) (scheduled_interupts mid) ->
  t_user_data tr ∉ scheduled_interupts mid ->
  idata_buffer d ∉ queue_buffers (heap mid) (scheduled_interupts mid) ->
  heap_wf (heap (oom_outcome mid t tr d)) /\
  queue_wf (heap (oom_outcome mid t tr d)) (scheduled_interupts (oom_outcome mid t tr d)).
Proof.
  intros Hwf Ht Hd Hown Hq Hnq Hpriv. unfold oom_outcome. cbn [heap scheduled_interupts].
  split; [now apply heap_wf_foldr_delete|].
  set (others := queued_for_others (idata_hndl d) (heap mid) (scheduled_interupts mid)).
  set (gone := queued_for (idata_hndl d) (heap mid) (scheduled_interupts mid)).
  assert (Hqo : queue_wf (heap mid) others) by (now apply queue_wf_filter).
  apply (queue_wf_agree (heap mid)); [exact Hqo|].
  intros a Ha. apply lookup_foldr_delete_not_elem_of.
  assert (Hown' : forall x, x ∈ own_buffer d -> x = idata_buffer d /\ is_bytes (heap mid) x).
  { unfold own_buffer. intros x. destruct (decide (idata_buffer d = NULL)); [set_solver|].
    intros ->%list_elem_of_singleton. destruct Hown; done. }
  rewrite !elem_of_app, !elem_of_cons.
  destruct Ha as [Ha|Ha].
  - assert (Ha' := Ha). unfold others, queued_for_others in Ha'.
    apply list_elem_of_filter in Ha' as [Hh Hin].
    pose proof (queue_wf_records _ _ Hq) as Hrec. rewrite Forall_forall in Hrec.
    destruct (Hrec _ Hin) as [d' Hd']. unfold record_at in Hd'.
    destruct (heap mid !! a) as [[]|] eqn:E; try done.
    intros [[->|[->|?%elem_of_nil]]|[[_ (bs & Hb)%is_bytes_inv]%Hown'|Hg]];
      try congruence.
    unfold gone, queued_for in Hg. apply list_elem_of_filter in Hg as [? _]. done.
  - pose proof (queue_buffers_live _ _ _ Hqo Ha) as (bs & Hb)%is_bytes_inv.
    intros [[->|[->|?%elem_of_nil]]|[[-> _]%Hown'|(d' & Hd')%queued_for_records]];
      try congruence.
    apply Hpriv. now apply queued_for_others_buffers in Ha.
Qed.

(** With the copy queued, the invariant holds again, and the buffer of the
    request is still no queued buffer. *)
Lemma queued_world_queue_wf (w : World) t tr d received :
  completion_ready w t tr d received ->
  let w1 := queued_world w t tr d received in
  queue_wf (heap w1) (scheduled_interupts w1) /\
  idata_buffer d ∉ queue_buffers (heap w1) (scheduled_interupts w1).
Proof.
  intros Hready.
  destruct (queued_world_ready w t tr d received Hready)
    as (Hwf1 & Ht1 & Hd1 & Hown1 & Hrec1 & Hnd1 & Hnq1 & Hsub).
  destruct (copy_ptrs_spec w) as (Hp1 & Hf1 & Hp2 & Hf2 & Hp12).
  destruct Hready as [Hwf Ht Hd Hbuf Hact Hown Hq Hnq Hpriv].
  cbn zeta. cbn [heap scheduled_interupts queued_world] in *.
  set (h1 := <[record_ptr w := BIdata (scheduled_record d tr (copy_ptr w))]>
               (<[copy_ptr w := BBytes (take (Z.to_nat (t_actual_length tr)) received)]>
                  (heap w))) in *.
  assert (Hlive : forall a, (a ∈ scheduled_interupts w \/
                             a ∈ queue_buffers (heap w) (scheduled_interupts w)) ->
                            h1 !! a = heap w !! a).
  { intros a [Ha|Ha].
    - pose proof (queue_wf_records _ _ Hq) as Hrec. rewrite Forall_forall in Hrec.
      destruct (Hrec _ Ha) as [d' Hd']. unfold record_at in Hd'.
      destruct (heap w !! a) as [b|] eqn:E; [|done]. now apply Hsub.
    - apply (queue_buffers_live _ _ _ Hq) in Ha as (bs & Hb)%is_bytes_inv.
      rewrite Hb. now apply Hsub. }
  destruct (queue_wf_agree (heap w) h1 _ Hq Hlive) as [Hq1 Hb1].
  assert (Hfresh : copy_ptr w ∉ queue_buffers h1 (scheduled_interupts w)).
  { rewrite Hb1. intros (bs & Hb)%(queue_buffers_live _ _ _ Hq)%is_bytes_inv. congruence. }
  split.
  - eapply queue_wf_snoc; [exact Hq1|unfold h1; apply lookup_insert_eq| |].
    + intros Hin. pose proof (queue_wf_records _ _ Hq) as Hrec.
      rewrite Forall_forall in Hrec. destruct (Hrec _ Hin) as [d' Hd'].
      unfold record_at in Hd'. now rewrite Hf1 in Hd'.
    + right. simpl. split; [|exact Hfresh].
      unfold is_bytes, h1. now rewrite lookup_insert_ne, lookup_insert_eq by done.
  - rewrite queue_buffers_app, Hb1, elem_of_app. intros [Hin|Hin]; [done|].
    apply elem_of_queue_buffers in Hin as (Hn & item & d' & ->%list_elem_of_singleton & Hr & E).
    unfold record_at, h1 in Hr. rewrite lookup_insert_eq in Hr. injection Hr as <-.
    simpl in E. destruct Hown as [?|(bs & Hb)%is_bytes_inv]; congruence.
Qed.

(** After a failed resubmission with its null record queued, the invariant
    holds as well. *)
Lemma resubmit_failed_world_queue_wf (w : World) t tr d received :
  completion_ready w t tr d received ->
  let w2 := resubmit_failed_world w t tr d received in
  heap_wf (heap w2) /\ queue_wf (heap w2) (scheduled_interupts w2).
Proof.
  intros Hready.
  destruct (queued_world_ready w t tr d received Hready)
    as (Hwf1 & Ht1 & Hd1 & Hown1 & Hrec1 & Hnd1 & Hnq1 & Hsub).
  destruct (queued_world_queue_wf w t tr d received Hready) as [Hq1 Hpriv1].
  destruct (failure_ptr_spec w t tr d received) as [Hp3 Hf3].
  cbn zeta in *. unfold resubmit_failed_world.
  set (w1 := queued_world w t tr d received) in *.
  set (p3 := failure_ptr w t tr d received) in *.
  cbn [heap scheduled_interupts].
  set (h2 := <[p3 := BIdata (failure_record d)]> (heap w1)).
  assert (Hwf2 : heap_wf h2).
  { unfold heap_wf, h2. now rewrite lookup_insert_ne by done. }
  split; [now apply heap_wf_foldr_delete|].
  assert (Hlive1 : forall a, (a ∈ scheduled_interupts w1 \/
                              a ∈ queue_buffers (heap w1) (scheduled_interupts w1)) ->
                             is_Some (heap w1 !! a)).
  { intros a [Ha|Ha].
    - rewrite Forall_forall in Hrec1. destruct (Hrec1 _ Ha) as [d' Hd'].
      unfold record_at in Hd'. destruct (heap w1 !! a); [eauto|done].
    - apply (queue_buffers_live _ _ _ Hq1) in Ha as (bs & Hb)%is_bytes_inv. eauto. }
  assert (Hagree2 : forall a, (a ∈ scheduled_interupts w1 \/
                               a ∈ queue_buffers (heap w1) (scheduled_interupts w1)) ->
                              h2 !! a = heap w1 !! a).
  { intros a [b Hb]%Hlive1. unfold h2. rewrite lookup_insert_ne; [done|]. congruence. }
  destruct (queue_wf_agree (heap w1) h2 _ Hq1 Hagree2) as [Hq2 Hb2].
  assert (Hq3 : queue_wf h2 (scheduled_interupts w1 ++ [p3])).
  { eapply queue_wf_snoc; [exact Hq2|unfold h2; apply lookup_insert_eq| |now left].
    intros [b Hb]%(fun H => Hlive1 p3 (or_introl H)). congruence. }
  apply (queue_wf_agree h2); [exact Hq3|].
  intros a Ha. apply lookup_foldr_delete_not_elem_of.
  assert (Hown' : forall x, x ∈ own_buffer d ->
            x = idata_buffer d /\ is_bytes (heap w1) x).
  { unfold own_buffer. intros x. destruct (decide (idata_buffer d = NULL)); [set_solver|].
    intros ->%list_elem_of_singleton. destruct Hown1; done. }
  rewrite elem_of_app, !elem_of_cons.
  rewrite queue_buffers_app, (queue_buffers_cons h2 p3 []) in Ha.
  assert (Hr3 : record_at h2 p3 = Some (failure_record d)).
  { unfold record_at, h2. now rewrite lookup_insert_eq. }
  rewrite Hr3, decide_True, app_nil_r, Hb2 in Ha by done.
  rewrite elem_of_app, list_elem_of_singleton in Ha.
  destruct Ha as [[Ha| ->]|Ha].
  - rewrite Forall_forall in Hrec1. destruct (Hrec1 _ Ha) as [d' Hd'].
    unfold record_at in Hd'. destruct (heap w1 !! a) as [[]|] eqn:E; try done.
    intros [[->|[->|?%elem_of_nil]]|[_ (bs & Hb)%is_bytes_inv]%Hown']; congruence.
  - intros [[->|[->|?%elem_of_nil]]|[_ (bs & Hb)%is_bytes_inv]%Hown']; congruence.
  - pose proof (queue_buffers_live _ _ _ Hq1 Ha) as (bs & Hb)%is_bytes_inv.
    intros [[->|[->|?%elem_of_nil]]|[-> _]%Hown']; congruence.
Qed.

(** X1.  The completion handler returns on every path, whether it queues
    the copy, the resubmission fails or memory runs out, and it keeps the
    invariant of heap and queue that the drain relies on. *)
Theorem input_interrupt_cb_keeps_queue_wf (w : World) t tr d received :
  completion_ready w t tr d received ->
  exists w',
    input_interrupt_cb t w = Some (tt, w') /\
    heap_wf (heap w') /\
    queue_wf (heap w') (scheduled_interupts w').
Proof.
  intros Hready.
  destruct (queued_world_ready w t tr d received Hready)
    as (Hwf1 & Ht1 & Hd1 & Hown1 & Hrec1 & Hnd1 & Hnq1 & Hsub).
  destruct (queued_world_queue_wf w t tr d received Hready) as [Hq1 Hpriv1].
  pose proof Hready as [Hwf Ht Hd Hbuf Hact Hown Hq Hnq Hpriv].
  destruct (env_alloc (env w) (clock w)) eqn:Ha0.
  2:{ eexists. split; [now apply (input_interrupt_cb_no_room w t tr d received)|].
      now apply oom_outcome_queue_wf. }
  destruct (env_alloc (env w) (1 + clock w) && env_alloc (env w) (2 + clock w)) eqn:Ha12.
  2:{ destruct (input_interrupt_cb_copy_refused w t tr d received Hready Ha0 Ha12)
        as (pre & Hrun & _).
      eexists. split; [exact Hrun|]. now apply oom_outcome_queue_wf. }
  apply andb_true_iff in Ha12 as [Ha1 Ha2].
  rewrite (input_interrupt_cb_queues w t tr d received Hready Ha0 Ha1 Ha2).
  destruct (decide (env_ret (env w) (3 + clock w) <> 0)) as [Herr|Herr].
  2:{ eexists. split; [reflexivity|]. done. }
  destruct (env_alloc (env w) (4 + clock w)) eqn:Ha4.
  - rewrite (input_interrupt_cb_resubmit_failed_queues _ t tr d) by done.
    eexists. split; [reflexivity|].
    apply (resubmit_failed_world_queue_wf w t tr d received Hready).
  - rewrite (input_interrupt_cb_resubmit_failed_oom _ t tr d) by done.
    eexists. split; [reflexivity|]. now apply oom_outcome_queue_wf.
Qed.

Lemma input_interrupt_cb_keeps_queue_wf_witness :
  exists w',
    input_interrupt_cb 4 (example_world (fun _ => true) (fun _ => 0)) = Some (tt, w') /\
    heap_wf (heap w') /\
    queue_wf (heap w') (scheduled_interupts w').
Proof.
  apply (input_interrupt_cb_keeps_queue_wf (example_world (fun _ => true) (fun _ => 0))
           4 example_transfer example_request [10; 20; 30; 40]).
  apply example_world_ready.
Defined.

(** ** Synchronous requests *)

Lemma length_overwrite {A} (src old : list A) n :
  (n <= length src)%nat -> (n <= length old)%nat ->
  length (take n src ++ drop n old) = length old.
Proof. intros. rewrite length_app, length_take, length_drop. lia. Qed.

(** A control transfer on a live buffer that is long enough returns what
    the environment says and leaves a buffer of the same size. *)
Lemma libusb_control_transfer_run (w : World) dev rt req val idx data len timeout bs :
  heap w !! data = Some (BBytes bs) ->
  0 <= len <= Z.of_nat (length bs) ->
  exists bs',
    length bs' = length bs /\
    libusb_control_transfer dev rt req val idx data len timeout w =
      Some (env_ret (env w) (clock w),
            mkWorld (env w) (S (clock w)) (<[data := BBytes bs']> (heap w))
              (scheduled_interupts w)
              (trace w ++ [EvControl dev rt req val idx data len timeout
                             (env_ret (env w) (clock w))])).
Proof.
  intros Hdata Hlen. destruct w as [e c h q tr]; simpl in *.
  unfold libusb_control_transfer. run. rewrite Hdata. run.
  rewrite decide_False by lia. run.
  destruct (decide (Z.land rt LIBUSB_ENDPOINT_DIR_MASK <> 0 /\ 0 < env_ret e c))
    as [[_ Hpos]|_]; run.
  - rewrite Hdata. run.
    set (n := Z.min (Z.min (env_ret e c) len) (Z.of_nat (length (env_bytes e c)))).
    rewrite decide_True by lia. run. rewrite Hdata.
    eexists. split; [|reflexivity]. apply length_overwrite; lia.
  - exists bs. split; [done|]. now rewrite insert_id.
Qed.

Lemma uint16_t_range x : 0 <= uint16_t x < 65536.
Proof. unfold uint16_t. apply Z.mod_pos_bound. lia. Qed.

Lemma uint16_t_le x : 0 <= x -> uint16_t x <= x.
Proof. intros. unfold uint16_t. apply Z.mod_le; lia. Qed.

(** The stack buffer after [hid_get_feature_report] is as long as it was,
    as long as the answer is not longer than the buffer. *)
Lemma length_answer_report (answer report : list Z) :
  (length answer <= length report)%nat ->
  length (answer ++ drop (length answer) report) = length report.
Proof. intros. rewrite length_app, length_drop. lia. Qed.

(** C5.  For every negative length, [hid_request] works in the caller's
    buffer, here a live buffer whose size is the absolute value of the
    length: it allocates nothing and frees nothing on any path, every
    transfer that takes a buffer takes the caller's, the result is null or
    the caller's buffer, and afterwards the heap differs from the heap
    before in the contents of that buffer at most, not in its size. *)
Theorem hid_request_negative_length_reuses_buffer (w : World) hndl idx data _length h bs :
  _length < 0 ->
  heap w !! hndl = Some (BHandle h) ->
  heap w !! data = Some (BBytes bs) ->
  Z.of_nat (length bs) = - _length ->
  exists r w' delta bs',
    sccd_usb_dev_hid_request hndl idx data _length w = Some (r, w') /\
    trace w' = trace w ++ delta /\
    (r = NULL \/ r = data) /\
    filter is_alloc delta = [] /\
    filter is_free delta = [] /\
    Forall (fun e => io_buffer e = None \/ io_buffer e = Some data) delta /\
    heap w' = <[data := BBytes bs']> (heap w) /\
    length bs' = length bs.
Proof.
  intros Hneg Hh Hdata Hsize.
  pose proof (uint16_t_range (- _length)) as Hr.
  pose proof (uint16_t_le (- _length)) as Hle.
  assert (Hne : hndl <> data) by congruence.
  unfold sccd_usb_dev_hid_request. rewrite decide_True by done.
  set (len := uint16_t (- _length)) in *.
  unfold sccd_usb_dev_hid_request_switch, sccd_usb_dev_hid_request_fail.
  destruct w as [e c hp q tr]; simpl in *.
  run. rewrite Hh. run.
  destruct (h_sys h).
  - (* USB *)
    run.
    destruct (libusb_control_transfer_run (mkWorld e c hp q tr) (h_dev h)
                (uint8_t (Z.lor (Z.land 33 (Z.lnot LIBUSB_ENDPOINT_DIR_MASK))
                            LIBUSB_ENDPOINT_OUT)) 9 768 idx data len 500 bs)
      as (bs1 & Hl1 & Hrun1); [done|simpl; lia|].
    rewrite Hrun1. simpl.
    destruct (decide (env_ret e c < 0)).
    + run. eexists _, _, _, bs1. split; [reflexivity|]. simpl.
      split; [now rewrite <- app_assoc|]. repeat split; eauto; try each_event.
    + destruct (libusb_control_transfer_run
                  (mkWorld e (S c) (<[data := BBytes bs1]> hp) q
                     (tr ++ [EvControl (h_dev h)
                               (uint8_t (Z.lor (Z.land 33 (Z.lnot LIBUSB_ENDPOINT_DIR_MASK))
                                           LIBUSB_ENDPOINT_OUT)) 9 768 idx data len 500
                               (env_ret e c)]))
                  (h_dev h)
                  (uint8_t (Z.lor (Z.land 161 (Z.lnot LIBUSB_ENDPOINT_DIR_MASK))
                              LIBUSB_ENDPOINT_IN)) 1 768 idx data len 500 bs1)
        as (bs2 & Hl2 & Hrun2); [simpl; apply lookup_insert_eq|simpl; lia|].
      rewrite Hrun2. simpl. rewrite insert_insert_eq.
      destruct (decide (env_ret e (S c) < 0)); run.
      * eexists _, _, _, bs2. split; [reflexivity|]. simpl.
        split; [now rewrite <- !app_assoc|]. repeat split; eauto; try congruence; try each_event.
      * eexists _, _, _, bs2. split; [reflexivity|]. simpl.
        split; [now rewrite <- !app_assoc|]. repeat split; eauto; try congruence; try each_event.
  - (* HIDAPI *)
    destruct (decide (len > BUFFER_MAX)).
    { run. eexists _, _, _, bs. split; [reflexivity|]. simpl.
      rewrite insert_id by done. repeat split; eauto; try each_event. }
    run. rewrite Hdata. run. rewrite decide_False by lia. run.
    destruct (decide (h_idx h <> idx)).
    { run. eexists _, _, _, bs. split; [reflexivity|]. simpl.
      rewrite insert_id by done. repeat split; eauto; try each_event. }
    unfold hid_send_feature_report, hid_get_feature_report. run.
    destruct (decide (env_ret e c < 0)).
    { run. eexists _, _, _, bs. split; [reflexivity|]. simpl.
      rewrite insert_id by done. split; [now rewrite <- !app_assoc|].
      repeat split; eauto; try each_event. }
    run. destruct (decide (env_ret e (S c) < 0)).
    { run. eexists _, _, _, bs. split; [reflexivity|]. simpl.
      rewrite insert_id by done. split; [now rewrite <- !app_assoc|].
      repeat split; eauto; try each_event. }
    run. rewrite Hdata.
    set (answer := take (Z.to_nat (Z.min (env_ret e (S c)) (len + 1))) (env_bytes e (S c))).
    set (report := 0 :: take (Z.to_nat len) bs).
    assert (Hrep : length report = S (Z.to_nat len)).
    { unfold report. simpl. rewrite length_take. lia. }
    assert (Hans : (length answer <= length report)%nat).
    { unfold answer. rewrite length_take, Hrep. lia. }
    assert (Hdrop : length (drop 1 (answer ++ drop (length answer) report)) = Z.to_nat len).
    { rewrite length_drop, length_answer_report by done. lia. }
    rewrite decide_True by lia. run. rewrite Hdata.
    eexists _, _, _, _. split; [reflexivity|]. simpl.
    split; [now rewrite <- !app_assoc|]. repeat split; eauto; try each_event.
    apply length_overwrite; lia.
  - (* any other subsystem *)
    run. eexists _, _, _, bs. split; [reflexivity|]. simpl.
    rewrite insert_id by done. repeat split; eauto; try each_event.
Qed.

Lemma hid_request_negative_length_witness :
  exists r w' delta bs',
    sccd_usb_dev_hid_request 1 0 2 (-4) (example_world (fun _ => true) (fun _ => 0)) =
      Some (r, w') /\
    trace w' = [] ++ delta /\
    (r = NULL \/ r = 2%N) /\
    filter is_alloc delta = [] /\
    filter is_free delta = [] /\
    Forall (fun e => io_buffer e = None \/ io_buffer e = Some 2%N) delta /\
    heap w' = <[2%N := BBytes bs']> example_heap /\
    length bs' = 4%nat.
Proof.
  apply (hid_request_negative_length_reuses_buffer
           (example_world (fun _ => true) (fun _ => 0)) 1 0 2 (-4)
           (mkHandle USB 7 0) [10; 20; 30; 40]).
  - lia.
  - reflexivity.
  - reflexivity.
  - reflexivity.
Defined.

(** What [hid_request] does on a blocking-read handle when the index is
    not the recorded one or the 16-bit length is above the ceiling, for a
    non-negative length whose buffer the allocator grants: it logs, returns
    null and leaves the fresh buffer allocated. *)
Lemma hid_request_hidapi_rejected_fresh (w : World) hndl idx data _length h payload :
  heap w !! hndl = Some (BHandle h) ->
  h_sys h = HIDAPI ->
  heap w !! data = Some (BBytes payload) ->
  0 <= _length ->
  env_alloc (env w) (clock w) = true ->
  (uint16_t _length <= BUFFER_MAX -> uint16_t _length <= Z.of_nat (length payload)) ->
  h_idx h <> idx \/ uint16_t _length > BUFFER_MAX ->
  exists msg,
    sccd_usb_dev_hid_request hndl idx data _length w =
      Some (NULL,
            mkWorld (env w) (S (clock w))
              (<[fresh_ptr (heap w) :=
                   BBytes (map (env_junk_byte (env w) (clock w))
                             (seq 0 (Z.to_nat (uint16_t _length))))]> (heap w))
              (scheduled_interupts w)
              (trace w ++ [EvAlloc (AllocBytes (uint16_t _length)) (fresh_ptr (heap w));
                           EvLog msg])).
Proof.
  intros Hh Hsys Hdata Hpos Ha Hlen Hrej.
  destruct (fresh_ptr_spec (heap w)) as [Hp Hf].
  pose proof (uint16_t_range _length) as Hr.
  destruct w as [e c hp q tr]; simpl in *.
  set (p := fresh_ptr hp) in *.
  assert (hndl <> p /\ data <> p) as [? ?] by (split; congruence).
  unfold sccd_usb_dev_hid_request. rewrite decide_False by lia.
  unfold sccd_usb_dev_hid_request_switch. run. rewrite Ha.
  rewrite bool_decide_true by lia. run. fold p.
  rewrite (decide_False (P := p = NULL)) by done. run.
  map_lookup. rewrite Hh. run. rewrite Hsys.
  destruct (decide (uint16_t _length > BUFFER_MAX)).
  { run. eexists. now rewrite <- app_assoc. }
  run. map_lookup. rewrite Hdata. run. rewrite decide_False by lia. run.
  rewrite decide_True by (destruct Hrej; [done|lia]).
  run. eexists. now rewrite <- app_assoc.
Qed.

(** The same for a negative length: nothing but the log entry. *)
Lemma hid_request_hidapi_rejected_same (w : World) hndl idx data _length h payload :
  heap w !! hndl = Some (BHandle h) ->
  h_sys h = HIDAPI ->
  heap w !! data = Some (BBytes payload) ->
  _length < 0 ->
  (uint16_t (- _length) <= BUFFER_MAX ->
   uint16_t (- _length) <= Z.of_nat (length payload)) ->
  h_idx h <> idx \/ uint16_t (- _length) > BUFFER_MAX ->
  exists msg,
    sccd_usb_dev_hid_request hndl idx data _length w =
      Some (NULL, set_trace (trace w ++ [EvLog msg]) w).
Proof.
  intros Hh Hsys Hdata Hneg Hlen Hrej.
  pose proof (uint16_t_range (- _length)) as Hr.
  destruct w as [e c hp q tr]; simpl in *.
  unfold sccd_usb_dev_hid_request. rewrite decide_True by lia.
  unfold sccd_usb_dev_hid_request_switch. run. rewrite Hh. run. rewrite Hsys.
  destruct (decide (uint16_t (- _length) > BUFFER_MAX)).
  { run. eexists. reflexivity. }
  run. rewrite Hdata. run. rewrite decide_False by lia. run.
  rewrite decide_True by (destruct Hrej; [done|lia]).
  run. eexists. reflexivity.
Qed.

(** C6, the defect.  On a blocking-read handle, a request with a
    non-negative length that is turned down for its index or for its length
    returns null while the output buffer allocated for it is still live:
    nothing is freed. *)
Theorem hid_request_returns_null_with_live_buffer (w : World) hndl idx data _length
    h payload :
  heap w !! hndl = Some (BHandle h) ->
  h_sys h = HIDAPI ->
  heap w !! data = Some (BBytes payload) ->
  0 <= _length ->
  env_alloc (env w) (clock w) = true ->
  (uint16_t _length <= BUFFER_MAX -> uint16_t _length <= Z.of_nat (length payload)) ->
  h_idx h <> idx \/ uint16_t _length > BUFFER_MAX ->
  exists w' delta out_buffer,
    sccd_usb_dev_hid_request hndl idx data _length w = Some (NULL, w') /\
    trace w' = trace w ++ delta /\
    filter is_alloc delta = [EvAlloc (AllocBytes (uint16_t _length)) out_buffer] /\
    out_buffer <> NULL /\
    heap w !! out_buffer = None /\
    is_bytes (heap w') out_buffer /\
    filter is_free delta = [].
Proof.
  intros Hh Hsys Hdata Hpos Ha Hlen Hrej.
  destruct (hid_request_hidapi_rejected_fresh w hndl idx data _length h payload)
    as [msg Hrun]; try done.
  destruct (fresh_ptr_spec (heap w)) as [Hp Hf].
  eexists _, _, (fresh_ptr (heap w)). split; [exact Hrun|]. simpl.
  repeat split; try done.
  unfold is_bytes. now rewrite lookup_insert_eq.
Qed.

Lemma hid_request_returns_null_with_live_buffer_witness :
  exists w' delta out_buffer,
    sccd_usb_dev_hid_request 5 3 2 4 (example_world (fun _ => true) (fun _ => 0)) =
      Some (NULL, w') /\
    trace w' = [] ++ delta /\
    filter is_alloc delta = [EvAlloc (AllocBytes (uint16_t 4)) out_buffer] /\
    out_buffer <> NULL /\
    example_heap !! out_buffer = None /\
    is_bytes (heap w') out_buffer /\
    filter is_free delta = [].
Proof.
  apply (hid_request_returns_null_with_live_buffer
           (example_world (fun _ => true) (fun _ => 0)) 5 3 2 4
           (mkHandle HIDAPI 9 5) [10; 20; 30; 40]).
  - reflexivity.
  - reflexivity.
  - reflexivity.
  - lia.
  - reflexivity.
  - intros _. vm_compute. discriminate.
  - left. simpl. lia.
Defined.

(** C7, amended.  On the blocking-read backend, [hid_request] returns null
    without any I/O when the requested index is not the sub-interface index
    recorded at open time, and when the 16-bit transfer length it computes
    from the requested length is above the ceiling of 256. *)
Theorem hidapi_request_rejects_index_and_length (w : World) hndl idx data _length
    h payload :
  heap w !! hndl = Some (BHandle h) ->
  h_sys h = HIDAPI ->
  heap w !! data = Some (BBytes payload) ->
  (transfer_length _length <= BUFFER_MAX ->
   transfer_length _length <= Z.of_nat (length payload)) ->
  h_idx h <> idx \/ transfer_length _length > BUFFER_MAX ->
  exists w' delta,
    sccd_usb_dev_hid_request hndl idx data _length w = Some (NULL, w') /\
    trace w' = trace w ++ delta /\
    filter is_io delta = [].
Proof.
  unfold transfer_length. intros Hh Hsys Hdata Hlen Hrej.
  destruct (decide (_length < 0)) as [Hneg|Hpos].
  - destruct (hid_request_hidapi_rejected_same w hndl idx data _length h payload)
      as [msg Hrun]; try done.
    eexists _, _. split; [exact Hrun|]. destruct w; simpl. done.
  - destruct (env_alloc (env w) (clock w)) eqn:Ha.
    + destruct (hid_request_hidapi_rejected_fresh w hndl idx data _length h payload)
        as [msg Hrun]; try done; try lia.
      eexists _, _. split; [exact Hrun|]. simpl. done.
    + destruct w as [e c hp q tr]; simpl in *.
      unfold sccd_usb_dev_hid_request. rewrite decide_False by lia.
      run. rewrite Ha. run. rewrite (decide_True (P := NULL = NULL)) by done. run.
      eexists _, _. split; [reflexivity|]. simpl.
      split; [now rewrite <- app_assoc|done].
Qed.

(** The scenario of the specification: index 3 on a handle opened for
    sub-interface 5, length -8 (here -4, the size of the example buffer). *)
Lemma hidapi_request_rejects_index_and_length_witness :
  exists w' delta,
    sccd_usb_dev_hid_request 5 3 2 (-4) (example_world (fun _ => true) (fun _ => 0)) =
      Some (NULL, w') /\
    trace w' = [] ++ delta /\
    filter is_io delta = [].
Proof.
  apply (hidapi_request_rejects_index_and_length
           (example_world (fun _ => true) (fun _ => 0)) 5 3 2 (-4)
           (mkHandle HIDAPI 9 5) [10; 20; 30; 40]).
  - reflexivity.
  - reflexivity.
  - reflexivity.
  - intros _. vm_compute. discriminate.
  - left. simpl. lia.
Defined.

(** C7 as stated fails at a requested length of 65538 on the example
    handle 5 with its recorded index: the length is above the ceiling, yet
    its 16-bit transfer length is 2, the request goes to the device and a
    buffer comes back. *)
Lemma hidapi_request_accepts_wrapped_length :
  let w := example_world (fun _ => true) (fun _ => 0) in
  heap w !! 5%N = Some (BHandle (mkHandle HIDAPI 9 5)) /\
  Z.abs 65538 > BUFFER_MAX /\
  (exists w',
     sccd_usb_dev_hid_request 5 5 2 65538 w = Some (15%N, w') /\
     filter is_io (trace w') = [EvHidSend 9 [0; 10; 20] 3 0; EvHidGet 9 3 0]) /\
  ~ (exists w', sccd_usb_dev_hid_request 5 5 2 65538 w = Some (NULL, w')).
Proof.
  split; [reflexivity|]. split; [reflexivity|]. split.
  - eexists. split; vm_compute; reflexivity.
  - intros [w' Hrun]. vm_compute in Hrun. discriminate.
Qed.

(** ** Starting a read loop *)

Lemma alloc_run k ok b (w : World) :
  exists p,
    (p = NULL \/ (p <> NULL /\ heap w !! p = None)) /\
    (p = NULL <-> ok = false) /\
    alloc k ok b w =
      Some (p, mkWorld (env w) (clock w) (with_block p b (heap w))
                 (scheduled_interupts w) (trace w ++ [EvAlloc k p])).
Proof.
  destruct (fresh_ptr_spec (heap w)) as [Hp Hf]. destruct w as [e c h q tr]; simpl in *.
  destruct ok.
  - exists (fresh_ptr h). split; [now right|]. split; [split; congruence|].
    unfold with_block. rewrite decide_False by done. reflexivity.
  - exists NULL. split; [now left|]. split; [done|]. reflexivity.
Qed.

(** The failure exit of the read loop gives back what was allocated: the
    heap is again the heap [h0] from before the three allocations. *)
Lemma sccd_usb_dev_interupt_read_loop_fail_run (w : World) h0 buffer idata t bb bi bt :
  heap w = with_block t (BTransfer bt) (with_block idata bi (with_block buffer bb h0)) ->
  (buffer = NULL \/ h0 !! buffer = None) ->
  (idata = NULL \/ (h0 !! idata = None /\ idata <> buffer)) ->
  (t = NULL \/ (h0 !! t = None /\ t <> buffer /\ t <> idata)) ->
  sccd_usb_dev_interupt_read_loop_fail idata buffer t w =
    Some (false, mkWorld (env w) (clock w) h0 (scheduled_interupts w)
                   (trace w ++ map EvFree (filter (fun p => p <> NULL) [idata; buffer; t]))).
Proof.
  intros Hheap Hb Hi Ht. destruct w as [e c h q tr]; simpl in *. subst h.
  unfold sccd_usb_dev_interupt_read_loop_fail, libusb_free_transfer, with_block.
  rewrite !filter_cons, filter_nil.
  destruct (decide (idata = NULL)) as [Ei|Hin];
    destruct (decide (buffer = NULL)) as [Eb|Hbn];
    destruct (decide (t = NULL)) as [Et|Htn];
    rewrite ?Ei, ?Eb, ?Et;
    repeat match goal with
           | H : ?p <> NULL, H' : ?p = NULL \/ _ |- _ => destruct H' as [?|H']; [done|]
           | H : _ /\ _ |- _ => destruct H
           end;
    repeat (case_decide; try congruence);
    repeat first [ rewrite free_null
                 | erewrite free_live; [|done|simpl; map_lookup; reflexivity]
                 | progress map_lookup
                 | progress run ];
    simpl; rewrite <- ?app_assoc; simpl; rewrite ?app_nil_r;
    (f_equal; f_equal; f_equal; map_eq_cases [t; idata; buffer]).
Qed.

Lemma load_handle_run (w : World) p h :
  heap w !! p = Some (BHandle h) -> load_handle p w = Some (h, w).
Proof. intros H. unfold load_handle. now rewrite H. Qed.

Lemma malloc_run size (w : World) :
  exists p,
    (p = NULL \/ (p <> NULL /\ heap w !! p = None)) /\
    malloc size w =
      Some (p, mkWorld (env w) (S (clock w))
                 (with_block p
                    (BBytes (map (env_junk_byte (env w) (clock w))
                               (seq 0 (Z.to_nat size)))) (heap w))
                 (scheduled_interupts w)
                 (trace w ++ [EvAlloc (AllocBytes size) p])).
Proof.
  destruct (alloc_run (AllocBytes size)
              (env_alloc (env w) (clock w) && bool_decide (0 <= size))
              (BBytes (map (env_junk_byte (env w) (clock w)) (seq 0 (Z.to_nat size))))
              (set_clock (S (clock w)) w)) as (p & Hp & _ & Hrun).
  exists p. split; [exact Hp|]. unfold malloc, bind, call_ext, oracle.
  destruct w; exact Hrun.
Qed.

Lemma malloc_idata_run (w : World) :
  exists p,
    (p = NULL \/ (p <> NULL /\ heap w !! p = None)) /\
    malloc_idata w =
      Some (p, mkWorld (env w) (S (clock w))
                 (with_block p (BIdata (env_junk_idata (env w) (clock w))) (heap w))
                 (scheduled_interupts w)
                 (trace w ++ [EvAlloc AllocIdata p])).
Proof.
  destruct (alloc_run AllocIdata (env_alloc (env w) (clock w))
              (BIdata (env_junk_idata (env w) (clock w)))
              (set_clock (S (clock w)) w)) as (p & Hp & _ & Hrun).
  exists p. split; [exact Hp|]. unfold malloc_idata, bind, call_ext, oracle.
  destruct w; exact Hrun.
Qed.

Lemma libusb_alloc_transfer_run (w : World) :
  exists p,
    (p = NULL \/ (p <> NULL /\ heap w !! p = None)) /\
    libusb_alloc_transfer w =
      Some (p, mkWorld (env w) (S (clock w))
                 (with_block p (BTransfer (mkTransfer 0%N 0 NULL 0 0 NULL)) (heap w))
                 (scheduled_interupts w)
                 (trace w ++ [EvAlloc AllocTransfer p])).
Proof.
  destruct (alloc_run AllocTransfer (env_alloc (env w) (clock w))
              (BTransfer (mkTransfer 0%N 0 NULL 0 0 NULL))
              (set_clock (S (clock w)) w)) as (p & Hp & _ & Hrun).
  exists p. split; [exact Hp|]. unfold libusb_alloc_transfer, bind, call_ext, oracle.
  destruct w; exact Hrun.
Qed.

Lemma with_block_None p b h a :
  with_block p b h !! a = None -> h !! a = None /\ (p = NULL \/ a <> p).
Proof.
  unfold with_block. destruct (decide (p = NULL)); [eauto|].
  intros [? ?]%lookup_insert_None. eauto.
Qed.

(** The endpoint address the read loop submits: the direction bit set, the
    endpoint number that of the argument. *)
Lemma forced_in_endpoint endpoint :
  let ep := uint8_t (Z.lor (Z.land endpoint (Z.lnot LIBUSB_ENDPOINT_DIR_MASK))
                       LIBUSB_ENDPOINT_IN) in
  Z.testbit ep 7 = true /\
  uint8_t (Z.land ep (Z.lnot LIBUSB_ENDPOINT_DIR_MASK)) =
    uint8_t (Z.land endpoint (Z.lnot LIBUSB_ENDPOINT_DIR_MASK)).
Proof.
  unfold uint8_t, LIBUSB_ENDPOINT_DIR_MASK, LIBUSB_ENDPOINT_IN. split.
  - rewrite Z.mod_pow2_bits_low by lia.
    rewrite Z.lor_spec. change 128 with (2 ^ 7). rewrite (Z.pow2_bits_true 7) by lia.
    apply orb_true_r.
  - apply Z.bits_inj'. intros n Hn.
    destruct (Z.lt_ge_cases n 8) as [Hlt|Hge].
    + rewrite !Z.mod_pow2_bits_low by lia.
      rewrite !Z.land_spec, Z.mod_pow2_bits_low by lia.
      rewrite Z.lor_spec, Z.land_spec, !Z.lnot_spec by lia.
      change 128 with (2 ^ 7). rewrite Z.pow2_bits_eqb by lia.
      destruct (7 =? n); simpl; [now rewrite !andb_false_r|].
      now rewrite orb_false_r, !andb_true_r.
    + now rewrite !Z.mod_pow2_bits_high by lia.
Qed.

(** An allocation returns null exactly when it is refused. *)
Lemma malloc_null size (w : World) p w1 :
  malloc size w = Some (p, w1) ->
  (p = NULL <-> env_alloc (env w) (clock w) && bool_decide (0 <= size) = false).
Proof.
  destruct w as [e c h q tr]. unfold malloc, bind, call_ext, oracle. simpl.
  match goal with |- alloc ?k ?ok ?b ?w0 = _ -> _ =>
    destruct (alloc_run k ok b w0) as (p0 & _ & Hiff & Hrun) end.
  rewrite Hrun. now intros [= <- _].
Qed.

Lemma malloc_idata_null (w : World) p w1 :
  malloc_idata w = Some (p, w1) ->
  (p = NULL <-> env_alloc (env w) (clock w) = false).
Proof.
  destruct w as [e c h q tr]. unfold malloc_idata, bind, call_ext, oracle. simpl.
  match goal with |- alloc ?k ?ok ?b ?w0 = _ -> _ =>
    destruct (alloc_run k ok b w0) as (p0 & _ & Hiff & Hrun) end.
  rewrite Hrun. now intros [= <- _].
Qed.

Lemma libusb_alloc_transfer_null (w : World) p w1 :
  libusb_alloc_transfer w = Some (p, w1) ->
  (p = NULL <-> env_alloc (env w) (clock w) = false).
Proof.
  destruct w as [e c h q tr]. unfold libusb_alloc_transfer, bind, call_ext, oracle. simpl.
  match goal with |- alloc ?k ?ok ?b ?w0 = _ -> _ =>
    destruct (alloc_run k ok b w0) as (p0 & _ & Hiff & Hrun) end.
  rewrite Hrun. now intros [= <- _].
Qed.

(** C8, amended.  On an event-driven handle the read loop invokes no
    callback and leaves the queue alone, and what it does is fixed by the
    allocator and by libusb.  When one of its three allocations is refused
    it submits nothing.  When all three are granted it has a buffer of the
    given length, a request record and a transfer, all new, and submits
    exactly that one transfer, on the handle's connection, for the given
    length, with the direction bit of the endpoint set whatever the caller
    passed.  It returns true exactly when the allocations are granted and
    the submission succeeds, and the three blocks are then in the heap;
    when the submission fails it frees the three blocks; and whenever it
    returns false the heap is the heap from before the call. *)
Theorem read_loop_submits_or_releases (w : World) hndl endpoint len cb userdata h :
  heap w !! hndl = Some (BHandle h) ->
  h_sys h = USB ->
  let ep := uint8_t (Z.lor (Z.land endpoint (Z.lnot LIBUSB_ENDPOINT_DIR_MASK))
                       LIBUSB_ENDPOINT_IN) in
  let granted := env_alloc (env w) (clock w) && bool_decide (0 <= len)
                 && env_alloc (env w) (1 + clock w) && env_alloc (env w) (2 + clock w) in
  let err := env_ret (env w) (3 + clock w) in
  exists r w' delta,
    sccd_usb_dev_interupt_read_loop hndl endpoint len cb userdata w = Some (r, w') /\
    trace w' = trace w ++ delta /\
    callbacks delta = [] /\
    scheduled_interupts w' = scheduled_interupts w /\
    Z.testbit ep 7 = true /\
    r = granted && bool_decide (err = 0) /\
    (granted = false -> filter is_io delta = []) /\
    (granted = true ->
     exists buffer idata t junk d,
       let tr := mkTransfer (h_dev h) ep buffer len 0 idata in
       heap w !! buffer = None /\ heap w !! idata = None /\ heap w !! t = None /\
       NoDup [NULL; buffer; idata; t] /\
       length junk = Z.to_nat len /\
       filter is_alloc delta =
         [EvAlloc (AllocBytes len) buffer; EvAlloc AllocIdata idata;
          EvAlloc AllocTransfer t] /\
       filter is_io delta = [EvSubmit t tr err] /\
       (err = 0 ->
        heap w' =
          <[t := BTransfer tr]>
            (<[idata := BIdata (mkIdata cb hndl (idata_endpoint d) buffer
                                  (idata_length d) userdata)]>
               (<[buffer := BBytes junk]> (heap w))) /\
        filter is_free delta = []) /\
       (err <> 0 -> filter is_free delta = [EvFree idata; EvFree buffer; EvFree t])) /\
    (r = false -> heap w' = heap w).
Proof.
  intros Hh Hsys ep granted err.
  destruct (forced_in_endpoint endpoint) as [Hbit _]. fold ep in Hbit.
  destruct (malloc_run len w) as (buffer & Hb & Hrb).
  pose proof (malloc_null _ _ _ _ Hrb) as Hnb.
  match type of Hrb with _ = Some (_, ?x) => set (w1 := x) in * end.
  destruct (malloc_idata_run w1) as (idata & Hi & Hri).
  pose proof (malloc_idata_null _ _ _ Hri) as Hni.
  match type of Hri with _ = Some (_, ?x) => set (w2 := x) in * end.
  destruct (libusb_alloc_transfer_run w2) as (t & Ht & Hrt).
  pose proof (libusb_alloc_transfer_null _ _ _ Hrt) as Hnt.
  match type of Hrt with _ = Some (_, ?x) => set (w3 := x) in * end.
  change (env w1) with (env w) in Hni. change (clock w1) with (S (clock w)) in Hni.
  change (env w2) with (env w) in Hnt. change (clock w2) with (S (S (clock w))) in Hnt.
  assert (Hgr : granted = true <-> buffer <> NULL /\ idata <> NULL /\ t <> NULL).
  { unfold granted. cbn [Nat.add].
    destruct (env_alloc (env w) (clock w) && bool_decide (0 <= len));
      destruct (env_alloc (env w) (S (clock w)));
      destruct (env_alloc (env w) (S (S (clock w)))); simpl; intuition congruence. }
  assert (Hi' : idata = NULL \/ (heap w !! idata = None /\ idata <> buffer)).
  { destruct Hi as [?|[Hn Hf]]; [now left|right].
    apply with_block_None in Hf as [? [->|?]]; done. }
  assert (Ht' : t = NULL \/ (heap w !! t = None /\ t <> buffer /\ t <> idata)).
  { destruct Ht as [?|[Hn Hf]]; [now left|right].
    apply with_block_None in Hf as [Hf [Ei|?]];
      apply with_block_None in Hf as [? [Eb|?]]; subst; done. }
  unfold sccd_usb_dev_interupt_read_loop.
  erewrite bind_run by (apply load_handle_run; eauto).
  rewrite Hsys, decide_False by done. rewrite decide_False by (intros ?; done).
  erewrite bind_run by exact Hrb. erewrite bind_run by exact Hri.
  erewrite bind_run by exact Hrt.
  destruct (decide (buffer = NULL \/ t = NULL \/ idata = NULL)) as [Hnull|Hok].
  - (* an allocation was refused *)
    assert (Hng : granted = false).
    { destruct granted; [|done]. destruct Hgr as [Hgr _]. destruct Hgr; tauto. }
    rewrite (sccd_usb_dev_interupt_read_loop_fail_run w3 (heap w) buffer idata t
               (BBytes (map (env_junk_byte (env w) (clock w)) (seq 0 (Z.to_nat len))))
               (BIdata (env_junk_idata (env w1) (clock w1)))
               (mkTransfer 0%N 0 NULL 0 0 NULL)); try done.
    2:{ destruct Hb as [?|[? ?]]; eauto. }
    eexists _, _, _. split; [reflexivity|]. simpl.
    split; [now rewrite <- !app_assoc|].
    split; [now rewrite !callbacks_app, callbacks_frees|].
    split; [done|]. split; [done|]. split; [now rewrite Hng|].
    split; [|split; [congruence|done]].
    intros _. rewrite !filter_app, io_frees. reflexivity.
  - (* everything was granted *)
    assert (buffer <> NULL /\ t <> NULL /\ idata <> NULL) as (Hbn & Htn & Hin) by tauto.
    assert (Hg : granted = true) by (apply Hgr; tauto).
    destruct Hb as [?|[_ Hfb]]; [done|]. destruct Hi' as [?|[Hfi Hib]]; [done|].
    destruct Ht' as [?|(Hft & Htb & Hti)]; [done|].
    assert (Hheap3 : heap w3 =
              <[t := BTransfer (mkTransfer 0%N 0 NULL 0 0 NULL)]>
                (<[idata := BIdata (env_junk_idata (env w1) (clock w1))]>
                   (<[buffer := BBytes (map (env_junk_byte (env w) (clock w))
                                          (seq 0 (Z.to_nat len)))]> (heap w)))).
    { simpl. unfold with_block. now rewrite !decide_False by done. }
    assert (hndl <> buffer /\ hndl <> idata /\ hndl <> t) as (?&?&?)
      by (repeat split; congruence).
    unfold libusb_fill_interrupt_transfer, libusb_submit_transfer.
    clear Hnb Hni Hnt Hgr. rewrite Hg. clear Hg granted. unfold err. clear err.
    destruct w as [e c hp q tr0]. simpl in *. subst w1 w2 w3. simpl in *.
    run. rewrite Hheap3. map_lookup. run. map_lookup. run. map_lookup. run.
    map_lookup. run. map_lookup. run. fold ep.
    set (d := env_junk_idata e (S c)).
    set (tr := mkTransfer (h_dev h) ep buffer len 0 idata).
    set (rec := mkIdata cb hndl (idata_endpoint d) buffer (idata_length d) userdata).
    set (junk := map (env_junk_byte e c) (seq 0 (Z.to_nat len))).
    assert (Hjunk : length junk = Z.to_nat len)
      by (unfold junk; now rewrite length_map, length_seq).
    assert (Hfinal :
      <[t:=BTransfer tr]>
        (<[idata:=BIdata rec]>
           (<[t:=BTransfer (mkTransfer 0%N 0 NULL 0 0 NULL)]>
              (<[idata:=BIdata d]> (<[buffer:=BBytes junk]> hp)))) =
      <[t:=BTransfer tr]> (<[idata:=BIdata rec]> (<[buffer:=BBytes junk]> hp))).
    { map_eq_cases [t; idata; buffer]. }
    rewrite Hfinal.
    assert (Hnd : NoDup [NULL; buffer; idata; t]).
    { repeat (apply NoDup_cons; split; [set_solver|]). apply NoDup_nil_2. }
    destruct (decide (env_ret e (S (S (S c))) <> 0)) as [Herr|Herr].
    + run.
      rewrite (sccd_usb_dev_interupt_read_loop_fail_run _ hp buffer idata t
                 (BBytes junk) (BIdata rec) tr); simpl; eauto.
      2:{ unfold with_block. now rewrite !decide_False by done. }
      eexists _, _, _. split; [reflexivity|]. simpl.
      split; [now rewrite <- !app_assoc|].
      split; [now rewrite !callbacks_app, callbacks_frees|].
      split; [done|]. split; [done|].
      split; [now rewrite bool_decide_false by done|].
      split; [done|]. split; [|done]. intros _.
      assert (Hfl : filter (fun p => p <> NULL) [idata; buffer; t] = [idata; buffer; t]).
      { rewrite !filter_cons, filter_nil. now rewrite !decide_True by done. }
      exists buffer, idata, t, junk, d. rewrite Hfl. split_and!; done.
    + run. assert (E0 : env_ret e (S (S (S c))) = 0) by lia.
      eexists _, _, _. split; [reflexivity|]. simpl.
      split; [now rewrite <- !app_assoc|]. split; [done|]. split; [done|].
      split; [done|]. split; [now rewrite bool_decide_true by done|].
      split; [done|]. split; [|done]. intros _.
      exists buffer, idata, t, junk, d. rewrite E0. split_and!; done.
Qed.

Lemma read_loop_submits_or_releases_witness :
  let w := example_world (fun _ => true) (fun _ => 0) in
  let ep := uint8_t (Z.lor (Z.land 0x01 (Z.lnot LIBUSB_ENDPOINT_DIR_MASK))
                       LIBUSB_ENDPOINT_IN) in
  exists r w' delta,
    sccd_usb_dev_interupt_read_loop 1 0x01 64 100 200 w = Some (r, w') /\
    trace w' = [] ++ delta /\
    callbacks delta = [] /\
    scheduled_interupts w' = [10; 12; 14]%N /\
    Z.testbit ep 7 = true /\
    r = true /\
    (true = false -> filter is_io delta = []) /\
    (true = true ->
     exists buffer idata t junk d,
       let tr := mkTransfer 7 ep buffer 64 0 idata in
       example_heap !! buffer = None /\ example_heap !! idata = None /\
       example_heap !! t = None /\
       NoDup [NULL; buffer; idata; t] /\
       length junk = 64%nat /\
       filter is_alloc delta =
         [EvAlloc (AllocBytes 64) buffer; EvAlloc AllocIdata idata;
          EvAlloc AllocTransfer t] /\
       filter is_io delta = [EvSubmit t tr 0] /\
       (0 = 0 ->
        heap w' =
          <[t := BTransfer tr]>
            (<[idata := BIdata (mkIdata 100 1 (idata_endpoint d) buffer
                                  (idata_length d) 200)]>
               (<[buffer := BBytes junk]> example_heap)) /\
        filter is_free delta = []) /\
       (0 <> 0 -> filter is_free delta = [EvFree idata; EvFree buffer; EvFree t])) /\
    (r = false -> heap w' = example_heap).
Proof.
  apply (read_loop_submits_or_releases (example_world (fun _ => true) (fun _ => 0))
           1 0x01 64 100 200 (mkHandle USB 7 0)).
  - reflexivity.
  - reflexivity.
Defined.

(** C8 as stated fails when an allocation is refused.  The buffer and the
    request record are granted and the transfer is not: the read loop
    frees what it has, returns false and has submitted no transfer. *)
Lemma read_loop_without_transfer_submits_nothing :
  let w := example_world (fun n => negb (bool_decide (n = 2%nat))) (fun _ => 0) in
  exists w',
    sccd_usb_dev_interupt_read_loop 1 0x01 64 100 200 w = Some (false, w') /\
    trace w' =
      [EvAlloc (AllocBytes 64) 15; EvAlloc AllocIdata 16; EvAlloc AllocTransfer NULL;
       EvFree 16; EvFree 15] /\
    filter is_io (trace w') = [] /\
    heap w' = heap w.
Proof. eexists. split_and!; vm_compute; reflexivity. Qed.

(** ** The blocking-read loop *)

(** The request record the blocking-read loop registers carries the
    callback, the handle, the buffer and the userdata of the call; its
    endpoint and its length are whatever the allocator left in the block. *)
Lemma sccd_hidapi_dev_interupt_read_loop_run (w : World) hndl endpoint len cb userdata :
  env_alloc (env w) (clock w) = true ->
  env_alloc (env w) (S (clock w)) = true ->
  0 <= len ->
  exists idata buffer w',
    sccd_hidapi_dev_interupt_read_loop hndl endpoint len cb userdata w = Some (true, w') /\
    heap w !! idata = None /\ heap w !! buffer = None /\ idata <> buffer /\
    heap w' !! idata =
      Some (BIdata (mkIdata cb hndl
                      (idata_endpoint (env_junk_idata (env w) (clock w)))
                      buffer
                      (idata_length (env_junk_idata (env w) (clock w)))
                      userdata)) /\
    trace w' = trace w ++ [EvAlloc AllocIdata idata; EvAlloc (AllocBytes len) buffer;
                           EvSchedule 1 idata].
Proof.
  intros Ha0 Ha1 Hlen.
  destruct (fresh_ptr_spec (heap w)) as [Hp Hf].
  destruct (fresh_ptr_spec (<[fresh_ptr (heap w) := BIdata (env_junk_idata (env w) (clock w))]> (heap w)))
    as [Hp' Hf'].
  apply lookup_insert_None in Hf' as [Hf' Hne].
  destruct w as [e c h q tr]; simpl in *.
  set (p1 := fresh_ptr h) in *.
  set (p2 := fresh_ptr (<[p1 := BIdata (env_junk_idata e c)]> h)) in *.
  exists p1, p2. eexists.
  unfold sccd_hidapi_dev_interupt_read_loop. run. rewrite Ha0. run. rewrite Ha1.
  rewrite bool_decide_true by lia. run. fold p1. fold p2.
  rewrite (decide_False (P := p1 = NULL \/ p2 = NULL)) by (intros [?|?]; done).
  run. map_lookup. run. map_lookup. run.
  split; [reflexivity|]. simpl. repeat split; try done.
  - map_lookup. done.
  - now rewrite <- !app_assoc.
Qed.

(** C9, the defect.  A blocking-read loop is registered on handle 5 for
    endpoint 3 and length 4.  On its tick the device has data; the read
    asks for 2 bytes and the callback is told endpoint [0xC3]: the garbage
    length and endpoint of the freshly allocated request record, which the
    registration never overwrites. *)
Theorem hidapi_read_loop_uses_garbage_endpoint_and_length :
  let w := example_world (fun _ => true) (fails_at 3 (-1)) in
  exists w1 w2,
    sccd_usb_dev_interupt_read_loop 5 3 4 100 200 w = Some (true, w1) /\
    trace w1 = [EvAlloc AllocIdata 15; EvAlloc (AllocBytes 4) 16; EvSchedule 1 15] /\
    sccd_hidapi_dev_interupt_cb 8 15 w1 = Some (true, w2) /\
    trace w2 = trace w1 ++
      [EvHidRead 9 16 2 0 2;
       EvCallback 100 5 0xC3 16 (Some [1; 2; 0xAA; 0xAA]) 200;
       EvHidRead 9 16 2 0 (-1);
       EvSchedule 1 15].
Proof. eexists _, _. split_and!; vm_compute; reflexivity. Qed.

(** ** The endpoint on the two delivery paths *)

(** C10, the defect.  A read loop is started on endpoint 1, so its
    transfer is submitted for endpoint [0x81]; its first completion brings
    three bytes and the resubmission fails.  The drain of the same tick
    makes two callbacks from the queue.  The first carries endpoint
    [0x01], the endpoint of the transfer with the direction bit cleared.
    The second, for the null-buffer record, carries [0xC3], direction bit
    set: what the allocator left in the request record, whose endpoint
    field the read loop never writes and the completion handler copies. *)
Theorem drained_failure_record_has_garbage_endpoint :
  let w := fresh_world (fun _ => true) (fails_at 8 (-1))
             (fun n => if decide (n = 4%nat) then [mkCompletion 4 [5; 6; 7]] else []) in
  exists w1 w2,
    sccd_usb_dev_interupt_read_loop 1 0x01 4 100 200 w = Some (true, w1) /\
    filter is_io (trace w1) = [EvSubmit 4 (mkTransfer 7 0x81 2 4 0 3) 0] /\
    scheduled_interupts w1 = [] /\
    callbacks (trace w1) = [] /\
    sccd_usb_helper_mainloop w1 = Some (tt, w2) /\
    callbacks (trace w2) =
      [EvCallback 100 1 0x01 6 (Some [5; 6; 7]) 200;
       EvCallback 100 1 0xC3 NULL None 200] /\
    filter is_alloc_failure (trace w2) = [] /\
    uint8_t (Z.land 0x81 (Z.lnot LIBUSB_ENDPOINT_DIR_MASK)) = 0x01 /\
    Z.testbit 0xC3 7 = true.
Proof. eexists _, _. split_and!; vm_compute; reflexivity. Qed.

(** ** Opening a device *)

(** Inside the scan of the device list: when the native open of the
    matching device fails, the handle block is freed and the scan still
    hands its address on as the value of [hndl]. *)
Lemma open_by_syspath_scan_open_failure (w : World) d rest syspath_bus syspath_dev :
  uint8_t (d_bus d) = syspath_bus ->
  uint8_t (d_address d) = syspath_dev ->
  env_alloc (env w) (clock w) = true ->
  env_ret (env w) (S (clock w)) <> 0 ->
  exists w',
    open_by_syspath_scan (d :: rest) syspath_bus syspath_dev w =
      Some (Some (fresh_ptr (heap w)), w') /\
    fresh_ptr (heap w) <> NULL /\
    heap w' = heap w /\
    heap w' !! fresh_ptr (heap w) = None.
Proof.
  intros Hbus Hdev Ha Herr.
  destruct (fresh_ptr_spec (heap w)) as [Hp Hf].
  destruct w as [e c h q tr]; simpl in *.
  set (p := fresh_ptr h) in *.
  unfold libusb_open. run. rewrite decide_True by done. run.
  rewrite Ha. run. fold p. rewrite (decide_False (P := p = NULL)) by done.
  run. rewrite (decide_True (P := env_ret e (S c) <> 0)) by done. run.
  erewrite free_live; [|done|simpl; apply lookup_insert_eq]. run.
  eexists. split; [reflexivity|]. simpl.
  rewrite delete_insert_eq, delete_id by done. done.
Qed.

(** C4, the defect.  The syspath resolves to bus 1, address 2, the device
    is enumerated, the handle is allocated, and the native open fails with
    [LIBUSB_ERROR_ACCESS]: [open] returns address 15, which is not null and
    is the block it has just freed. *)
Theorem open_by_syspath_returns_freed_handle :
  let w := fresh_world (fun _ => true) (fails_at 2 (-3)) (fun _ => []) in
  exists w',
    sccd_usb_dev_open_by_syspath "/sys/bus/usb/devices/1-2" w = Some (2%N, w') /\
    2%N <> NULL /\
    heap w' !! 2%N = None /\
    heap w' = heap w /\
    trace w' =
      [EvGetDeviceList 1; EvAlloc AllocHandle 2; EvOpen USB (inr (1, 2)) NULL;
       EvLog "Failed to open device %u on bus %u: %s"; EvFree 2; EvFreeDeviceList].
Proof. eexists. split_and!; vm_compute; (reflexivity || discriminate). Qed.

(** ** Scenarios of the specification, run *)

(** A read loop is started on endpoint 1, its first completion brings
    three bytes and the resubmission succeeds: the drain of that tick makes
    one callback, with the copy and endpoint 1, the queue is empty again
    and the transfer is still there, submitted a second time. *)
Example completion_then_drain_scenario :
  let w := fresh_world (fun _ => true) (fun _ => 0)
             (fun n => if decide (n = 4%nat) then [mkCompletion 4 [5; 6; 7]] else []) in
  exists w1 w2,
    sccd_usb_dev_interupt_read_loop 1 0x01 4 100 200 w = Some (true, w1) /\
    sccd_usb_helper_mainloop w1 = Some (tt, w2) /\
    callbacks (trace w2) = [EvCallback 100 1 0x01 6 (Some [5; 6; 7]) 200] /\
    scheduled_interupts w2 = [] /\
    heap w2 !! 4%N = Some (BTransfer (mkTransfer 7 0x81 2 4 3 3)) /\
    length (filter is_io (trace w2)) = 2%nat.
Proof. eexists _, _. split_and!; vm_compute; reflexivity. Qed.

(** The same completion with the list unable to grow: the callback runs
    inside the event handling, with a null buffer and the raw endpoint
    [0x81], and the drain has nothing to deliver. *)
Example completion_out_of_memory_scenario :
  let w := fresh_world (fun n => negb (bool_decide (n = 5%nat))) (fun _ => 0)
             (fun n => if decide (n = 4%nat) then [mkCompletion 4 [5; 6; 7]] else []) in
  exists w1 w2,
    sccd_usb_dev_interupt_read_loop 1 0x01 4 100 200 w = Some (true, w1) /\
    sccd_usb_helper_mainloop w1 = Some (tt, w2) /\
    callbacks (trace w2) = [EvCallback 100 1 0x81 NULL None 200] /\
    scheduled_interupts w2 = [] /\
    heap w2 = heap w.
Proof. eexists _, _. split_and!; vm_compute; reflexivity. Qed.

(** * Further properties *)

#[local] Hint Unfold jret jbind lift record libusb_get_config_descriptor
  libusb_free_config_descriptor libusb_claim_interface
  sccd_device_monitor_new_device libusb_get_device_descriptor : run.

(** ** Out of memory: what becomes of the queued buffers *)

Lemma queue_buffers_inj h q item1 item2 d1 d2 :
  NoDup (queue_buffers h q) ->
  item1 ∈ q -> item2 ∈ q ->
  record_at h item1 = Some d1 -> record_at h item2 = Some d2 ->
  idata_buffer d1 = idata_buffer d2 -> idata_buffer d1 <> NULL ->
  item1 = item2.
Proof.
  induction q as [|x q IH]; intros Hnd H1 H2 Hr1 Hr2 Hb Hn; [set_solver|].
  rewrite queue_buffers_cons in Hnd.
  apply elem_of_cons in H1 as [->|H1]; apply elem_of_cons in H2 as [->|H2]; [done| | |].
  - rewrite Hr1, decide_False in Hnd by done. apply NoDup_cons in Hnd as [Hnin _].
    exfalso. apply Hnin, elem_of_queue_buffers. split; [done|]. exists item2, d2. done.
  - rewrite Hr2, decide_False in Hnd by congruence. apply NoDup_cons in Hnd as [Hnin _].
    exfalso. apply Hnin, elem_of_queue_buffers. split; [congruence|]. exists item1, d1. done.
  - apply IH; try done.
    destruct (record_at h x) as [dx|]; [destruct (decide (idata_buffer dx = NULL))|];
      try done. now apply NoDup_cons in Hnd as [_ ?].
Qed.

(** X2.  When the completion handler runs out of memory, every record it
    drops from the queue is freed, but the buffer of the record is not: the
    buffer stays allocated with its bytes, and no record left in the queue
    refers to it. *)
Theorem alloc_failure_leaks_queued_buffers (w : World) t tr d received :
  completion_ready w t tr d received ->
  exists w' delta,
    input_interrupt_cb t w = Some (tt, w') /\
    trace w' = trace w ++ delta /\
    (existsb is_alloc_failure delta = true ->
     forall item d' bs,
       item ∈ queued_for (idata_hndl d) (heap w) (scheduled_interupts w) ->
       heap w !! item = Some (BIdata d') ->
       heap w !! idata_buffer d' = Some (BBytes bs) ->
       heap w' !! item = None /\
       heap w' !! idata_buffer d' = Some (BBytes bs) /\
       idata_buffer d' ∉ queue_buffers (heap w') (scheduled_interupts w')).
Proof.
  intros Hready.
  destruct (copy_ptrs_spec w) as (Hp1 & Hf1 & Hp2 & Hf2 & Hp12).
  destruct (failure_ptr_spec w t tr d received) as [Hp3 _].
  destruct (input_interrupt_cb_outcomes w t tr d received Hready)
    as [[Herr Hrun]|[[Herr Hrun]|(mid & extra & pre & Hrun & Hsub & Hq & Hextra & Htr & Hpre & Hfail & Hmid)]].
  - eexists _, _. split; [exact Hrun|]. split; [reflexivity|].
    simpl. rewrite !bool_decide_false by done. done.
  - eexists _, _. split; [exact Hrun|]. split.
    + unfold resubmit_failed_world, queued_world. cbn [trace].
      rewrite <- !app_assoc. reflexivity.
    + rewrite !existsb_app, no_failure_in_frees. simpl.
      rewrite !bool_decide_false by done. done.
  - destruct (oom_outcome_teardown w mid t tr d received extra pre)
      as (Hsched & Hgone & Hkept & delta & Hdelta & _); try done.
    exists (oom_outcome mid t tr d), delta. split; [exact Hrun|]. split; [exact Hdelta|].
    intros _ item d' bs Hin Hitem Hbuf.
    split; [now apply Hgone|].
    destruct Hready as [Hwf Ht Hd Hbuf0 Hact Hown Hqwf Hnq Hpriv].
    assert (Hin' : item ∈ scheduled_interupts w /\
                   hndl_of (heap w) item = Some (idata_hndl d)).
    { unfold queued_for in Hin. apply list_elem_of_filter in Hin. tauto. }
    assert (Hbn : idata_buffer d' <> NULL) by (eapply live_not_null; eauto).
    assert (Hrec : record_at (heap w) item = Some d')
      by (unfold record_at; now rewrite Hitem).
    assert (Hb_in : idata_buffer d' ∈ queue_buffers (heap w) (scheduled_interupts w)).
    { apply elem_of_queue_buffers. split; [done|]. exists item, d'. tauto. }
    split.
    + unfold oom_outcome. cbn [heap].
      rewrite lookup_foldr_delete_not_elem_of; [now apply Hsub|].
      rewrite !elem_of_app, !elem_of_cons.
      intros [[E|[E|?%elem_of_nil]]|[Ho|Hg]]; try done; try congruence.
      * unfold own_buffer in Ho.
        destruct (decide (idata_buffer d = NULL)); [set_solver|].
        apply list_elem_of_singleton in Ho. apply Hpriv. now rewrite <- Ho.
      * apply queued_for_records in Hg as [d2 Hd2].
        apply Hsub in Hbuf. congruence.
    + rewrite Hsched. intros (_ & x & dx & Hx & Hrx & Hbx)%elem_of_queue_buffers.
      assert (Hx' := Hx). unfold queued_for_others in Hx'.
      apply list_elem_of_filter in Hx' as [Hhx Hxq].
      pose proof (queue_wf_records _ _ Hqwf) as Hrecs. rewrite Forall_forall in Hrecs.
      destruct (Hrecs _ Hxq) as [dx0 Hdx0].
      assert (Hx0 : heap w !! x = Some (BIdata dx0)).
      { unfold record_at in Hdx0. destruct (heap w !! x) as [[]|]; congruence. }
      destruct (Hkept x dx0 Hx Hx0) as [Hx1 _].
      unfold record_at in Hrx. rewrite Hx1 in Hrx. injection Hrx as <-.
      assert (item = x) as <-.
      { destruct Hqwf as (_ & _ & Hnb).
        eapply (queue_buffers_inj (heap w)); eauto; tauto. }
      tauto.
Qed.

Lemma alloc_failure_leaks_queued_buffers_witness :
  let w := example_world (fun _ => false) (fun _ => 0) in
  exists w' delta,
    input_interrupt_cb 4 w = Some (tt, w') /\
    trace w' = [] ++ delta /\
    (existsb is_alloc_failure delta = true ->
     forall item d' bs,
       item ∈ queued_for 1 example_heap [10; 12; 14]%N ->
       example_heap !! item = Some (BIdata d') ->
       example_heap !! idata_buffer d' = Some (BBytes bs) ->
       heap w' !! item = None /\
       heap w' !! idata_buffer d' = Some (BBytes bs) /\
       idata_buffer d' ∉ queue_buffers (heap w') (scheduled_interupts w')).
Proof.
  apply (alloc_failure_leaks_queued_buffers (example_world (fun _ => false) (fun _ => 0))
           4 example_transfer example_request [10; 20; 30; 40]).
  constructor; compute_done.
Defined.

(** ** A round of the main loop *)

Lemma drain_scheduled_interupts_run (w : World) :
  heap_wf (heap w) -> queue_wf (heap w) (scheduled_interupts w) ->
  drain_scheduled_interupts w =
    Some (tt, mkWorld (env w) (clock w)
                (foldr delete (heap w)
                   (scheduled_interupts w ++ queue_buffers (heap w) (scheduled_interupts w)))
                []
                (trace w ++ concat (map (delivery (heap w)) (scheduled_interupts w)))).
Proof.
  intros Hwf Hq.
  destruct (foreach_deliver _ w Hwf Hq) as (h' & Hrun & _ & Hh').
  destruct w as [e c h q tr]; simpl in *.
  destruct q as [|item q].
  - unfold drain_scheduled_interupts, list_len. run. simpl. now rewrite app_nil_r.
  - unfold drain_scheduled_interupts, list_len, list_clear. run.
    destruct (decide _) as [_|Hlen]; [|simpl in Hlen; lia].
    run. rewrite Hrun. run. now rewrite Hh'.
Qed.

(** The bytes libusb writes for a completion, and the transfer afterwards. *)
Lemma complete_transfer_run (w : World) t tr old data :
  heap w !! t = Some (BTransfer tr) ->
  heap w !! t_buffer tr = Some (BBytes old) ->
  0 <= t_length tr <= Z.of_nat (length old) ->
  let n := Z.min (Z.of_nat (length data)) (t_length tr) in
  complete_transfer (mkCompletion t data) w =
    input_interrupt_cb t
      (set_heap
         (<[t := BTransfer (mkTransfer (t_dev_handle tr) (t_endpoint tr) (t_buffer tr)
                              (t_length tr) n (t_user_data tr))]>
            (<[t_buffer tr := BBytes (take (Z.to_nat n) data ++ drop (Z.to_nat n) old)]>
               (heap w))) w).
Proof.
  intros Ht Hb Hlen n. destruct w as [e c h q tr0]; simpl in *.
  assert (t <> t_buffer tr) by congruence.
  unfold complete_transfer. simpl. run. rewrite Ht. run. rewrite Hb. run.
  rewrite decide_True by lia. run. rewrite Hb. run. map_lookup. rewrite Ht. run.
  reflexivity.
Qed.

Section Completed.

Context (w : World) (t : N) (tr : libusb_transfer) (d : InputInterruptData)
  (old data : list Z).

Hypothesis Hwf : heap_wf (heap w).

Hypothesis Ht : heap w !! t = Some (BTransfer tr).

Hypothesis Hd : heap w !! t_user_data tr = Some (BIdata d).

Hypothesis Hb : heap w !! t_buffer tr = Some (BBytes old).

Hypothesis Hown : idata_buffer d = t_buffer tr.

Hypothesis Hlen : 0 <= t_length tr <= Z.of_nat (length old).

Hypothesis Hq : scheduled_interupts w = [].

Hypothesis Hcompleted : env_completions (env w) (clock w) = [mkCompletion t data].

Let n := Z.min (Z.of_nat (length data)) (t_length tr).

Let tr' := mkTransfer (t_dev_handle tr) (t_endpoint tr) (t_buffer tr) (t_length tr) n
             (t_user_data tr).

Let received := take (Z.to_nat n) data ++ drop (Z.to_nat n) old.

Let w0 := mkWorld (env w) (S (clock w))
            (<[t := BTransfer tr']> (<[t_buffer tr := BBytes received]> (heap w)))
            [] (trace w).

Lemma completed_ready : completion_ready w0 t tr' d received.
Proof.
  assert (t <> t_buffer tr /\ t <> t_user_data tr /\ t_user_data tr <> t_buffer tr)
    as (? & ? & ?) by (repeat split; congruence).
  assert (t <> NULL /\ t_buffer tr <> NULL) as [? ?]
    by (split; eapply live_not_null; eauto).
  constructor; unfold w0; cbn [heap scheduled_interupts t_user_data t_buffer t_actual_length tr'].
  - unfold heap_wf. now map_lookup.
  - now map_lookup.
  - now map_lookup.
  - now map_lookup.
  - unfold received. rewrite length_overwrite; unfold n; lia.
  - right. rewrite Hown. unfold is_bytes. now map_lookup.
  - apply queue_wf_nil.
  - set_solver.
  - set_solver.
Qed.

Lemma mainloop_completed :
  sccd_usb_helper_mainloop w =
    (input_interrupt_cb t ;; drain_scheduled_interupts) w0.
Proof.
  unfold sccd_usb_helper_mainloop, libusb_handle_events_timeout_completed.
  pose proof (complete_transfer_run (set_clock (S (clock w)) w) t tr old data Ht Hb Hlen)
    as Hrun.
  destruct w as [e c h q tr0]; simpl in *. subst q.
  run. rewrite Hcompleted. simpl. run. rewrite Hrun. fold n. fold tr'. fold received.
  destruct (input_interrupt_cb t _) as [[[] w1]|]; reflexivity.
Qed.

Lemma take_received : take (Z.to_nat n) received = take (Z.to_nat n) data.
Proof.
  unfold received. rewrite take_app_le by (rewrite length_take; unfold n; lia).
  rewrite take_take. f_equal. lia.
Qed.

(** X3.  One round of the main loop in which one transfer completes, the
    queue being empty and the three allocations of the handler succeeding:
    when the transfer is resubmitted, the callback runs exactly once, with
    the direction bit of the endpoint cleared and the bytes that arrived;
    the only input or output is the resubmission, the queue is empty again,
    and the heap differs only in the transfer and its buffer. *)
Theorem mainloop_delivers_completed_read :
  env_alloc (env w) (1 + clock w) = true ->
  env_alloc (env w) (2 + clock w) = true ->
  env_alloc (env w) (3 + clock w) = true ->
  env_ret (env w) (4 + clock w) = 0 ->
  exists w' delta copy,
    sccd_usb_helper_mainloop w = Some (tt, w') /\
    trace w' = trace w ++ delta /\
    callbacks delta =
      [EvCallback (idata_cb d) (idata_hndl d)
         (uint8_t (Z.land (t_endpoint tr) (Z.lnot LIBUSB_ENDPOINT_DIR_MASK)))
         copy (Some (take (Z.to_nat n) data)) (idata_userdata d)] /\
    filter is_io delta = [EvSubmit t tr' 0] /\
    scheduled_interupts w' = [] /\
    heap w' = <[t := BTransfer tr']> (<[t_buffer tr := BBytes received]> (heap w)).
Proof.
  intros Ha1 Ha2 Ha3 Herr.
  pose proof completed_ready as Hready.
  destruct (copy_ptrs_spec w0) as (Hp1 & Hf1 & Hp2 & Hf2 & Hp12).
  destruct (queued_world_ready w0 t tr' d received Hready)
    as (Hwf1 & Ht1 & Hd1 & Hown1 & Hrec1 & Hnd1 & Hnq1 & Hsub).
  destruct (queued_world_queue_wf w0 t tr' d received Hready) as [Hq1 Hpriv1].
  rewrite mainloop_completed.
  erewrite bind_run.
  2:{ rewrite (input_interrupt_cb_queues w0 t tr' d received Hready) by exact Ha1 || exact Ha2 || exact Ha3.
      destruct (decide _) as [Hne|_]; [exfalso; apply Hne; exact Herr|reflexivity]. }
  rewrite drain_scheduled_interupts_run by done.
  eexists _, _, (copy_ptr w0). split; [reflexivity|].
  cbn [env clock heap scheduled_interupts trace queued_world w0] in *.
  set (p1 := record_ptr w0) in *. set (p2 := copy_ptr w0) in *.
  set (h1 := <[t := BTransfer tr']> (<[t_buffer tr := BBytes received]> (heap w))) in *.
  set (hq := <[p1 := BIdata (scheduled_record d tr' p2)]>
               (<[p2 := BBytes (take (Z.to_nat (t_actual_length tr')) received)]> h1)) in *.
  assert (Hr1 : record_at hq p1 = Some (scheduled_record d tr' p2)).
  { unfold record_at, hq. now map_lookup. }
  assert (Hc1 : buffer_contents hq p2 = Some (take (Z.to_nat n) data)).
  { unfold buffer_contents, hq. rewrite decide_False by done. map_lookup.
    cbn [t_actual_length tr']. now rewrite take_received. }
  assert (Hqb : queue_buffers hq [p1] = [p2]).
  { rewrite queue_buffers_cons, Hr1. cbn [idata_buffer scheduled_record].
    now rewrite decide_False by done. }
  rewrite !app_nil_l, Hqb. cbn [map concat]. unfold delivery, callback_of. rewrite Hr1.
  cbn [idata_buffer idata_cb idata_hndl idata_endpoint idata_userdata scheduled_record].
  rewrite Hc1, decide_False by done. rewrite app_nil_r, <- app_assoc.
  split; [reflexivity|].
  split; [reflexivity|].
  split.
  { change (env_ret (env w) (3 + S (clock w))) with (env_ret (env w) (4 + clock w)).
    rewrite Herr. reflexivity. }
  split; [reflexivity|].
  cbn [foldr app]. unfold hq. map_eq_cases [p1; p2].
Qed.

(** X4.  The same round when the resubmission fails: the callback runs
    twice, first with the bytes that arrived and then with a null buffer
    and the endpoint stored in the request record; the transfer, its
    request record and its buffer are freed, and the rest of the heap is as
    it was. *)
Theorem mainloop_reports_failed_resubmission :
  env_alloc (env w) (1 + clock w) = true ->
  env_alloc (env w) (2 + clock w) = true ->
  env_alloc (env w) (3 + clock w) = true ->
  env_ret (env w) (4 + clock w) <> 0 ->
  env_alloc (env w) (5 + clock w) = true ->
  exists w' delta copy,
    sccd_usb_helper_mainloop w = Some (tt, w') /\
    trace w' = trace w ++ delta /\
    callbacks delta =
      [EvCallback (idata_cb d) (idata_hndl d)
         (uint8_t (Z.land (t_endpoint tr) (Z.lnot LIBUSB_ENDPOINT_DIR_MASK)))
         copy (Some (take (Z.to_nat n) data)) (idata_userdata d);
       EvCallback (idata_cb d) (idata_hndl d) (idata_endpoint d) NULL None
         (idata_userdata d)] /\
    filter is_io delta = [EvSubmit t tr' (env_ret (env w) (4 + clock w))] /\
    scheduled_interupts w' = [] /\
    heap w' = delete t (delete (t_user_data tr) (delete (t_buffer tr) (heap w))).
Proof.
  intros Ha1 Ha2 Ha3 Herr Ha5.
  pose proof completed_ready as Hready.
  destruct (copy_ptrs_spec w0) as (Hp1 & Hf1 & Hp2 & Hf2 & Hp12).
  destruct (failure_ptr_spec w0 t tr' d received) as [Hp3 Hf3].
  destruct (queued_world_ready w0 t tr' d received Hready)
    as (Hwf1 & Ht1 & Hd1 & Hown1 & Hrec1 & Hnd1 & Hnq1 & Hsub).
  destruct (resubmit_failed_world_queue_wf w0 t tr' d received Hready) as [Hwf2 Hq2].
  assert (t <> t_buffer tr /\ t <> t_user_data tr /\ t_user_data tr <> t_buffer tr)
    as (? & ? & ?) by (repeat split; congruence).
  assert (Hbn : t_buffer tr <> NULL) by exact (live_not_null _ _ _ Hwf Hb).
  rewrite mainloop_completed.
  erewrite bind_run.
  2:{ rewrite (input_interrupt_cb_queues w0 t tr' d received Hready) by exact Ha1 || exact Ha2 || exact Ha3.
      destruct (decide _) as [_|Hne]; [|exfalso; apply Hne; exact Herr].
      apply (input_interrupt_cb_resubmit_failed_queues _ t tr' d); try done. }
  rewrite drain_scheduled_interupts_run by done.
  eexists _, _, (copy_ptr w0). split; [reflexivity|].
  unfold failure_ptr in *. unfold own_buffer in *. rewrite Hown in *.
  rewrite (decide_False (P := t_buffer tr = NULL)) in * by done.
  cbn [env clock heap scheduled_interupts trace queued_world w0 app foldr] in *.
  set (p1 := record_ptr w0) in *. set (p2 := copy_ptr w0) in *.
  set (h1 := <[t := BTransfer tr']> (<[t_buffer tr := BBytes received]> (heap w))) in *.
  set (hq := <[p1 := BIdata (scheduled_record d tr' p2)]>
               (<[p2 := BBytes (take (Z.to_nat (t_actual_length tr')) received)]> h1)) in *.
  set (p3 := fresh_ptr hq) in *.
  set (h2 := delete t (delete (t_user_data tr') (delete (t_buffer tr)
               (<[p3 := BIdata (failure_record d)]> hq)))) in *.
  assert (Hlive : forall a b, heap w !! a = Some b -> a <> p1 /\ a <> p2 /\ a <> p3).
  { intros a b Hab.
    assert (is_Some (h1 !! a)) as [b' Hb'].
    { unfold h1. destruct (decide (a = t)) as [->|]; [map_lookup; eauto|].
      destruct (decide (a = t_buffer tr)) as [->|]; map_lookup; eauto. }
    repeat split; intros ->; try congruence. apply Hsub in Hb'. congruence. }
  destruct (Hlive _ _ Ht) as (?&?&?), (Hlive _ _ Hd) as (?&?&?), (Hlive _ _ Hb) as (?&?&?).
  assert (p3 <> p1 /\ p3 <> p2) as [? ?].
  { unfold hq in Hf3. apply lookup_insert_None in Hf3 as [Hf3 ?].
    apply lookup_insert_None in Hf3 as [Hf3 ?]. split; congruence. }
  cbn [t_user_data tr'] in *.
  assert (Hr1 : record_at h2 p1 = Some (scheduled_record d tr' p2)).
  { unfold record_at, h2, hq. now map_lookup. }
  assert (Hr3 : record_at h2 p3 = Some (failure_record d)).
  { unfold record_at, h2, hq. now map_lookup. }
  assert (Hc1 : buffer_contents h2 p2 = Some (take (Z.to_nat n) data)).
  { unfold buffer_contents, h2, hq. rewrite decide_False by done. map_lookup.
    cbn [t_actual_length tr']. now rewrite take_received. }
  assert (Hqb : queue_buffers h2 [p1; p3] = [p2]).
  { rewrite !queue_buffers_cons, Hr1, Hr3.
    cbn [idata_buffer scheduled_record failure_record].
    rewrite decide_False, decide_True by done. reflexivity. }
  rewrite Hqb. cbn [map concat foldr]. unfold delivery, callback_of. rewrite Hr1, Hr3.
  cbn [idata_buffer idata_cb idata_hndl idata_endpoint idata_userdata scheduled_record
       failure_record].
  rewrite Hc1, decide_False, decide_True by done.
  unfold buffer_contents. rewrite decide_True by done.
  split; [rewrite <- !app_assoc; reflexivity|].
  split; [reflexivity|].
  split; [reflexivity|].
  split; [reflexivity|].
  assert (Hfresh : forall a, h1 !! a = None -> heap w !! a = None).
  { intros a Ha. unfold h1 in Ha. apply lookup_insert_None in Ha as [Ha _].
    now apply lookup_insert_None in Ha as [Ha _]. }
  assert (heap w !! p1 = None /\ heap w !! p2 = None /\ heap w !! p3 = None)
    as (E1 & E2 & E3).
  { repeat split; apply Hfresh; try done.
    unfold hq in Hf3. apply lookup_insert_None in Hf3 as [Hf3 _].
    now apply lookup_insert_None in Hf3 as [Hf3 _]. }
  unfold h2, hq, h1.
  map_eq_cases [p1; p3; p2; t; t_user_data tr; t_buffer tr]; congruence.
Qed.

End Completed.

Lemma mainloop_delivers_completed_read_witness :
  let w := idle_world (fun _ => true) (fun _ => 0)
             (fun k => if decide (k = 0%nat) then [mkCompletion 4 [5; 6; 7]] else []) in
  let tr' := mkTransfer 7 0x81 2 4 3 3 in
  exists w' delta copy,
    sccd_usb_helper_mainloop w = Some (tt, w') /\
    trace w' = [] ++ delta /\
    callbacks delta = [EvCallback 100 1 0x01 copy (Some [5; 6; 7]) 200] /\
    filter is_io delta = [EvSubmit 4 tr' 0] /\
    scheduled_interupts w' = [] /\
    heap w' = <[4%N := BTransfer tr']> (<[2%N := BBytes [5; 6; 7; 40]]> example_heap).
Proof.
  apply (mainloop_delivers_completed_read
           (idle_world (fun _ => true) (fun _ => 0)
              (fun k => if decide (k = 0%nat) then [mkCompletion 4 [5; 6; 7]] else []))
           4 example_transfer example_request [10; 20; 30; 40] [5; 6; 7]);
    try reflexivity.
  simpl. lia.
Defined.

Lemma mainloop_reports_failed_resubmission_witness :
  let w := idle_world (fun _ => true) (fails_at 4 (-1))
             (fun k => if decide (k = 0%nat) then [mkCompletion 4 [5; 6; 7]] else []) in
  let tr' := mkTransfer 7 0x81 2 4 3 3 in
  exists w' delta copy,
    sccd_usb_helper_mainloop w = Some (tt, w') /\
    trace w' = [] ++ delta /\
    callbacks delta = [EvCallback 100 1 0x01 copy (Some [5; 6; 7]) 200;
                       EvCallback 100 1 0x55 NULL None 200] /\
    filter is_io delta = [EvSubmit 4 tr' (-1)] /\
    scheduled_interupts w' = [] /\
    heap w' = delete 4%N (delete 3%N (delete 2%N example_heap)).
Proof.
  apply (mainloop_reports_failed_resubmission
           (idle_world (fun _ => true) (fails_at 4 (-1))
              (fun k => if decide (k = 0%nat) then [mkCompletion 4 [5; 6; 7]] else []))
           4 example_transfer example_request [10; 20; 30; 40] [5; 6; 7]);
    try reflexivity.
  - simpl. lia.
  - compute_done.
Defined.

(** ** Writes and requests *)

Lemma hid_out_request_type :
  uint8_t (Z.lor (Z.land 0x21 (Z.lnot LIBUSB_ENDPOINT_DIR_MASK)) LIBUSB_ENDPOINT_OUT) = 0x21.
Proof. reflexivity. Qed.

Lemma hid_in_request_type :
  uint8_t (Z.lor (Z.land 0xa1 (Z.lnot LIBUSB_ENDPOINT_DIR_MASK)) LIBUSB_ENDPOINT_IN) = 0xa1.
Proof. reflexivity. Qed.

(** An outgoing control transfer leaves the heap as it is. *)
Lemma libusb_control_transfer_out (w : World) dev rt req val idx data len timeout bs :
  heap w !! data = Some (BBytes bs) ->
  len <= Z.of_nat (length bs) ->
  Z.land rt LIBUSB_ENDPOINT_DIR_MASK = 0 ->
  libusb_control_transfer dev rt req val idx data len timeout w =
    Some (env_ret (env w) (clock w),
          mkWorld (env w) (S (clock w)) (heap w) (scheduled_interupts w)
            (trace w ++ [EvControl dev rt req val idx data len timeout
                           (env_ret (env w) (clock w))])).
Proof.
  intros Hdata Hlen Hout. destruct w as [e c h q tr]; simpl in *.
  unfold libusb_control_transfer. run. rewrite Hdata. run.
  rewrite decide_False by lia. run.
  rewrite decide_False by (intros [? _]; congruence). run. reflexivity.
Qed.

(** X5.  [sccd_usb_dev_hid_write] returns on every kind of handle; it
    allocates nothing, frees nothing, calls no callback and leaves heap and
    queue as they are.  It sends once: a control transfer with request type
    0x21, request 0x09, value 0x0300 and timeout 0 on the event backend,
    one [hid_write] of the first [len] bytes on the blocking-read backend,
    and nothing on any other subsystem. *)
Theorem hid_write_sends_once (w : World) hndl idx data len h bs :
  heap w !! hndl = Some (BHandle h) ->
  heap w !! data = Some (BBytes bs) ->
  0 <= len <= Z.of_nat (length bs) ->
  exists w' delta,
    sccd_usb_dev_hid_write hndl idx data len w = Some (tt, w') /\
    trace w' = trace w ++ delta /\
    heap w' = heap w /\
    scheduled_interupts w' = scheduled_interupts w /\
    filter is_alloc delta = [] /\
    filter is_free delta = [] /\
    callbacks delta = [] /\
    filter is_io delta =
      match h_sys h with
      | USB => [EvControl (h_dev h) 0x21 0x09 0x0300 idx data len 0
                  (env_ret (env w) (clock w))]
      | HIDAPI => [EvHidWrite (h_dev h) (take (Z.to_nat len) bs) len]
      | OtherSubsystem _ => []
      end.
Proof.
  intros Hh Hdata Hlen.
  unfold sccd_usb_dev_hid_write. erewrite bind_run by (apply load_handle_run; eauto).
  rewrite hid_out_request_type.
  destruct (h_sys h).
  - erewrite bind_run by (eapply libusb_control_transfer_out; eauto; lia).
    destruct w as [e c hp q tr]; simpl in *.
    destruct (decide (env_ret e c < 0)); run;
      eexists _, _; (split; [reflexivity|]); simpl;
      rewrite <- ?app_assoc; repeat split; reflexivity.
  - destruct w as [e c hp q tr]; simpl in *. unfold hid_write. run. rewrite Hdata. run.
    rewrite decide_False by lia. run.
    eexists _, _. split; [reflexivity|]. simpl. repeat split; reflexivity.
  - destruct w as [e c hp q tr]; simpl in *. run.
    eexists _, _. split; [reflexivity|]. simpl. repeat split; reflexivity.
Qed.

Lemma hid_write_sends_once_witness :
  exists w' delta,
    sccd_usb_dev_hid_write 5 3 2 4 (example_world (fun _ => true) (fun _ => 0)) =
      Some (tt, w') /\
    trace w' = [] ++ delta /\
    heap w' = example_heap /\
    scheduled_interupts w' = [10; 12; 14]%N /\
    filter is_alloc delta = [] /\
    filter is_free delta = [] /\
    callbacks delta = [] /\
    filter is_io delta = [EvHidWrite 9 (take 4 [10; 20; 30; 40]) 4].
Proof.
  apply (hid_write_sends_once (example_world (fun _ => true) (fun _ => 0)) 5 3 2 4
           (mkHandle HIDAPI 9 5) [10; 20; 30; 40]).
  - reflexivity.
  - reflexivity.
  - simpl. lia.
Defined.

(** An incoming control transfer overwrites the front of its buffer with
    what the device answered. *)
Lemma libusb_control_transfer_in (w : World) dev rt req val idx data len timeout bs :
  heap w !! data = Some (BBytes bs) ->
  0 <= len <= Z.of_nat (length bs) ->
  Z.land rt LIBUSB_ENDPOINT_DIR_MASK <> 0 ->
  let err := env_ret (env w) (clock w) in
  let answer := env_bytes (env w) (clock w) in
  let k := Z.to_nat (Z.min (Z.min err len) (Z.of_nat (length answer))) in
  libusb_control_transfer dev rt req val idx data len timeout w =
    Some (err,
          mkWorld (env w) (S (clock w))
            (<[data := BBytes (take k answer ++ drop k bs)]> (heap w))
            (scheduled_interupts w)
            (trace w ++ [EvControl dev rt req val idx data len timeout err])).
Proof.
  intros Hdata Hlen Hin. destruct w as [e c h q tr]; simpl in *.
  unfold libusb_control_transfer. run. rewrite Hdata. run.
  rewrite decide_False by lia. run.
  destruct (decide (Z.land rt LIBUSB_ENDPOINT_DIR_MASK <> 0 /\ 0 < env_ret e c))
    as [[_ Hpos]|Hno]; run.
  - rewrite Hdata. run. rewrite decide_True by lia. run. rewrite Hdata. reflexivity.
  - assert (env_ret e c <= 0) by (destruct (decide (0 < env_ret e c)); [tauto|lia]).
    replace (Z.to_nat _) with 0%nat by lia. simpl. now rewrite insert_id.
Qed.

(** X6.  [sccd_usb_dev_hid_request] with a non-negative length on a handle
    that is not of the blocking-read backend: a null result leaves the heap
    as it was, so the output buffer was never obtained or has been freed;
    any other result is a new buffer on a handle of the event backend, both
    control transfers (0x21/0x09 out, 0xa1/0x01 in, value 0x0300, timeout
    500) were made in this order and succeeded, and the buffer holds the
    answer at its front. *)
Theorem hid_request_returns_fresh_answer (w : World) hndl idx data _length h payload :
  heap w !! hndl = Some (BHandle h) ->
  h_sys h <> HIDAPI ->
  heap w !! data = Some (BBytes payload) ->
  0 <= _length ->
  uint16_t _length <= Z.of_nat (length payload) ->
  let len := uint16_t _length in
  let err := env_ret (env w) (2 + clock w) in
  let answer := env_bytes (env w) (2 + clock w) in
  let junk := map (env_junk_byte (env w) (clock w)) (seq 0 (Z.to_nat len)) in
  let k := Z.to_nat (Z.min (Z.min err len) (Z.of_nat (length answer))) in
  exists r w' delta,
    sccd_usb_dev_hid_request hndl idx data _length w = Some (r, w') /\
    trace w' = trace w ++ delta /\
    scheduled_interupts w' = scheduled_interupts w /\
    callbacks delta = [] /\
    (r = NULL -> heap w' = heap w) /\
    (r <> NULL ->
     h_sys h = USB /\
     heap w !! r = None /\
     heap w' = <[r := BBytes (take k answer ++ drop k junk)]> (heap w) /\
     filter is_io delta =
       [EvControl (h_dev h) 0x21 0x09 0x0300 idx data len 500
          (env_ret (env w) (1 + clock w));
        EvControl (h_dev h) 0xa1 0x01 0x0300 idx r len 500 err] /\
     0 <= env_ret (env w) (1 + clock w) /\ 0 <= err).
Proof.
  intros Hh Hsys Hdata Hpos Hfit len err answer junk k.
  pose proof (uint16_t_range _length) as Hr. fold len in Hr, Hfit.
  destruct (malloc_run len w) as (p & Hp & Hrun).
  unfold sccd_usb_dev_hid_request. rewrite decide_False by lia.
  fold len. erewrite bind_run by exact Hrun. clear Hrun.
  destruct (decide (p = NULL)) as [->|Hpn].
  { destruct w as [e c hp q tr]; simpl in *. unfold with_block. simpl. run.
    eexists _, _, _. split; [reflexivity|]. simpl.
    split; [now rewrite <- app_assoc|]. repeat split; try done. }
  destruct Hp as [?|[_ Hfresh]]; [done|].
  assert (hndl <> p /\ data <> p) as [? ?] by (split; congruence).
  unfold with_block. rewrite decide_False by done.
  unfold sccd_usb_dev_hid_request_switch, sccd_usb_dev_hid_request_fail.
  erewrite bind_run by (apply load_handle_run; simpl; map_lookup; eauto).
  rewrite hid_out_request_type, hid_in_request_type.
  destruct (h_sys h) eqn:Esys; [|done|].
  - (* USB *)
    erewrite bind_run.
    2:{ eapply libusb_control_transfer_out; simpl; [map_lookup; eauto|lia|reflexivity]. }
    cbn [env clock heap scheduled_interupts trace].
    destruct (decide (env_ret (env w) (S (clock w)) < 0)).
    + erewrite bind_run by reflexivity. cbn [negb].
      erewrite bind_run.
      2:{ eapply free_live; [done|simpl; apply lookup_insert_eq]. }
      destruct w as [e c hp q tr]; simpl in *.
      eexists _, _, _. split; [reflexivity|]. simpl.
      split; [now rewrite <- !app_assoc|].
      rewrite delete_insert_eq, delete_id by done. repeat split; try done.
    + erewrite bind_run.
      2:{ eapply libusb_control_transfer_in; simpl;
            [apply lookup_insert_eq|rewrite length_map, length_seq; lia|done]. }
      cbn [env clock heap scheduled_interupts trace]. rewrite insert_insert_eq.
      destruct (decide (env_ret (env w) (S (S (clock w))) < 0)).
      * erewrite bind_run by reflexivity. cbn [negb].
        erewrite bind_run.
        2:{ eapply free_live; [done|simpl; apply lookup_insert_eq]. }
        destruct w as [e c hp q tr]; simpl in *.
        eexists _, _, _. split; [reflexivity|]. simpl.
        split; [now rewrite <- !app_assoc|].
        rewrite delete_insert_eq, delete_id by done. repeat split; try done.
      * destruct w as [e c hp q tr]; simpl in *.
        eexists _, _, _. split; [reflexivity|]. simpl.
        split; [now rewrite <- !app_assoc|]. repeat split; try done; lia.
  - (* neither backend *)
    erewrite bind_run by reflexivity. cbn [negb].
    erewrite bind_run.
    2:{ eapply free_live; [done|simpl; apply lookup_insert_eq]. }
    destruct w as [e c hp q tr]; simpl in *.
    eexists _, _, _. split; [reflexivity|]. simpl.
    split; [now rewrite <- !app_assoc|].
    rewrite delete_insert_eq, delete_id by done. repeat split; try done.
Qed.

Lemma hid_request_returns_fresh_answer_witness :
  let w := example_world (fun _ => true) (fun _ => 3) in
  exists r w' delta,
    sccd_usb_dev_hid_request 1 0 2 4 w = Some (r, w') /\
    trace w' = [] ++ delta /\
    scheduled_interupts w' = [10; 12; 14]%N /\
    callbacks delta = [] /\
    (r = NULL -> heap w' = example_heap) /\
    (r <> NULL ->
     USB = USB /\
     example_heap !! r = None /\
     heap w' = <[r := BBytes ([1; 2; 3] ++ [0xAA])]> example_heap /\
     filter is_io delta =
       [EvControl 7 0x21 0x09 0x0300 0 2 4 500 3;
        EvControl 7 0xa1 0x01 0x0300 0 r 4 500 3] /\
     0 <= 3 /\ 0 <= 3).
Proof.
  apply (hid_request_returns_fresh_answer (example_world (fun _ => true) (fun _ => 3))
           1 0 2 4 (mkHandle USB 7 0) [10; 20; 30; 40]).
  - reflexivity.
  - discriminate.
  - reflexivity.
  - lia.
  - vm_compute. discriminate.
Defined.

(** X7.  [sccd_usb_dev_hid_request] with a non-negative length on the
    blocking-read backend, for the index the handle was opened with and a
    length within [BUFFER_MAX]: the report sent is the payload behind a
    report id of 0, one byte longer than the request; when sending or
    reading fails the result is null and the heap is as it was; otherwise
    the result is a new buffer of the requested length holding the answer
    without its first byte. *)
Theorem hid_request_hidapi_strips_report_id (w : World) hndl idx data _length h payload :
  heap w !! hndl = Some (BHandle h) ->
  h_sys h = HIDAPI ->
  h_idx h = idx ->
  heap w !! data = Some (BBytes payload) ->
  0 <= _length ->
  uint16_t _length <= BUFFER_MAX ->
  uint16_t _length <= Z.of_nat (length payload) ->
  env_alloc (env w) (clock w) = true ->
  let len := uint16_t _length in
  let report := 0 :: take (Z.to_nat len) payload in
  let sent := env_ret (env w) (1 + clock w) in
  let got := env_ret (env w) (2 + clock w) in
  let answer := take (Z.to_nat (Z.min got (len + 1))) (env_bytes (env w) (2 + clock w)) in
  exists r w' delta,
    sccd_usb_dev_hid_request hndl idx data _length w = Some (r, w') /\
    trace w' = trace w ++ delta /\
    (sent < 0 ->
     r = NULL /\ heap w' = heap w /\
     filter is_io delta = [EvHidSend (h_dev h) report (len + 1) sent]) /\
    (0 <= sent -> got < 0 ->
     r = NULL /\ heap w' = heap w /\
     filter is_io delta =
       [EvHidSend (h_dev h) report (len + 1) sent; EvHidGet (h_dev h) (len + 1) got]) /\
    (0 <= sent -> 0 <= got ->
     r <> NULL /\ heap w !! r = None /\
     heap w' = <[r := BBytes (drop 1 (answer ++ drop (length answer) report))]> (heap w) /\
     length (drop 1 (answer ++ drop (length answer) report)) = Z.to_nat len /\
     filter is_io delta =
       [EvHidSend (h_dev h) report (len + 1) sent; EvHidGet (h_dev h) (len + 1) got]).
Proof.
  intros Hh Hsys Hidx Hdata Hpos Hmax Hfit Ha len report sent got answer.
  pose proof (uint16_t_range _length) as Hr. fold len in Hr, Hfit, Hmax.
  destruct (fresh_ptr_spec (heap w)) as [Hp Hf].
  assert (Hrep : length report = S (Z.to_nat len)).
  { unfold report. simpl. rewrite length_take. lia. }
  assert (Hans : (length answer <= length report)%nat).
  { unfold answer. rewrite length_take, Hrep. lia. }
  assert (Hout : length (drop 1 (answer ++ drop (length answer) report)) = Z.to_nat len).
  { rewrite length_drop, length_answer_report by done. lia. }
  subst sent got answer.
  destruct w as [e c hp q tr]; simpl in *.
  set (p := fresh_ptr hp) in *.
  assert (hndl <> p /\ data <> p) as [? ?] by (split; congruence).
  unfold sccd_usb_dev_hid_request. rewrite decide_False by lia. fold len.
  unfold sccd_usb_dev_hid_request_switch, sccd_usb_dev_hid_request_fail,
    hid_send_feature_report, hid_get_feature_report.
  run. rewrite Ha. rewrite bool_decide_true by lia. run. fold p.
  rewrite (decide_False (P := p = NULL)) by done. run.
  map_lookup. rewrite Hh. run. rewrite Hsys.
  rewrite decide_False by lia. run. map_lookup. rewrite Hdata. run.
  rewrite decide_False by lia. run. rewrite decide_False by (intros ?; congruence).
  run. fold report.
  assert (Htake : take (Z.to_nat (len + 1)) report = report).
  { apply take_ge. unfold report. simpl. rewrite length_take. lia. }
  rewrite Htake.
  destruct (decide (env_ret e (S c) < 0)).
  { run. erewrite free_live; [|done|simpl; apply lookup_insert_eq]. run.
    eexists _, _, _. split; [reflexivity|]. simpl.
    split; [now rewrite <- !app_assoc|].
    rewrite delete_insert_eq, delete_id by done.
    split; [done|]. split; intros; lia. }
  run. destruct (decide (env_ret e (S (S c)) < 0)).
  { run. erewrite free_live; [|done|simpl; apply lookup_insert_eq]. run.
    eexists _, _, _. split; [reflexivity|]. simpl.
    split; [now rewrite <- !app_assoc|].
    rewrite delete_insert_eq, delete_id by done.
    split; [intros; lia|]. split; [done|]. intros; lia. }
  run. map_lookup. run.
  rewrite decide_True by (rewrite length_map, length_seq; lia). run. map_lookup.
  rewrite insert_insert_eq.
  eexists _, _, _. split; [reflexivity|]. simpl.
  split; [now rewrite <- !app_assoc|].
  split; [intros; lia|]. split; [intros; lia|]. intros _ _.
  split; [done|]. split; [done|]. split; [|done].
  f_equal. f_equal.
  rewrite (drop_ge (map _ _)) by (rewrite length_map, length_seq; lia).
  rewrite app_nil_r. apply take_ge. lia.
Qed.

Lemma hid_request_hidapi_strips_report_id_witness :
  let w := example_world (fun _ => true) (fun _ => 2) in
  exists r w' delta,
    sccd_usb_dev_hid_request 5 5 2 4 w = Some (r, w') /\
    trace w' = [] ++ delta /\
    (2 < 0 ->
     r = NULL /\ heap w' = example_heap /\
     filter is_io delta = [EvHidSend 9 [0; 10; 20; 30; 40] 5 2]) /\
    (0 <= 2 -> 2 < 0 ->
     r = NULL /\ heap w' = example_heap /\
     filter is_io delta = [EvHidSend 9 [0; 10; 20; 30; 40] 5 2; EvHidGet 9 5 2]) /\
    (0 <= 2 -> 0 <= 2 ->
     r <> NULL /\ example_heap !! r = None /\
     heap w' = <[r := BBytes [2; 20; 30; 40]]> example_heap /\
     length [2; 20; 30; 40] = 4%nat /\
     filter is_io delta = [EvHidSend 9 [0; 10; 20; 30; 40] 5 2; EvHidGet 9 5 2]).
Proof.
  apply (hid_request_hidapi_strips_report_id (example_world (fun _ => true) (fun _ => 2))
           5 5 2 4 (mkHandle HIDAPI 9 5) [10; 20; 30; 40]).
  - reflexivity.
  - reflexivity.
  - reflexivity.
  - reflexivity.
  - lia.
  - vm_compute. discriminate.
  - vm_compute. discriminate.
  - reflexivity.
Defined.

(** ** Opening a device *)

(** What the scan of the device list does.  When a device at the address
    is in the list, the block for the handle is granted and the native
    open succeeds, the scan stores into the handle, which is undefined.
    Otherwise it returns with the heap as it was. *)
Lemma open_by_syspath_scan_outcomes devs bus address (w : World) :
  let reach := Exists (at_address bus address) devs /\
               env_alloc (env w) (clock w) = true /\
               env_ret (env w) (S (clock w)) = 0 in
  (reach -> open_by_syspath_scan devs bus address w = None) /\
  (~ reach ->
   exists res w' delta,
     open_by_syspath_scan devs bus address w = Some (res, w') /\
     trace w' = trace w ++ delta /\
     scheduled_interupts w' = scheduled_interupts w /\
     callbacks delta = [] /\
     filter is_device_list delta = [] /\
     heap w' = heap w /\
     match res with
     | None => Forall (fun d => ~ at_address bus address d) devs
     | Some r =>
         r <> NULL ->
         heap w !! r = None /\
         exists d,
           at_address bus address d /\
           EvOpen USB (inr (d_bus d, d_address d)) NULL ∈ delta /\
           EvFree r ∈ delta
     end).
Proof.
  induction devs as [|d devs IH]; intros reach; subst reach.
  - split; [intros [H _]; now apply Exists_nil in H|]. intros _.
    exists None, w, []. simpl. unfold ret. rewrite app_nil_r. split_and!; done.
  - destruct (decide (uint8_t (d_bus d) = bus /\ uint8_t (d_address d) = address))
      as [Hat|Hnat].
    + destruct (fresh_ptr_spec (heap w)) as [Hp Hf].
      destruct w as [e c h q tr]; simpl in *. set (p := fresh_ptr h) in *.
      split.
      * intros (_ & Ha & Herr). unfold libusb_open. run.
        rewrite decide_True by done. run. rewrite Ha. run. fold p.
        rewrite (decide_False (P := p = NULL)) by done. run.
        rewrite Herr. rewrite (decide_False (P := 0 <> 0)) by (intros ?; done).
        run. rewrite decide_True by done. run. map_lookup.
        rewrite decide_False; [done|].
        rewrite length_map, length_seq. unfold sizeof_struct_USBDevHandle,
          sizeof_USBDevHandle. simpl. lia.
      * intros Hn.
        assert (Hcase : env_alloc e c = false \/
                        (env_alloc e c = true /\ env_ret e (S c) <> 0)).
        { destruct (env_alloc e c); [right|now left]. split; [done|].
          intros E. apply Hn. split; [now apply Exists_cons_hd|done]. }
        unfold libusb_open. run. rewrite decide_True by done. run.
        destruct Hcase as [Ha|[Ha Herr]]; rewrite Ha; run.
        -- rewrite (decide_True (P := NULL = NULL)) by done. run.
           eexists _, _, _. split; [reflexivity|]. simpl.
           split; [now rewrite <- !app_assoc|]. split_and!; done.
        -- fold p. rewrite (decide_False (P := p = NULL)) by done. run.
           rewrite (decide_True (P := env_ret e (S c) <> 0)) by done. run.
           erewrite free_live; [|done|simpl; apply lookup_insert_eq]. run.
           eexists _, _, _. split; [reflexivity|]. simpl.
           split; [now rewrite <- !app_assoc|].
           rewrite delete_insert_eq, delete_id by done.
           do 4 (split; [done|]). intros _. split; [done|].
           exists d. split; [done|].
           rewrite (decide_False (P := env_ret e (S c) = 0)) by done.
           split; set_solver.
    + assert (Hex : Exists (at_address bus address) (d :: devs) <->
                    Exists (at_address bus address) devs).
      { rewrite Exists_cons. unfold at_address at 1. tauto. }
      destruct (IH) as [IHreach IHrest]. simpl.
      rewrite decide_False by done. split.
      * intros (H1 & H2 & H3). apply IHreach. split; [now apply Hex|done].
      * intros Hn. destruct IHrest as (res & w' & delta & Hrun & Htr & Hq & Hcb & Hdl & Hh
                                       & Hres).
        { intros (H1 & H2 & H3). apply Hn. split; [now apply Hex|done]. }
        exists res, w', delta. split_and!; try done.
        destruct res; [done|]. apply Forall_cons. split; [exact Hnat|done].
Qed.

(** Once the address is known, the device list is walked. *)
Lemma open_by_syspath_resolved (w : World) syspath bus address :
  String.prefix "/hidapi/" syspath = false ->
  get_usb_address syspath w = Some ((true, bus, address), w) ->
  (open_reaches_stores w bus address ->
   sccd_usb_dev_open_by_syspath syspath w = None) /\
  (~ open_reaches_stores w bus address ->
   exists r w' delta,
     sccd_usb_dev_open_by_syspath syspath w = Some (r, w') /\
     trace w' = trace w ++ delta /\
     scheduled_interupts w' = scheduled_interupts w /\
     callbacks delta = [] /\
     open_outcome bus address w r w' delta).
Proof.
  intros Hhid Haddr.
  unfold sccd_usb_dev_open_by_syspath. rewrite Hhid.
  erewrite bind_run by exact Haddr. cbn [negb].
  unfold libusb_get_device_list, open_outcome, open_reaches_stores.
  set (err := env_ret (env w) (clock w)). set (devs := env_devices (env w) (clock w)).
  destruct (decide (err < 0)) as [Herr|Herr].
  { split; [intros (? & _); done|]. intros _.
    destruct w as [e c h q tr]. simpl in *. run. fold err. rewrite decide_True by done.
    run. eexists _, _, _. split; [reflexivity|]. simpl.
    split; [now rewrite <- !app_assoc|]. repeat split; try done.
    right; left. exists err. done. }
  destruct (open_by_syspath_scan_outcomes devs bus address
              (mkWorld (env w) (S (clock w)) (heap w) (scheduled_interupts w)
                 (trace w ++ [EvGetDeviceList (Z.of_nat (length devs))])))
    as [Hreach Hrest].
  cbn [env clock] in Hreach, Hrest.
  clear Haddr. split.
  - intros (_ & Hex & Ha & Ho). specialize (Hreach (conj Hex (conj Ha Ho))).
    destruct w as [e c h q tr]. simpl in *. run. fold err. rewrite decide_False by done.
    run. cbn [default from_option id]. run. fold devs. now rewrite Hreach.
  - intros Hn.
    destruct Hrest as (res & w1 & delta & Hrun & Htr & Hq & Hcb & Hdl & Hh & Hres).
    { intros (Hex & Ha & Ho). apply Hn. done. }
    assert (Hlists : forall rest,
              filter is_device_list rest = [] ->
              filter is_device_list
                ([EvGetDeviceList (Z.of_nat (length devs))] ++ delta ++ rest
                 ++ [EvFreeDeviceList]) =
              [EvGetDeviceList (Z.of_nat (length devs)); EvFreeDeviceList]).
    { intros rest Hrest. rewrite !filter_app, Hdl, Hrest. reflexivity. }
    destruct w as [e c h q tr]. simpl in *. run. fold err. rewrite decide_False by done.
    run. cbn [default from_option id]. run. fold devs. rewrite Hrun.
    destruct w1 as [e1 c1 h1 q1 tr1]. simpl in *. subst.
    destruct res as [r|]; run.
    + eexists _, _, _. split; [reflexivity|]. simpl.
      split; [rewrite <- !app_assoc; reflexivity|]. split; [done|].
      split; [rewrite !callbacks_app, Hcb; reflexivity|].
      split.
      { right; right. exists (Z.of_nat (length devs)). split; [lia|].
        apply (Hlists []). reflexivity. }
      split; [done|]. intros Hr. destruct (Hres Hr) as (Hf & d & Hd & Ho & Hfr).
      split; [done|]. exists d. split; [done|]. split; set_solver.
    + eexists _, _, _. split; [reflexivity|]. simpl.
      split; [rewrite <- !app_assoc; reflexivity|]. split; [done|].
      split; [rewrite !callbacks_app, Hcb; reflexivity|].
      split.
      { right; right. exists (Z.of_nat (length devs)). split; [lia|].
        apply (Hlists [EvLog _]). reflexivity. }
      split; done.
Qed.

(** X8.  [sccd_usb_dev_open_by_syspath] on a syspath of neither made-up
    kind never hands out a handle.  When the address is read from [busnum]
    and [devnum], a device at that address, each number cut to 8 bits, is
    enumerated, the block for the handle is granted and the native open
    succeeds, the stores into the handle run past the block of
    [sizeof(USBDevHandle)] bytes, which is undefined.  In every other case
    the call returns, calls no callback and leaves heap and queue as they
    were; the device list is freed if it was obtained, and a result that
    is not null is the address of the block freed after the failed native
    open. *)
Theorem open_by_syspath_outcomes (w : World) syspath :
  String.prefix "/hidapi/" syspath = false ->
  String.prefix "/win32/usb/" syspath = false ->
  let i := env_read_long_from_file (env w) (syspath +:+ "/busnum") in
  let j := env_read_long_from_file (env w) (syspath +:+ "/devnum") in
  let resolved := Z.of_nat (String.length syspath) + 7 < 4096 /\ 0 <= i /\ 0 <= j in
  (resolved /\ open_reaches_stores w (uint8_t i) (uint8_t j) ->
   sccd_usb_dev_open_by_syspath syspath w = None) /\
  (~ (resolved /\ open_reaches_stores w (uint8_t i) (uint8_t j)) ->
   exists r w' delta,
     sccd_usb_dev_open_by_syspath syspath w = Some (r, w') /\
     trace w' = trace w ++ delta /\
     scheduled_interupts w' = scheduled_interupts w /\
     callbacks delta = [] /\
     open_outcome (uint8_t i) (uint8_t j) w r w' delta).
Proof.
  intros Hhid Hwin i j resolved.
  destruct (decide (Z.of_nat (String.length syspath) + 7 < 4096 /\ 0 <= i /\ 0 <= j))
    as [(Hlen & Hi & Hj)|Hbad].
  - destruct (open_by_syspath_resolved w syspath (uint8_t i) (uint8_t j) Hhid)
      as [Hreach Hrest].
    { unfold get_usb_address. rewrite Hwin, decide_False by lia.
      unfold bind, oracle, ret. fold i. rewrite decide_False by lia.
      fold j. now rewrite decide_False by lia. }
    split; [intros [_ ?]; now apply Hreach|].
    intros Hn. apply Hrest. intros ?. apply Hn. done.
  - split; [intros [? _]; done|]. intros _.
    assert (Haddr : exists b a, get_usb_address syspath w = Some ((false, b, a), w)).
    { unfold get_usb_address. rewrite Hwin.
      destruct (decide (Z.of_nat (String.length syspath) + 7 >= 4096)); [now eexists _, _|].
      unfold bind, oracle, ret. fold i.
      destruct (decide (i < 0)); [now eexists _, _|]. fold j.
      destruct (decide (j < 0)); [now eexists _, _|]. lia. }
    destruct Haddr as (b & a & Haddr).
    unfold sccd_usb_dev_open_by_syspath. rewrite Hhid.
    erewrite bind_run by exact Haddr. cbn [negb].
    destruct w as [e c h q tr]. run.
    eexists _, _, _. split; [reflexivity|]. simpl. repeat split; try done. now left.
Qed.

Lemma open_by_syspath_outcomes_witness :
  let w := fresh_world (fun _ => true) (fun _ => 0) (fun _ => []) in
  let resolved := Z.of_nat (String.length "/sys/bus/usb/devices/1-2") + 7 < 4096 /\
                  0 <= 1 /\ 0 <= 2 in
  (resolved /\ open_reaches_stores w (uint8_t 1) (uint8_t 2) ->
   sccd_usb_dev_open_by_syspath "/sys/bus/usb/devices/1-2" w = None) /\
  (~ (resolved /\ open_reaches_stores w (uint8_t 1) (uint8_t 2)) ->
   exists r w' delta,
     sccd_usb_dev_open_by_syspath "/sys/bus/usb/devices/1-2" w = Some (r, w') /\
     trace w' = [] ++ delta /\
     scheduled_interupts w' = [] /\
     callbacks delta = [] /\
     open_outcome (uint8_t 1) (uint8_t 2) w r w' delta).
Proof.
  apply (open_by_syspath_outcomes (fresh_world (fun _ => true) (fun _ => 0) (fun _ => []))
           "/sys/bus/usb/devices/1-2"); reflexivity.
Defined.

Lemma length_substring_le s : forall n m,
  (String.length (String.substring n m s) <= m)%nat.
Proof.
  induction s as [|a s IH]; intros [|n] [|m]; simpl; try lia.
  - specialize (IH 0%nat m). lia.
  - apply IH.
  - apply IH.
Qed.

(** X9.  [sccd_usb_dev_open_by_syspath] on a syspath that starts with
    [/hidapi/] and fits the buffer never hands out a handle either.  When
    the block for the handle is granted and [hid_open_path] succeeds, the
    stores into the handle run past the block, which is undefined.  In
    every other case the call returns null without asking for the device
    list, with heap and queue as they were: nothing is freed after a
    refused allocation, and the block is freed again after a failed
    [hid_open_path] on the path behind [/hidapi]. *)
Theorem open_by_syspath_hidapi_outcomes (w : World) syspath :
  String.prefix "/hidapi/" syspath = true ->
  (String.length syspath - 7 < 1023)%nat ->
  let device_path :=
    env_path_break_slashes (env w)
      (String.substring 7 (String.length syspath - 7) syspath) in
  let granted := env_alloc (env w) (clock w) in
  let hid := env_native (env w) (S (clock w)) in
  (granted = true /\ hid <> NULL -> sccd_usb_dev_open_by_syspath syspath w = None) /\
  (~ (granted = true /\ hid <> NULL) ->
   exists w' delta,
     sccd_usb_dev_open_by_syspath syspath w = Some (NULL, w') /\
     trace w' = trace w ++ delta /\
     scheduled_interupts w' = scheduled_interupts w /\
     heap w' = heap w /\
     callbacks delta = [] /\
     filter is_device_list delta = [] /\
     (granted = false ->
      filter is_alloc delta = [EvAlloc AllocHandle NULL] /\ filter is_free delta = []) /\
     (granted = true ->
      exists p,
        p <> NULL /\ heap w !! p = None /\
        EvOpen HIDAPI (inl device_path) NULL ∈ delta /\
        filter is_alloc delta = [EvAlloc AllocHandle p] /\
        filter is_free delta = [EvFree p])).
Proof.
  intros Hhid Hlen device_path granted hid.
  destruct (fresh_ptr_spec (heap w)) as [Hp Hf].
  unfold sccd_usb_dev_open_by_syspath, hid_open_path. rewrite Hhid.
  pose proof (length_substring_le syspath 7 (String.length syspath - 7)) as Htail.
  rewrite decide_False by lia. subst granted hid.
  destruct w as [e c h q tr]; simpl in *. set (p := fresh_ptr h) in *.
  split.
  - intros [Ha Hn]. run. rewrite Ha. run. fold p.
    rewrite (decide_False (P := p = NULL)) by done. run.
    rewrite (decide_False (P := env_native e (S c) = NULL)) by done. run.
    map_lookup. rewrite decide_False; [done|].
    rewrite length_map, length_seq. unfold sizeof_struct_USBDevHandle,
      sizeof_USBDevHandle. simpl. lia.
  - intros Hn. run. fold device_path.
    destruct (env_alloc e c) eqn:Ha; run.
    + assert (Hnull : env_native e (S c) = NULL).
      { destruct (decide (env_native e (S c) = NULL)); [done|]. exfalso. apply Hn. done. }
      fold p. rewrite (decide_False (P := p = NULL)) by done. run.
      rewrite Hnull. rewrite (decide_True (P := NULL = NULL)) by done. run.
      erewrite free_live; [|done|simpl; apply lookup_insert_eq]. run.
      eexists _, _. split; [reflexivity|]. simpl.
      split; [now rewrite <- !app_assoc|].
      rewrite delete_insert_eq, delete_id by done.
      do 4 (split; [done|]). split; [done|]. intros _.
      exists p. split_and!; try done. set_solver.
    + rewrite (decide_True (P := NULL = NULL)) by done. run.
      eexists _, _. split; [reflexivity|]. simpl.
      split; [now rewrite <- !app_assoc|]. split_and!; done.
Qed.

Lemma open_by_syspath_hidapi_outcomes_witness :
  let w := fresh_world (fun _ => true) (fun _ => 0) (fun _ => []) in
  (true = true /\ 7%N <> NULL ->
   sccd_usb_dev_open_by_syspath "/hidapi/dev&mi_02" w = None) /\
  (~ (true = true /\ 7%N <> NULL) ->
   exists w' delta,
     sccd_usb_dev_open_by_syspath "/hidapi/dev&mi_02" w = Some (NULL, w') /\
     trace w' = [] ++ delta /\
     scheduled_interupts w' = [] /\
     heap w' = heap w /\
     callbacks delta = [] /\
     filter is_device_list delta = [] /\
     (true = false ->
      filter is_alloc delta = [EvAlloc AllocHandle NULL] /\ filter is_free delta = []) /\
     (true = true ->
      exists p,
        p <> NULL /\ heap w !! p = None /\
        EvOpen HIDAPI (inl "/dev&mi_02") NULL ∈ delta /\
        filter is_alloc delta = [EvAlloc AllocHandle p] /\
        filter is_free delta = [EvFree p])).
Proof.
  apply (open_by_syspath_hidapi_outcomes
           (fresh_world (fun _ => true) (fun _ => 0) (fun _ => [])) "/hidapi/dev&mi_02").
  - reflexivity.
  - simpl. lia.
Defined.

(** ** The blocking-read loop *)


(** X10.  [sccd_usb_dev_close] frees the handle and nothing else: a request
    record of the blocking-read loop that refers to the handle stays as it
    is, and the next tick for that record reads the handle after it was
    freed, which the C standard leaves undefined. *)
Theorem hidapi_read_loop_outlives_close (w : World) hndl h idata d fuel :
  heap_wf (heap w) ->
  heap w !! hndl = Some (BHandle h) ->
  heap w !! idata = Some (BIdata d) ->
  idata_hndl d = hndl ->
  exists w',
    sccd_usb_dev_close hndl w = Some (tt, w') /\
    heap w' = delete hndl (heap w) /\
    heap w' !! idata = Some (BIdata d) /\
    scheduled_interupts w' = scheduled_interupts w /\
    sccd_hidapi_dev_interupt_cb (S fuel) idata w' = None.
Proof.
  intros Hwf Hh Hd Hhndl.
  assert (hndl <> NULL) by (eapply live_not_null; eauto).
  assert (idata <> hndl) by congruence.
  unfold sccd_usb_dev_close. erewrite bind_run by (apply load_handle_run; eauto).
  destruct w as [e c hp q tr]; simpl in *.
  assert (Htick : forall tr', sccd_hidapi_dev_interupt_cb (S fuel) idata
                    (mkWorld e c (delete hndl hp) q tr') = None).
  { intros tr'. unfold sccd_hidapi_dev_interupt_cb. simpl. run. map_lookup.
    rewrite Hd. run. rewrite Hhndl. now map_lookup. }
  destruct (h_sys h); run;
    (erewrite free_live; [|done|simpl; eauto]); run;
    eexists; (split; [reflexivity|]); simpl; map_lookup; repeat split; try done;
    apply Htick.
Qed.

Lemma hidapi_read_loop_outlives_close_witness :
  let w := reading_world (fun _ => 0) in
  exists w',
    sccd_usb_dev_close 5 w = Some (tt, w') /\
    heap w' = delete 5%N (heap w) /\
    heap w' !! 20%N = Some (BIdata example_loop) /\
    scheduled_interupts w' = [] /\
    sccd_hidapi_dev_interupt_cb 1 20 w' = None.
Proof.
  apply (hidapi_read_loop_outlives_close (reading_world (fun _ => 0)) 5
           (mkHandle HIDAPI 9 5) 20 example_loop 0); reflexivity.
Defined.






(** ** Claiming interfaces *)

Lemma quiet_refl w : quiet w w.
Proof. repeat split. exists []. now rewrite app_nil_r. Qed.

Lemma quiet_trans w1 w2 w3 : quiet w1 w2 -> quiet w2 w3 -> quiet w1 w3.
Proof.
  intros (He1 & Hh1 & Hq1 & d1 & Ht1 & Hl1) (He2 & Hh2 & Hq2 & d2 & Ht2 & Hl2).
  repeat split; try congruence. exists (d1 ++ d2).
  split; [rewrite Ht2, Ht1, app_assoc; reflexivity|]. now apply Forall_app.
Qed.

Lemma drop_cons_inv {A} (l : list A) n x rest :
  drop n l = x :: rest -> l !! n = Some x /\ drop (S n) l = rest /\ (n < length l)%nat.
Proof.
  intros Hd.
  assert (Hx : l !! n = Some x).
  { rewrite <- (Nat.add_0_r n), <- lookup_drop, Hd. reflexivity. }
  split; [done|]. split.
  - rewrite (drop_S _ _ _ Hx) in Hd. congruence.
  - now apply lookup_lt_Some in Hx.
Qed.

Lemma uint8_t_small x : 0 <= x <= 255 -> uint8_t x = x.
Proof. intros. unfold uint8_t. apply Z.mod_small. lia. Qed.

Lemma claim_altsettings_run usb ifc cls subclass protocol : forall rest m0 fuel count j w,
  interface_ok ifc ->
  drop m0 (altsetting ifc) = rest ->
  (m0 <= length (altsetting ifc))%nat ->
  (length rest < fuel)%nat ->
  exists calls w',
    claim_altsettings fuel usb ifc cls subclass protocol (Z.of_nat m0) count j w =
      Some ((Some (count + Z.of_nat (length (filter is_claimed calls))), j ++ calls), w') /\
    quiet w w' /\
    omap claim_attempt calls =
      bInterfaceNumber <$> filter (matches cls subclass protocol) rest /\
    omap descriptor_obtained calls = [] /\
    omap descriptor_freed calls = [].
Proof.
  induction rest as [|alt rest IH]; intros m0 fuel count j w [Hnum Hmax] Hdrop Hm Hfuel;
    (destruct fuel as [|fuel]; [simpl in Hfuel; lia|]); cbn [claim_altsettings].
  - assert (m0 = length (altsetting ifc)).
    { apply (f_equal length) in Hdrop. rewrite length_drop in Hdrop. simpl in Hdrop. lia. }
    rewrite decide_False by lia. exists [], w. unfold jret, ret.
    rewrite app_nil_r, Z.add_0_r. split; [done|]. split; [apply quiet_refl|]. done.
  - apply drop_cons_inv in Hdrop as (Halt & Hdrop & Hlt).
    rewrite decide_True by lia. rewrite Nat2Z.id, Halt.
    replace (uint8_t (Z.of_nat m0 + 1)) with (Z.of_nat (S m0))
      by (rewrite uint8_t_small; lia).
    rewrite filter_cons.
    destruct (decide (matches cls subclass protocol alt)) as [Hmatch|Hmatch].
    + rewrite (decide_True (P := bInterfaceClass alt = cls /\ _)) by exact Hmatch.
      destruct w as [e c h q tr].
      set (err := env_ret e c).
      destruct (decide (err <> 0)) as [Herr|Herr].
      * destruct (IH (S m0) fuel count (j ++ [CallClaimInterface usb (bInterfaceNumber alt) err])
                    (mkWorld e (S c) h q (tr ++ [EvLog "libusb_claim_interface: %s"])))
          as (calls & w' & Hrun & Hquiet & Hatt & Hob & Hfr); try done; try (simpl in *; lia).
        exists (CallClaimInterface usb (bInterfaceNumber alt) err :: calls), w'.
        split.
        { run. fold err. rewrite decide_True by done. run. rewrite Hrun.
          rewrite <- app_assoc. simpl. rewrite filter_cons_False; [done|].
          simpl. rewrite bool_decide_false by done. tauto. }
        split.
        { eapply quiet_trans; [|exact Hquiet]. repeat split. exists [EvLog "libusb_claim_interface: %s"].
          split; [done|]. repeat constructor. }
        cbn. rewrite Hatt, Hob, Hfr. done.
      * assert (err = 0) as E0 by (destruct (decide (err = 0)); [done|tauto]).
        destruct (IH (S m0) fuel (count + 1)
                    (j ++ [CallClaimInterface usb (bInterfaceNumber alt) err])
                    (mkWorld e (S c) h q tr))
          as (calls & w' & Hrun & Hquiet & Hatt & Hob & Hfr); try done; try (simpl in *; lia).
        exists (CallClaimInterface usb (bInterfaceNumber alt) err :: calls), w'.
        split.
        { run. fold err. rewrite decide_False by done. run. rewrite Hrun.
          rewrite <- app_assoc. simpl. rewrite filter_cons_True.
          - rewrite length_cons, Nat2Z.inj_succ, <- Z.add_1_l, Z.add_assoc. reflexivity.
          - simpl. now rewrite bool_decide_true. }
        split.
        { eapply quiet_trans; [|exact Hquiet]. repeat split. exists [].
          split; [now rewrite app_nil_r|]. constructor. }
        cbn. rewrite Hatt, Hob, Hfr. done.
    + rewrite (decide_False (P := bInterfaceClass alt = cls /\ _)) by exact Hmatch.
      destruct (IH (S m0) fuel count j w)
        as (calls & w' & Hrun & Hquiet & Hatt & Hob & Hfr); try done; try (simpl in *; lia).
      exists calls, w'. split; [|done].
      unfold jbind at 1. unfold jret at 1. unfold bind at 1, ret at 1. simpl. exact Hrun.
Qed.

Lemma successful_claims_app c1 c2 :
  successful_claims (c1 ++ c2) = successful_claims c1 + successful_claims c2.
Proof. unfold successful_claims. rewrite filter_app, length_app. lia. Qed.

Lemma successful_claims_skip c calls :
  is_claimed c = false -> successful_claims (c :: calls) = successful_claims calls.
Proof.
  intros Hc. unfold successful_claims. rewrite filter_cons_False; [done|].
  rewrite Hc. tauto.
Qed.

Lemma claim_interfaces_run usb desc cls subclass protocol inner :
  forall rest n0 fuel count j w,
  config_ok desc ->
  drop n0 (interface desc) = rest ->
  (n0 <= length (interface desc))%nat ->
  (length rest < fuel)%nat ->
  (256 <= inner)%nat ->
  exists calls w',
    claim_interfaces fuel inner usb desc cls subclass protocol (Z.of_nat n0) count j w =
      Some ((Some (count + successful_claims calls), j ++ calls), w') /\
    quiet w w' /\
    omap claim_attempt calls =
      bInterfaceNumber <$>
        filter (matches cls subclass protocol) (concat (altsetting <$> rest)) /\
    omap descriptor_obtained calls = [] /\
    omap descriptor_freed calls = [].
Proof.
  induction rest as [|ifc rest IH]; intros n0 fuel count j w Hok Hdrop Hn Hfuel Hinner;
    pose proof Hok as (Hnum & Hmax & Hifcs);
    (destruct fuel as [|fuel]; [simpl in Hfuel; lia|]); cbn [claim_interfaces].
  - assert (n0 = length (interface desc)).
    { apply (f_equal length) in Hdrop. rewrite length_drop in Hdrop. simpl in Hdrop. lia. }
    rewrite decide_False by lia. exists [], w. unfold jret, ret, successful_claims.
    rewrite app_nil_r. simpl. rewrite Z.add_0_r.
    split; [done|]. split; [apply quiet_refl|]. done.
  - apply drop_cons_inv in Hdrop as (Hifc & Hdrop & Hlt).
    rewrite decide_True by lia. rewrite Nat2Z.id, Hifc.
    replace (uint8_t (Z.of_nat n0 + 1)) with (Z.of_nat (S n0))
      by (rewrite uint8_t_small; lia).
    assert (Hifc_ok : interface_ok ifc).
    { rewrite Forall_forall in Hifcs. apply Hifcs. eapply list_elem_of_lookup_2; eauto. }
    destruct (claim_altsettings_run usb ifc cls subclass protocol (altsetting ifc) 0 inner
                count j w) as (calls1 & w1 & Hrun1 & Hq1 & Hatt1 & Hob1 & Hfr1);
      try done; try lia.
    { destruct Hifc_ok. lia. }
    destruct (IH (S n0) fuel (count + successful_claims calls1) (j ++ calls1) w1)
      as (calls2 & w2 & Hrun2 & Hq2 & Hatt2 & Hob2 & Hfr2); try done; try (simpl in *; lia).
    exists (calls1 ++ calls2), w2. split.
    { unfold jbind at 1. change (Z.of_nat 0) with 0 in Hrun1.
      erewrite bind_run by exact Hrun1. cbn [fst snd]. fold (successful_claims calls1).
      rewrite Hrun2, successful_claims_app, app_assoc, Z.add_assoc. reflexivity. }
    split; [eapply quiet_trans; eauto|].
    rewrite !omap_app, Hatt1, Hatt2, Hob1, Hob2, Hfr1, Hfr2.
    simpl. rewrite filter_app, fmap_app. done.
Qed.

Lemma claim_configurations_run host usb cls subclass protocol inner :
  forall (k i0 fuel : nat) count j w,
  (i0 + k <= 255)%nat ->
  readable_until host usb i0 k ->
  (k < fuel)%nat ->
  (256 <= inner)%nat ->
  exists calls w',
    claim_configurations fuel inner host usb cls subclass protocol (Z.of_nat i0) count j w =
      Some ((Some (if decide (fst (host_config_descriptor host usb (Z.of_nat (i0 + k))) =
                              LIBUSB_ERROR_NOT_FOUND)
                   then count + successful_claims calls else 0),
             j ++ calls), w') /\
    quiet w w' /\
    omap claim_attempt calls =
      concat ((fun i => matching_altsettings cls subclass protocol
                          (snd (host_config_descriptor host usb (Z.of_nat i))))
              <$> seq i0 k) /\
    omap descriptor_obtained calls = Z.of_nat <$> seq i0 k /\
    omap descriptor_freed calls = Z.of_nat <$> seq i0 k.
Proof.
  induction k as [|k IH]; intros i0 fuel count j w Hmax [Hread Hend] Hfuel Hinner;
    (destruct fuel as [|fuel]; [lia|]); cbn [claim_configurations].
  - rewrite Nat.add_0_r in *.
    destruct (host_config_descriptor host usb (Z.of_nat i0)) as [err desc] eqn:Ehost.
    simpl in Hend.
    destruct w as [e c h q tr]. run. rewrite Ehost. cbn [fst snd].
    destruct (decide (err = LIBUSB_ERROR_NOT_FOUND)) as [Enf|Enf].
    + exists [CallGetConfigDescriptor usb (Z.of_nat i0) err]. eexists. split.
      { unfold successful_claims. cbn. rewrite Z.add_0_r. reflexivity. }
      split; [apply quiet_refl|].
      cbn. rewrite decide_False by done. done.
    + rewrite decide_True by done. run.
      eexists [_], _. split; [reflexivity|]. split.
      { repeat split. eexists [_]. split; [reflexivity|]. repeat constructor. }
      cbn. rewrite decide_False by done. done.
  - destruct (Hread i0) as [Herr Hok]; [lia|].
    destruct (host_config_descriptor host usb (Z.of_nat i0)) as [err desc] eqn:Ehost.
    simpl in Herr, Hok. subst err.
    replace (uint8_t (Z.of_nat i0 + 1)) with (Z.of_nat (S i0))
      by (rewrite uint8_t_small; lia).
    set (j1 := j ++ [CallGetConfigDescriptor usb (Z.of_nat i0) 0]).
    destruct (claim_interfaces_run usb desc cls subclass protocol inner (interface desc) 0
                inner count j1 w) as (calls1 & w1 & Hrun1 & Hq1 & Hatt1 & Hob1 & Hfr1);
      try done; try lia.
    { destruct Hok as (? & ? & _). lia. }
    set (j2 := (j1 ++ calls1) ++ [CallFreeConfigDescriptor usb (Z.of_nat i0)]).
    destruct (IH (S i0) fuel (count + successful_claims calls1) j2 w1)
      as (calls2 & w2 & Hrun2 & Hq2 & Hatt2 & Hob2 & Hfr2); try done; try lia.
    { split.
      - intros i Hi. apply Hread. lia.
      - replace (S i0 + k)%nat with (i0 + S k)%nat by lia. done. }
    replace (S i0 + k)%nat with (i0 + S k)%nat in Hrun2 by lia.
    exists ([CallGetConfigDescriptor usb (Z.of_nat i0) 0] ++ calls1 ++
            [CallFreeConfigDescriptor usb (Z.of_nat i0)] ++ calls2), w2.
    split.
    { unfold jbind at 1. unfold libusb_get_config_descriptor, record, jbind, jret.
      unfold bind at 1 2. unfold ret at 1 2. rewrite Ehost. cbn [fst snd].
      rewrite decide_False by (unfold LIBUSB_ERROR_NOT_FOUND; lia).
      rewrite decide_False by (intros ?; done).
      change (Z.of_nat 0) with 0 in Hrun1. fold j1.
      unfold bind at 1. rewrite Hrun1. cbn [fst snd].
      unfold libusb_free_config_descriptor, record. unfold bind at 1, ret at 1.
      cbn [fst snd]. fold j2. rewrite Hrun2.
      destruct (decide _); [|subst j1 j2; rewrite <- !app_assoc; reflexivity].
      subst j1 j2. rewrite <- !app_assoc. cbn [app].
      rewrite successful_claims_skip, successful_claims_app, successful_claims_skip by done.
      rewrite Z.add_assoc. reflexivity. }
    split; [eapply quiet_trans; eauto|].
    rewrite !omap_app, Hatt1, Hatt2, Hob1, Hob2, Hfr1, Hfr2. cbn.
    rewrite decide_True by done. unfold matching_altsettings. rewrite Ehost. done.
Qed.

(** X13.  [sccd_usb_dev_claim_interfaces_by] on a handle of the event
    backend whose device shows [k] readable configurations: the walk ends,
    it tries to claim the interface of every alternate setting that matches
    class, subclass and protocol, in the order of the descriptors and once
    for each such setting, and every descriptor obtained is freed.  The
    result is the number of claims that succeeded when the read after the
    last configuration says that there is none, and 0 when that read fails
    in any other way. *)
Theorem claim_interfaces_by_counts_claims (host : Host) (w : World) hndl h
    cls subclass protocol (k : nat) j fuel :
  heap w !! hndl = Some (BHandle h) ->
  h_sys h = USB ->
  (k <= 255)%nat ->
  readable_until host (h_dev h) 0 k ->
  (256 <= fuel)%nat ->
  exists calls w',
    sccd_usb_dev_claim_interfaces_by fuel host hndl cls subclass protocol j w =
      Some ((Some (if decide (fst (host_config_descriptor host (h_dev h) (Z.of_nat k)) =
                              LIBUSB_ERROR_NOT_FOUND)
                   then successful_claims calls else 0),
             j ++ calls), w') /\
    quiet w w' /\
    omap claim_attempt calls =
      concat ((fun i => matching_altsettings cls subclass protocol
                          (snd (host_config_descriptor host (h_dev h) (Z.of_nat i))))
              <$> seq 0 k) /\
    omap descriptor_obtained calls = Z.of_nat <$> seq 0 k /\
    omap descriptor_freed calls = Z.of_nat <$> seq 0 k.
Proof.
  intros Hh Hsys Hk Hread Hfuel.
  destruct (claim_configurations_run host (h_dev h) cls subclass protocol fuel k 0 fuel 0 j w)
    as (calls & w' & Hrun & Hq & Hatt & Hob & Hfr); try done; try lia.
  exists calls, w'. split; [|done].
  unfold sccd_usb_dev_claim_interfaces_by, jbind at 1, lift.
  erewrite bind_run by (erewrite bind_run by (apply load_handle_run; eauto); reflexivity).
  cbn [fst snd]. rewrite Hsys. rewrite decide_False by done.
  rewrite decide_False by (intros ?; done).
  change (Z.of_nat 0) with 0 in Hrun. simpl in Hrun. exact Hrun.
Qed.

(** X14.  [sccd_usb_dev_claim_interfaces_by] on a handle that is not of
    the event backend asks for no descriptor and claims nothing: it returns
    1 on the blocking-read backend, where it does nothing at all, and 0
    after a log entry on any other subsystem. *)
Theorem claim_interfaces_by_off_the_event_backend (host : Host) (w : World) hndl h
    cls subclass protocol j fuel :
  heap w !! hndl = Some (BHandle h) ->
  h_sys h <> USB ->
  exists w',
    sccd_usb_dev_claim_interfaces_by fuel host hndl cls subclass protocol j w =
      Some ((Some (if decide (h_sys h = HIDAPI) then 1 else 0), j), w') /\
    quiet w w' /\
    (h_sys h = HIDAPI -> w' = w).
Proof.
  intros Hh Hsys.
  unfold sccd_usb_dev_claim_interfaces_by, jbind at 1, lift.
  erewrite bind_run by (erewrite bind_run by (apply load_handle_run; eauto); reflexivity).
  cbn [fst snd].
  destruct (decide (h_sys h = HIDAPI)).
  - exists w. split; [reflexivity|]. split; [apply quiet_refl|done].
  - rewrite decide_True by done. destruct w as [e c hp q tr]. run.
    eexists. split; [reflexivity|]. split; [|done].
    repeat split. eexists [_]. split; [reflexivity|]. repeat constructor.
Qed.

Lemma claim_interfaces_by_counts_claims_witness :
  let w := example_world (fun _ => true) (fun _ => 0) in
  exists calls w',
    sccd_usb_dev_claim_interfaces_by 256 example_host 1 3 0 0 [] w =
      Some ((Some (successful_claims calls), [] ++ calls), w') /\
    quiet w w' /\
    omap claim_attempt calls = [0; 0] /\
    omap descriptor_obtained calls = [0] /\
    omap descriptor_freed calls = [0].
Proof.
  apply (claim_interfaces_by_counts_claims example_host
           (example_world (fun _ => true) (fun _ => 0)) 1 (mkHandle USB 7 0) 3 0 0 1 [] 256).
  - reflexivity.
  - reflexivity.
  - lia.
  - split.
    + intros i Hi. assert (i = 0%nat) as -> by lia. split; [reflexivity|].
      split; [reflexivity|]. split; [simpl; lia|].
      repeat constructor; simpl; lia.
    + vm_compute. discriminate.
  - lia.
Defined.

Lemma claim_interfaces_by_off_the_event_backend_witness :
  let w := example_world (fun _ => true) (fun _ => 0) in
  exists w',
    sccd_usb_dev_claim_interfaces_by 0 example_host 5 3 0 0 [] w = Some ((Some 1, []), w') /\
    quiet w w' /\
    (HIDAPI = HIDAPI -> w' = w).
Proof.
  apply (claim_interfaces_by_off_the_event_backend example_host
           (example_world (fun _ => true) (fun _ => 0)) 5 (mkHandle HIDAPI 9 5) 3 0 0 [] 0).
  - reflexivity.
  - discriminate.
Defined.

(** ** Rescanning, on Windows *)

(** *** Strings *)
Lemma length_append (s t : string) :
  String.length (s +:+ t) = (String.length s + String.length t)%nat.
Proof. induction s as [|a s IH]; simpl; [done|]. now rewrite IH. Qed.

Lemma prefix_append (p t : string) : String.prefix p (p +:+ t) = true.
Proof.
  induction p as [|a p IH]; simpl; [now destruct t|].
  destruct (Ascii.ascii_dec a a); [exact IH|done].
Qed.

Lemma substring_all (s : string) n :
  (String.length s <= n)%nat -> String.substring 0 n s = s.
Proof.
  revert n. induction s as [|a s IH]; intros [|n] Hn; simpl in *; try done; try lia.
  f_equal. apply IH. lia.
Qed.

Lemma substring_append (p t : string) n :
  (String.length t <= n)%nat -> String.substring (String.length p) n (p +:+ t) = t.
Proof.
  intros Hn. induction p as [|a p IH]; simpl; [now apply substring_all|]. exact IH.
Qed.

Lemma no_slash (a : Ascii.ascii) :
  is_Some (HexString.ascii_to_digit a) ->
  a <> Ascii.ascii_of_nat 47 /\ isspace a = false /\ is_char 45 a = false /\
  is_char 43 a = false /\ is_char 120 a = false /\ is_char 88 a = false.
Proof.
  destruct a as [[] [] [] [] [] [] [] []]; vm_compute; intros [v Hv];
    try discriminate Hv; repeat split; discriminate.
Qed.

Lemma index_slash (p t : string) :
  all_hex p = true ->
  String.index 0 "/" (p +:+ String (Ascii.ascii_of_nat 47) t) = Some (String.length p).
Proof.
  induction p as [|a p IH]; intros Hp.
  - simpl. now destruct t.
  - simpl in Hp. apply andb_true_iff in Hp as [Ha Hp]. apply bool_decide_eq_true in Ha.
    destruct (no_slash a Ha) as (Hslash & _).
    change (String a p +:+ String (Ascii.ascii_of_nat 47) t)
      with (String a (p +:+ String (Ascii.ascii_of_nat 47) t)).
    cbn [String.index String.prefix].
    destruct (Ascii.ascii_dec _ a) as [E|_]; [exfalso; apply Hslash; exact (eq_sym E)|].
    now rewrite IH.
Qed.

Lemma append_assoc (s t u : string) : (s +:+ t) +:+ u = s +:+ (t +:+ u).
Proof.
  induction s as [|a s IH]; [done|].
  change (String a ((s +:+ t) +:+ u) = String a (s +:+ (t +:+ u))). now rewrite IH.
Qed.

Lemma hex_value_append s t : forall acc n,
  all_hex s = true -> stops t -> hex_value (s +:+ t) acc n = hex_value s acc n.
Proof.
  induction s as [|a s IH]; intros acc n Hs Ht.
  - simpl. destruct t as [|c t]; [done|]. simpl in *. destruct Ht as [-> _]. done.
  - simpl in Hs. apply andb_true_iff in Hs as [Ha Hs]. apply bool_decide_eq_true in Ha.
    destruct Ha as [v Hv]. simpl. rewrite Hv. now apply IH.
Qed.

Lemma hex_value_count s : forall acc n, (n <= snd (hex_value s acc n))%nat.
Proof.
  induction s as [|a s IH]; intros acc n; simpl; [done|].
  destruct (ascii_to_digit a); simpl; [|done].
  specialize (IH (16 * acc + Z.of_N n0) (S n)). lia.
Qed.

(** [strtol] on a run of hexadecimal digits, followed by nothing it could
    take for part of the number. *)
Lemma strtol16_hex a s t :
  all_hex (String a s) = true -> stops t ->
  strtol16 (String a s +:+ t) =
    (Z.max LONG_MIN (Z.min LONG_MAX (fst (hex_value (String a s) 0 0))),
     snd (hex_value (String a s) 0 0)).
Proof.
  intros Hs Ht. pose proof (hex_value_append (String a s) t 0 0%nat Hs Ht) as Happ.
  pose proof Hs as Hs'. simpl in Hs'. apply andb_true_iff in Hs' as [Ha Hrest].
  apply bool_decide_eq_true in Ha.
  destruct (no_slash a Ha) as (_ & Hsp & Hminus & Hplus & _).
  assert (Hx : match s +:+ t with
               | String x _ => is_char 120 x || is_char 88 x = false
               | EmptyString => True
               end).
  { destruct s as [|b s].
    - change (EmptyString +:+ t) with t. destruct t as [|c t]; [done|].
      destruct Ht as (_ & H1 & H2).
      change (is_char 120 c || is_char 88 c = false). now rewrite H1, H2.
    - cbn [all_hex] in Hrest. apply andb_true_iff in Hrest as [Hb _].
      apply bool_decide_eq_true in Hb.
      destruct (no_slash b Hb) as (_ & _ & _ & _ & H1 & H2).
      change (is_char 120 b || is_char 88 b = false). now rewrite H1, H2. }
  unfold strtol16. change (String a s +:+ t) with (String a (s +:+ t)) in *.
  cbn [skip_space]. rewrite Hsp, Hminus, Hplus.
  assert (Hpre : (match s +:+ t with
                  | String x r =>
                      if is_char 48 a && (is_char 120 x || is_char 88 x) then
                        match r with
                        | String a0 _ =>
                            if bool_decide (is_Some (ascii_to_digit a0)) then (r, 2%nat)
                            else (String a (s +:+ t), 0%nat)
                        | EmptyString => (String a (s +:+ t), 0%nat)
                        end
                      else (String a (s +:+ t), 0%nat)
                  | EmptyString => (String a (s +:+ t), 0%nat)
                  end) = (String a (s +:+ t), 0%nat)).
  { destruct (s +:+ t) as [|x r]; [done|]. rewrite Hx, andb_false_r. done. }
  rewrite Hpre, Happ.
  pose proof (hex_value_count (String a s) 0 0%nat) as Hcount.
  destruct (hex_value (String a s) 0 0%nat) as [v n] eqn:Ev. simpl in *.
  assert (n <> 0%nat).
  { destruct Ha as [d Hd]. rewrite Hd in Ev.
    pose proof (hex_value_count s (16 * 0 + Z.of_N d) 1%nat) as H1. rewrite Ev in H1.
    simpl in H1. lia. }
  rewrite decide_False by done. done.
Qed.

Lemma printf_x_uint8 (b : Z) :
  0 <= b <= 255 ->
  exists a s,
    printf_x b = String a s /\ all_hex (String a s) = true /\
    hex_value (String a s) 0 0 = (b, String.length (String a s)) /\
    (String.length (String a s) <= 2)%nat.
Proof.
  intros Hb.
  assert (Hall : forallb printf_x_check (Z.of_nat <$> seq 0 256) = true)
    by (vm_compute; reflexivity).
  rewrite forallb_forall in Hall. specialize (Hall b).
  assert (Hin : In b (Z.of_nat <$> seq 0 256)).
  { apply list_elem_of_In, list_elem_of_fmap. exists (Z.to_nat b). split; [lia|].
    apply elem_of_seq. lia. }
  apply Hall in Hin. unfold printf_x_check in Hin.
  apply andb_true_iff in Hin as [Hin Hlen]. apply andb_true_iff in Hin as [Hin Hval].
  apply andb_true_iff in Hin as [Hhex Hne].
  apply bool_decide_eq_true in Hlen. apply bool_decide_eq_true in Hval.
  destruct (printf_x b) as [|a s]; [done|]. exists a, s. done.
Qed.

Lemma uint8_t_range x : 0 <= uint8_t x <= 255.
Proof. unfold uint8_t. pose proof (Z.mod_pos_bound x (2 ^ 8)). lia. Qed.

(** The made-up syspath taken apart the way [get_usb_address] does it. *)
Lemma fake_usb_syspath_decodes (d : libusb_device) :
  let s := fake_usb_syspath d in
  exists s_bus i,
    String.prefix "/win32/usb/" s = true /\
    String.substring 11 (String.length s - 11) s = s_bus /\
    String.index 0 "/" s_bus = Some i /\
    fst (strtol16 s_bus) = uint8_t (d_bus d) /\
    fst (strtol16 (String.substring (S i) (String.length s_bus - S i) s_bus)) =
      uint8_t (d_address d).
Proof.
  pose proof (uint8_t_range (d_bus d)) as Hb. pose proof (uint8_t_range (d_address d)) as Ha.
  destruct (printf_x_uint8 _ Hb) as (b1 & bs & Eb & Hbhex & Hbval & Hblen).
  destruct (printf_x_uint8 _ Ha) as (a1 & as_ & Ea & Hahex & Haval & Halen).
  unfold fake_usb_syspath. rewrite Eb, Ea.
  set (hb := String b1 bs) in *. set (hd := String a1 as_) in *.
  set (slash := Ascii.ascii_of_nat 47).
  change ("/" +:+ hd) with (String slash hd).
  assert (Hlen : String.length ("/win32/usb/" +:+ hb +:+ String slash hd) =
                 (12 + String.length hb + String.length hd)%nat).
  { rewrite !length_append. simpl. lia. }
  unfold snprintf. rewrite substring_all by lia.
  exists (hb +:+ String slash hd), (String.length hb). cbv zeta.
  split; [apply prefix_append|]. split.
  { apply (substring_append "/win32/usb/"). rewrite Hlen, length_append. simpl. lia. }
  split; [now apply index_slash|]. split.
  - unfold hb. rewrite strtol16_hex; [|done|done]. fold hb. rewrite Hbval. simpl.
    unfold LONG_MIN, LONG_MAX. lia.
  - assert ((hb +:+ String slash hd) = (hb +:+ String slash EmptyString) +:+ hd) as ->.
    { now rewrite append_assoc. }
    replace (S (String.length hb)) with (String.length (hb +:+ String slash EmptyString))
      by (rewrite length_append; simpl; lia).
    rewrite substring_append by (rewrite !length_append; simpl; lia).
    assert (hd +:+ EmptyString = hd) as E.
    { clear. induction hd as [|c s IH]; [done|].
      change (String c (s +:+ EmptyString) = String c s). now rewrite IH. }
    pose proof (strtol16_hex a1 as_ EmptyString Hahex I) as Hrun. fold hd in Hrun.
    rewrite E in Hrun. rewrite Hrun, Haval. simpl. unfold LONG_MIN, LONG_MAX. lia.
Qed.

(** X15.  The syspath [sccd_usb_rescan] makes up for a device is read back
    by [get_usb_address], with the [strtol] of the C library, as the bus
    number and the address of that device, each cut to 8 bits. *)
Theorem rescanned_syspath_decodes (w : World) (d : libusb_device) :
  (forall s, env_strtol16 (env w) s = strtol16 s) ->
  get_usb_address (fake_usb_syspath d) w =
    Some ((true, uint8_t (d_bus d), uint8_t (d_address d)), w).
Proof.
  intros Hlibc.
  destruct (fake_usb_syspath_decodes d) as (s_bus & i & Hpre & Hbus & Hidx & Hb & Ha).
  unfold get_usb_address. rewrite Hpre, Hbus, Hidx.
  unfold bind, oracle, ret. rewrite !Hlibc, Hb, Ha.
  rewrite (uint8_t_small (uint8_t (d_bus d))) by apply uint8_t_range.
  rewrite (uint8_t_small (uint8_t (d_address d))) by apply uint8_t_range. reflexivity.
Qed.

Lemma rescanned_syspath_decodes_witness :
  get_usb_address (fake_usb_syspath (mkDevice 1 0x2a)) (windows_world [mkDevice 1 0x2a]) =
    Some ((true, 1, 0x2a), windows_world [mkDevice 1 0x2a]).
Proof.
  apply (rescanned_syspath_decodes (windows_world [mkDevice 1 0x2a]) (mkDevice 1 0x2a)).
  intros s. reflexivity.
Defined.

Lemma usb_rescan_devices_run (host : Host) devs : forall j (w : World),
  usb_rescan_devices host devs j w =
    Some ((tt, j ++ (usb_report host <$> filter (readable host) devs)), w).
Proof.
  induction devs as [|d devs IH]; intros j w; simpl.
  - unfold jret, ret. now rewrite app_nil_r.
  - rewrite filter_cons. run.
    destruct (decide (readable host d)) as [Hr|Hr]; unfold readable in Hr;
      destruct (host_device_descriptor host d) as [err desc] eqn:Ed;
      cbn [fst snd] in *.
    + subst err. rewrite decide_False by (intros H; now apply H). run. rewrite IH.
      rewrite fmap_cons. unfold usb_report at 2. rewrite Ed.
      cbn [fst snd]. now rewrite <- app_assoc.
    + rewrite decide_True by congruence. run. now rewrite IH.
Qed.

(** X16.  [sccd_usb_rescan] reports to the device monitor the enumerated
    devices whose descriptor it could read, each once and in the order of
    the list, with its made-up syspath, vendor and product; a device whose
    descriptor cannot be read is passed over.  [libusb_free_device_list]
    is called once, also when the enumeration failed, and heap and queue
    are as they were. *)
Theorem usb_rescan_reports_readable_devices (host : Host) (w : World) j :
  exists w',
    sccd_usb_rescan host j w =
      Some ((tt, j ++ (usb_report host <$> filter (readable host) (enumerated w))), w') /\
    heap w' = heap w /\
    scheduled_interupts w' = scheduled_interupts w /\
    trace w' =
      trace w ++ [EvGetDeviceList (if decide (env_ret (env w) (clock w) < 0)
                                   then env_ret (env w) (clock w)
                                   else Z.of_nat (length (enumerated w)));
                  EvFreeDeviceList].
Proof.
  unfold sccd_usb_rescan, libusb_get_device_list, enumerated.
  destruct w as [e c h q tr]. simpl in *. run.
  destruct (decide (env_ret e c < 0)); run; cbn [default from_option id];
    rewrite usb_rescan_devices_run; run;
    eexists; (split; [reflexivity|]); simpl; rewrite <- ?app_assoc; done.
Qed.

Lemma fake_usb_syspath_not_hidapi (d : libusb_device) :
  String.prefix "/hidapi/" (fake_usb_syspath d) = false.
Proof.
  destruct (fake_usb_syspath_decodes d) as (s_bus & i & Hpre & _).
  destruct (String.prefix "/hidapi/" (fake_usb_syspath d)) eqn:E; [|done].
  apply String.prefix_correct in E, Hpre.
  destruct (fake_usb_syspath d) as [|a [|b s]]; simpl in *; congruence.
Qed.

(** X17.  Opening a syspath that [sccd_usb_rescan] made up for a device
    looks for a device at the bus number and address of the reported one,
    each cut to 8 bits: the call is undefined when such a device is
    enumerated, the block for the handle is granted and the native open
    succeeds, and in every other case it returns as it does for an
    ordinary syspath. *)
Theorem rescanned_syspath_opens_its_device (w : World) (d : libusb_device) :
  (forall s, env_strtol16 (env w) s = strtol16 s) ->
  let bus := uint8_t (d_bus d) in
  let address := uint8_t (d_address d) in
  (open_reaches_stores w bus address ->
   sccd_usb_dev_open_by_syspath (fake_usb_syspath d) w = None) /\
  (~ open_reaches_stores w bus address ->
   exists r w' delta,
     sccd_usb_dev_open_by_syspath (fake_usb_syspath d) w = Some (r, w') /\
     trace w' = trace w ++ delta /\
     scheduled_interupts w' = scheduled_interupts w /\
     callbacks delta = [] /\
     open_outcome bus address w r w' delta).
Proof.
  intros Hlibc bus address.
  apply open_by_syspath_resolved; [apply fake_usb_syspath_not_hidapi|].
  destruct (fake_usb_syspath_decodes d) as (s_bus & i & Hpre & Hbus & Hidx & Hb & Ha).
  unfold get_usb_address. rewrite Hpre, Hbus, Hidx.
  unfold bind, oracle, ret. rewrite !Hlibc, Hb, Ha.
  rewrite (uint8_t_small (uint8_t (d_bus d))) by apply uint8_t_range.
  rewrite (uint8_t_small (uint8_t (d_address d))) by apply uint8_t_range. reflexivity.
Qed.

Lemma rescanned_syspath_opens_its_device_witness :
  let w := windows_world [mkDevice 1 0x2a] in
  (open_reaches_stores w (uint8_t 1) (uint8_t 0x2a) ->
   sccd_usb_dev_open_by_syspath (fake_usb_syspath (mkDevice 1 0x2a)) w = None) /\
  (~ open_reaches_stores w (uint8_t 1) (uint8_t 0x2a) ->
   exists r w' delta,
     sccd_usb_dev_open_by_syspath (fake_usb_syspath (mkDevice 1 0x2a)) w = Some (r, w') /\
     trace w' = trace w ++ delta /\
     scheduled_interupts w' = scheduled_interupts w /\
     callbacks delta = [] /\
     open_outcome (uint8_t 1) (uint8_t 0x2a) w r w' delta).
Proof.
  apply (rescanned_syspath_opens_its_device (windows_world [mkDevice 1 0x2a])
           (mkDevice 1 0x2a)).
  intros s. reflexivity.
Defined.

Lemma hidapi_rescan_devices_run (host : Host) devs : forall j (w : World),
  hidapi_rescan_devices host devs j w =
    Some ((tt, j ++ (hidapi_report host <$> devs)), w).
Proof.
  induction devs as [|d devs IH]; intros j w; simpl.
  - unfold jret, ret. now rewrite app_nil_r.
  - run. rewrite IH. unfold hidapi_report at 2. now rewrite <- app_assoc.
Qed.

(** X18.  [sccd_hidapi_rescan] enumerates once, reports every enumerated
    device once and in order, and frees the enumeration after the last
    report; nothing else changes.  The syspath of a report never exceeds
    the buffer of 1024 bytes, and it is [/hidapi] followed by the whole
    path of the device when that path has at most 1016 characters. *)
Theorem hidapi_rescan_reports_each_device (host : Host) (w : World) j :
  sccd_hidapi_rescan host j w =
    Some ((tt, j ++ [CallHidEnumerate 0 0]
                 ++ (hidapi_report host <$> host_hid_enumerate host)
                 ++ [CallHidFreeEnumeration]), w) /\
  Forall (fun dev =>
            (String.length (snprintf 1024 ("/hidapi" +:+ hid_path dev)) <= 1023)%nat /\
            ((String.length (hid_path dev) <= 1016)%nat ->
             snprintf 1024 ("/hidapi" +:+ hid_path dev) = "/hidapi" +:+ hid_path dev))
    (host_hid_enumerate host).
Proof.
  split.
  - unfold sccd_hidapi_rescan. run. rewrite hidapi_rescan_devices_run. run.
    now rewrite <- !app_assoc.
  - apply Forall_forall. intros dev _. unfold snprintf. split.
    + apply length_substring_le.
    + intros Hlen. clear -Hlen.
      assert (Hall : forall s n, (String.length s <= n)%nat -> String.substring 0 n s = s).
      { induction s as [|a s IH]; intros [|n] Hn; simpl in *; try done; try lia.
        f_equal. apply IH. lia. }
      apply Hall.
      assert (Happ : forall s t, String.length (s +:+ t) =
                                 (String.length s + String.length t)%nat).
      { induction s as [|a s IH]; intros t; simpl; [done|]. now rewrite IH. }
      rewrite Happ. simpl. lia.
Qed.

(** ** Opening and closing *)

(** [get_usb_address] only asks; it changes nothing. *)
Lemma get_usb_address_cases syspath (w : World) :
  get_usb_address syspath w = None \/
  exists ok bus address, get_usb_address syspath w = Some ((ok, bus, address), w).
Proof.
  unfold get_usb_address.
  destruct (String.prefix "/win32/usb/" syspath).
  - destruct (String.index 0 "/" _); [|now left]. right. now eexists _, _, _.
  - right. destruct (decide _); [now eexists _, _, _|].
    unfold bind, oracle, ret.
    destruct (decide _); [now eexists _, _, _|].
    destruct (decide _); now eexists _, _, _.
Qed.

(** What a call of [sccd_usb_dev_open_by_syspath] that returns has done:
    the heap and the queue are as they were, and the result is null or an
    address that is not live. *)
Lemma open_by_syspath_heap (w : World) syspath r w' :
  sccd_usb_dev_open_by_syspath syspath w = Some (r, w') ->
  heap w' = heap w /\
  scheduled_interupts w' = scheduled_interupts w /\
  (r = NULL \/ heap w !! r = None).
Proof.
  intros Hrun.
  destruct (String.prefix "/hidapi/" syspath) eqn:Hhid.
  - destruct (fresh_ptr_spec (heap w)) as [Hp Hf].
    revert Hrun. unfold sccd_usb_dev_open_by_syspath, hid_open_path. rewrite Hhid.
    destruct (decide _); [done|].
    destruct w as [e c h q tr]; simpl in *. set (p := fresh_ptr h) in *. run.
    destruct (env_alloc e c); run.
    2:{ rewrite (decide_True (P := NULL = NULL)) by done. run.
        intros [= <- <-]. simpl. split_and!; try done. now left. }
    fold p. rewrite (decide_False (P := p = NULL)) by done. run.
    destruct (decide (env_native e (S c) = NULL)) as [Hn|Hn]; run.
    + erewrite free_live; [|done|simpl; apply lookup_insert_eq]. run.
      intros [= <- <-]. simpl. rewrite delete_insert_eq, delete_id by done.
      split_and!; try done. now left.
    + map_lookup. rewrite decide_False; [done|].
      rewrite length_map, length_seq. unfold sizeof_struct_USBDevHandle,
        sizeof_USBDevHandle. simpl. lia.
  - destruct (get_usb_address_cases syspath w) as [Hnone|(ok & bus & address & Haddr)].
    { revert Hrun. unfold sccd_usb_dev_open_by_syspath. rewrite Hhid.
      unfold bind at 1. now rewrite Hnone. }
    destruct ok.
    + destruct (open_by_syspath_resolved w syspath bus address Hhid Haddr)
        as [Hreach Hrest].
      destruct (decide (open_reaches_stores w bus address)) as [Hy|Hn].
      * rewrite (Hreach Hy) in Hrun. done.
      * destruct (Hrest Hn) as (r0 & w0 & delta & Hrun0 & _ & Hq & _ & _ & Hh & Hlive).
        rewrite Hrun0 in Hrun. injection Hrun as <- <-. split_and!; try done.
        destruct (decide (r0 = NULL)); [now left|right]. now apply Hlive.
    + revert Hrun. unfold sccd_usb_dev_open_by_syspath. rewrite Hhid.
      erewrite bind_run by exact Haddr. cbn [negb].
      destruct w as [e c h q tr]. run. intros [= <- <-]. simpl. split_and!; try done.
      now left.
Qed.

(** X19.  What [sccd_usb_dev_open_by_syspath] returns is never a live
    handle: whenever the call returns, heap and queue are as they were,
    the result is null or the address of a block that is not live, and
    [sccd_usb_dev_close] on it is undefined. *)
Theorem open_by_syspath_result_is_never_live (w : World) syspath r w' :
  heap_wf (heap w) ->
  sccd_usb_dev_open_by_syspath syspath w = Some (r, w') ->
  heap w' = heap w /\
  scheduled_interupts w' = scheduled_interupts w /\
  heap w' !! r = None /\
  sccd_usb_dev_close r w' = None.
Proof.
  intros Hwf Hrun.
  destruct (open_by_syspath_heap w syspath r w' Hrun) as (Hh & Hq & Hr).
  assert (Hdead : heap w' !! r = None).
  { rewrite Hh. destruct Hr as [->|?]; done. }
  split_and!; try done.
  unfold sccd_usb_dev_close, load_handle. unfold bind at 1. now rewrite Hdead.
Qed.

Lemma open_by_syspath_result_is_never_live_witness :
  let w := fresh_world (fun _ => true) (fails_at 2 (-3)) (fun _ => []) in
  exists r w',
    sccd_usb_dev_open_by_syspath "/sys/bus/usb/devices/1-2" w = Some (r, w') /\
    r <> NULL /\
    heap w' = heap w /\
    scheduled_interupts w' = scheduled_interupts w /\
    heap w' !! r = None /\
    sccd_usb_dev_close r w' = None.
Proof.
  eexists _, _. split; [vm_compute; reflexivity|]. split; [done|].
  apply (open_by_syspath_result_is_never_live
           (fresh_world (fun _ => true) (fails_at 2 (-3)) (fun _ => []))
           "/sys/bus/usb/devices/1-2").
  - compute_done.
  - vm_compute. reflexivity.
Defined.

(** ** The pending read loops

    Between two calls the event backend owns, for every read loop, a
    submitted transfer with its request record and its buffer.  Starting
    a loop and a round of the main loop keep this state well-formed,
    whatever the allocator and libusb answer. *)

Lemma queue_item_record h q item :
  queue_wf h q -> item ∈ q -> exists d, h !! item = Some (BIdata d).
Proof.
  intros Hq Hin. pose proof (queue_wf_records _ _ Hq) as Hrec.
  rewrite Forall_forall in Hrec. destruct (Hrec _ Hin) as [d Hd].
  unfold record_at in Hd. destruct (h !! item) as [[]|]; try done. eauto.
Qed.














Lemma malloc_granted size (w : World) p w' :
  malloc size w = Some (p, w') -> p <> NULL -> 0 <= size.
Proof.
  unfold malloc. run. destruct (env_alloc _ _); simpl.
  - destruct (bool_decide (0 <= size)) eqn:E; simpl.
    + intros _ _. now apply bool_decide_eq_true in E.
    + intros [= <- _] ?. done.
  - intros [= <- _] ?. done.
Qed.

(** What [sccd_usb_dev_interupt_read_loop] leaves on a handle of the event
    backend: the heap as it was when it returns false, and three new
    blocks, a buffer of the length asked for, the request record and the
    transfer, when it returns true. *)
Lemma read_loop_run (w : World) hndl endpoint len cb userdata h :
  heap w !! hndl = Some (BHandle h) ->
  h_sys h = USB ->
  exists r w',
    sccd_usb_dev_interupt_read_loop hndl endpoint len cb userdata w = Some (r, w') /\
    scheduled_interupts w' = scheduled_interupts w /\
    (r = false -> heap w' = heap w) /\
    (r = true ->
     0 <= len /\
     exists buffer idata t tr d junk,
       heap w !! buffer = None /\ heap w !! idata = None /\ heap w !! t = None /\
       NoDup [NULL; buffer; idata; t] /\
       t_buffer tr = buffer /\ t_user_data tr = idata /\ t_length tr = len /\
       idata_buffer d = buffer /\ length junk = Z.to_nat len /\
       heap w' =
         <[t := BTransfer tr]> (<[idata := BIdata d]> (<[buffer := BBytes junk]> (heap w)))).
Proof.
  intros Hh Hsys.
  destruct (malloc_run len w) as (buffer & Hb & Hrb).
  pose proof (malloc_granted len w buffer _ Hrb) as Hpos.
  match type of Hrb with _ = Some (_, ?x) => set (w1 := x) in * end.
  destruct (malloc_idata_run w1) as (idata & Hi & Hri).
  match type of Hri with _ = Some (_, ?x) => set (w2 := x) in * end.
  destruct (libusb_alloc_transfer_run w2) as (t & Ht & Hrt).
  match type of Hrt with _ = Some (_, ?x) => set (w3 := x) in * end.
  assert (Hi' : idata = NULL \/ (heap w !! idata = None /\ idata <> buffer)).
  { destruct Hi as [?|[Hn Hf]]; [now left|right].
    apply with_block_None in Hf as [? [->|?]]; done. }
  assert (Ht' : t = NULL \/ (heap w !! t = None /\ t <> buffer /\ t <> idata)).
  { destruct Ht as [?|[Hn Hf]]; [now left|right].
    apply with_block_None in Hf as [Hf [Ei|?]];
      apply with_block_None in Hf as [? [Eb|?]]; subst; done. }
  unfold sccd_usb_dev_interupt_read_loop.
  erewrite bind_run by (apply load_handle_run; eauto).
  rewrite Hsys, decide_False by done. rewrite decide_False by (intros ?; done).
  erewrite bind_run by exact Hrb. erewrite bind_run by exact Hri.
  erewrite bind_run by exact Hrt.
  destruct (decide (buffer = NULL \/ t = NULL \/ idata = NULL)) as [Hnull|Hok].
  - rewrite (sccd_usb_dev_interupt_read_loop_fail_run w3 (heap w) buffer idata t
               (BBytes (map (env_junk_byte (env w) (clock w)) (seq 0 (Z.to_nat len))))
               (BIdata (env_junk_idata (env w1) (clock w1)))
               (mkTransfer 0%N 0 NULL 0 0 NULL)); try done.
    2:{ destruct Hb as [?|[? ?]]; eauto. }
    eexists _, _. split; [reflexivity|]. simpl. split_and!; done.
  - assert (buffer <> NULL /\ t <> NULL /\ idata <> NULL) as (Hbn & Htn & Hin) by tauto.
    destruct Hb as [?|[_ Hfb]]; [done|]. destruct Hi' as [?|[Hfi Hib]]; [done|].
    destruct Ht' as [?|(Hft & Htb & Hti)]; [done|].
    assert (Hheap3 : heap w3 =
              <[t := BTransfer (mkTransfer 0%N 0 NULL 0 0 NULL)]>
                (<[idata := BIdata (env_junk_idata (env w1) (clock w1))]>
                   (<[buffer := BBytes (map (env_junk_byte (env w) (clock w))
                                          (seq 0 (Z.to_nat len)))]> (heap w)))).
    { simpl. unfold with_block. now rewrite !decide_False by done. }
    assert (hndl <> buffer /\ hndl <> idata /\ hndl <> t) as (?&?&?)
      by (repeat split; congruence).
    unfold libusb_fill_interrupt_transfer, libusb_submit_transfer.
    destruct w as [e c hp q tr0]. simpl in *. subst w1 w2 w3. simpl in *.
    run. rewrite Hheap3. map_lookup. run. map_lookup. run. map_lookup. run.
    map_lookup. run. map_lookup. run.
    set (ep := uint8_t _).
    set (d := env_junk_idata e (S c)).
    set (tr := mkTransfer (h_dev h) ep buffer len 0 idata).
    set (rec := mkIdata cb hndl (idata_endpoint d) buffer (idata_length d) userdata).
    set (junk := map (env_junk_byte e c) (seq 0 (Z.to_nat len))).
    assert (Hfinal :
      <[t:=BTransfer tr]>
        (<[idata:=BIdata rec]>
           (<[t:=BTransfer (mkTransfer 0%N 0 NULL 0 0 NULL)]>
              (<[idata:=BIdata d]> (<[buffer:=BBytes junk]> hp)))) =
      <[t:=BTransfer tr]> (<[idata:=BIdata rec]> (<[buffer:=BBytes junk]> hp))).
    { map_eq_cases [t; idata; buffer]. }
    rewrite Hfinal.
    destruct (decide (env_ret e (S (S (S c))) <> 0)) as [Herr|Herr].
    + run.
      rewrite (sccd_usb_dev_interupt_read_loop_fail_run _ hp buffer idata t
                 (BBytes junk) (BIdata rec) tr); simpl; eauto.
      2:{ unfold with_block. now rewrite !decide_False by done. }
      eexists _, _. split; [reflexivity|]. simpl. split_and!; done.
    + run. eexists _, _. split; [reflexivity|]. simpl.
      split; [done|]. split; [done|]. intros _. split; [now apply Hpos|].
      exists buffer, idata, t, tr, rec, junk. split_and!; try done.
      * repeat (apply NoDup_cons; split; [set_solver|]). apply NoDup_nil_2.
      * unfold junk. now rewrite length_map, length_seq.
Qed.

(** X21.  Starting a read loop on a handle of the event backend keeps the
    state well-formed: the call returns; when it returns false the pending
    loops are the ones from before, and when it returns true a loop on a
    new transfer is pending beside them. *)
Theorem read_loop_start_keeps_pending_loops (w : World) P hndl endpoint len cb userdata h :
  loops_wf w P ->
  heap w !! hndl = Some (BHandle h) ->
  h_sys h = USB ->
  exists r w',
    sccd_usb_dev_interupt_read_loop hndl endpoint len cb userdata w = Some (r, w') /\
    (r = false -> loops_wf w' P) /\
    (r = true -> exists t, (t ∉ P) /\ heap w !! t = None /\ loops_wf w' (t :: P)).
Proof.
  intros (Hwf & Hq & Hnd & Hpend & Hap) Hh Hsys.
  destruct (read_loop_run w hndl endpoint len cb userdata h Hh Hsys)
    as (r & w' & Hrun & Hq' & Hfalse & Htrue).
  exists r, w'. split; [exact Hrun|]. split.
  - intros Hr. unfold loops_wf. rewrite Hq', (Hfalse Hr). done.
  - intros Hr.
    destruct (Htrue Hr) as (Hpos & buffer & idata & t & tr & d & junk & Hfb & Hfi & Hft
                            & Hdist & Etb & Etu & Etl & Edb & Hjunk & Hheap).
    apply NoDup_cons in Hdist as [Hn0 Hdist]. apply NoDup_cons in Hdist as [Hn1 Hdist].
    apply NoDup_cons in Hdist as [Hn2 _].
    assert (buffer <> NULL /\ idata <> NULL /\ t <> NULL /\ buffer <> idata /\ buffer <> t
            /\ idata <> t) as (? & ? & ? & ? & ? & ?) by (split_and!; set_solver).
    assert (Hlive : forall a b, heap w !! a = Some b -> heap w' !! a = Some b).
    { intros a b Hab. rewrite Hheap. rewrite !lookup_insert_ne by congruence. done. }
    rewrite Forall_forall in Hpend.
    destruct (queue_wf_agree (heap w) (heap w') (scheduled_interupts w) Hq) as [Hq1 Hqb1].
    { intros a [Ha|Ha].
      - destruct (queue_item_record _ _ _ Hq Ha) as [d0 Hd0]. now rewrite (Hlive _ _ Hd0).
      - apply (queue_buffers_live _ _ _ Hq) in Ha as (bs0 & Hbs0)%is_bytes_inv.
        now rewrite (Hlive _ _ Hbs0). }
    exists t. split.
    { intros Hin. destruct (Hpend _ Hin) as (tr0 & _ & _ & Ht0 & _). congruence. }
    split; [done|].
    assert (Hold : forall t2, t2 ∈ P ->
              exists tr2 d2 bs2,
                heap w !! t2 = Some (BTransfer tr2) /\
                heap w !! t_user_data tr2 = Some (BIdata d2) /\
                heap w !! t_buffer tr2 = Some (BBytes bs2) /\
                pending (heap w') (scheduled_interupts w') t2).
    { intros t2 Hin2.
      destruct (Hpend _ Hin2) as (tr2 & d2 & bs2 & Ht2 & Hd2 & Hb2 & Hown2 & Hlen2 & Hnq2
                                & Hpriv2).
      exists tr2, d2, bs2. split; [done|]. split; [done|]. split; [done|].
      exists tr2, d2, bs2. rewrite Hq', Hqb1. split_and!; try done; try lia; now apply Hlive. }
    split; [|split; [|split; [|split]]].
    + unfold heap_wf in *. rewrite Hheap. now map_lookup.
    + now rewrite Hq'.
    + apply NoDup_cons. split; [|done].
      intros Hin. destruct (Hpend _ Hin) as (tr0 & _ & _ & Ht0 & _). congruence.
    + apply Forall_cons. split.
      * exists tr, d, junk. rewrite Hq', Hqb1, Etb, Etu, Etl, Hheap.
        split; [now map_lookup|]. split; [now map_lookup|]. split; [now map_lookup|].
        split; [done|]. split; [lia|]. split.
        -- intros Ha. destruct (queue_item_record _ _ _ Hq Ha). congruence.
        -- intros Ha. apply (queue_buffers_live _ _ _ Hq) in Ha as (? & ?)%is_bytes_inv.
           congruence.
      * apply Forall_forall. intros t2 Hin2. now destruct (Hold _ Hin2) as (? & ? & ? & ? & ? & ? & ?).
    + assert (Hnew : heap w' !! t = Some (BTransfer tr))
        by (rewrite Hheap; now map_lookup).
      assert (Hfresh : forall t2 tr2', t2 ∈ P -> heap w' !! t2 = Some (BTransfer tr2') ->
                t2 <> t /\ heap w !! t2 = Some (BTransfer tr2') /\
                t_user_data tr2' <> idata /\ t_buffer tr2' <> buffer).
      { intros t2 tr2' Hin2 Ht2'.
        destruct (Hold _ Hin2) as (tr2 & d2 & bs2 & Ht2 & Hd2 & Hb2 & _).
        rewrite (Hlive _ _ Ht2) in Ht2'. injection Ht2' as <-.
        split_and!; congruence. }
      intros t1 t2 [->|Hp1]%elem_of_cons [->|Hp2]%elem_of_cons Hne tr1 tr2 Ht1 Ht2;
        try done.
      * rewrite Hnew in Ht1. injection Ht1 as <-.
        destruct (Hfresh _ _ Hp2 Ht2) as (_ & _ & ? & ?). split; congruence.
      * rewrite Hnew in Ht2. injection Ht2 as <-.
        destruct (Hfresh _ _ Hp1 Ht1) as (_ & _ & ? & ?). split; congruence.
      * destruct (Hfresh _ _ Hp1 Ht1) as (_ & E1 & _).
        destruct (Hfresh _ _ Hp2 Ht2) as (_ & E2 & _).
        now apply (Hap t1 t2).
Qed.

Lemma idle_world_loops_wf alloc ret completions :
  loops_wf (idle_world alloc ret completions) [4%N].
Proof.
  split; [compute_done|]. split; [compute_done|]. split; [compute_done|]. split.
  - apply Forall_cons. split; [|apply Forall_nil_2].
    exists example_transfer, example_request, [10; 20; 30; 40].
    split_and!; try compute_done; simpl; lia.
  - intros t1 t2 ->%list_elem_of_singleton ->%list_elem_of_singleton. done.
Qed.


Lemma read_loop_start_keeps_pending_loops_witness :
  let w := idle_world (fun _ => true) (fun _ => 0) (fun _ => []) in
  exists r w',
    sccd_usb_dev_interupt_read_loop 1 0x01 4 100 200 w = Some (r, w') /\
    (r = false -> loops_wf w' [4%N]) /\
    (r = true -> exists t, (t ∉ [4%N]) /\ heap w !! t = None /\ loops_wf w' [t; 4%N]).
Proof.
  apply (read_loop_start_keeps_pending_loops
           (idle_world (fun _ => true) (fun _ => 0) (fun _ => [])) [4%N] 1 0x01 4 100 200
           (mkHandle USB 7 0)).
  - apply idle_world_loops_wf.
  - reflexivity.
  - reflexivity.
Defined.
